(** * filter_tester/filter_extractor.py : a shallow embedding

    The development follows the layout of the Python module:
    helpers ([post_with_retry], [is_numeric], [extract_sample_value],
    [get_applicable_filters]), the token manager ([login], [get],
    [refresh]), [fetch_field_data], [process_field] and [run].

    Python values are the JSON-shaped universe [pyval]; [None] is [PNone].
    Strings are byte strings and the character classes ([str.strip],
    [str.lower]) are the ASCII ones.  Floats are IEEE binary64 values,
    written with the standard library's [spec_float].  Effects (HTTP posts,
    sleeps, log records, files written, the token slot) are threaded through
    a state-and-exception monad over a [World]. *)

From Stdlib Require Import ZArith List String Ascii Bool Lia Permutation Sorted.
From Stdlib Require Import DecimalString.
From Stdlib Require Import Floats.SpecFloat.
Import ListNotations.

Local Open Scope string_scope.
Local Open Scope Z_scope.
Local Set Warnings "-register-all".

(* ================================================================== *)
(** * Python values *)

(** binary64.  A float is a [spec_float] in canonical form, as the parser
    below and the rounding functions produce it. *)
Definition prec : Z := 53.
Definition emax : Z := 1024.

Inductive pyval : Type :=
| PNone
| PBool (b : bool)
| PInt (z : Z)
| PFloat (x : spec_float)
| PStr (s : string)
| PList (l : list pyval)
| PDict (d : list (string * pyval)).

(** Truth value of an object ([if not v]). *)
Definition truthy (v : pyval) : bool :=
  match v with
  | PNone => false
  | PBool b => b
  | PInt z => negb (z =? 0)
  | PFloat (S754_zero _) => false
  | PFloat _ => true
  | PStr s => negb (s =? EmptyString)%string
  | PList l => match l with [] => false | _ => true end
  | PDict d => match d with [] => false | _ => true end
  end.

(** [len(v)]: defined for strings, lists and dicts, a [TypeError] (here
    [None]) for everything else. *)
Definition py_len (v : pyval) : option Z :=
  match v with
  | PStr s => Some (Z.of_nat (String.length s))
  | PList l => Some (Z.of_nat (List.length l))
  | PDict d => Some (Z.of_nat (List.length d))
  | _ => None
  end.

(** A dict is an association list in insertion order; [k in d] and [d[k]]. *)
Fixpoint dict_get (k : string) (d : list (string * pyval)) : option pyval :=
  match d with
  | [] => None
  | (k', v) :: d' => if (k' =? k)%string then Some v else dict_get k d'
  end.

Definition dict_has (k : string) (d : list (string * pyval)) : bool :=
  match dict_get k d with Some _ => true | None => false end.

(** [d[k] = v] / [d.update({k: v})]: an existing key keeps its place. *)
Fixpoint dict_set (k : string) (v : pyval) (d : list (string * pyval))
  : list (string * pyval) :=
  match d with
  | [] => [(k, v)]
  | (k', v') :: d' =>
      if (k' =? k)%string then (k, v) :: d' else (k', v') :: dict_set k v d'
  end.

Definition dict_update (d upd : list (string * pyval)) : list (string * pyval) :=
  fold_left (fun acc kv => dict_set (fst kv) (snd kv) acc) upd d.

(* ================================================================== *)
(** * Strings *)

(** [str.isspace] on ASCII: TAB..CR, FS..US and the space. *)
Definition is_space (c : ascii) : bool :=
  let n := nat_of_ascii c in
  ((9 <=? n) && (n <=? 13) || (28 <=? n) && (n <=? 32))%nat.

(** The white space [float(s)] ignores around an ASCII text: TAB..CR and the
    space. *)
Definition is_float_space (c : ascii) : bool :=
  let n := nat_of_ascii c in
  ((9 <=? n) && (n <=? 13) || (n =? 32))%nat.

Fixpoint lstrip_chars (space : ascii -> bool) (l : list ascii) : list ascii :=
  match l with
  | c :: l' => if space c then lstrip_chars space l' else l
  | [] => []
  end.

Definition strip_chars (space : ascii -> bool) (l : list ascii) : list ascii :=
  rev (lstrip_chars space (rev (lstrip_chars space l))).

(** [s.strip()] *)
Definition strip (s : string) : string :=
  string_of_list_ascii (strip_chars is_space (list_ascii_of_string s)).

Definition lower_char (c : ascii) : ascii :=
  let n := nat_of_ascii c in
  if ((65 <=? n) && (n <=? 90))%nat then ascii_of_nat (n + 32) else c.

(** [s.lower()] *)
Fixpoint lower (s : string) : string :=
  match s with
  | EmptyString => EmptyString
  | String c s' => String (lower_char c) (lower s')
  end.

(** [needle in hay] for two strings. *)
Definition contains (needle hay : string) : bool :=
  match index 0 needle hay with Some _ => true | None => false end.

(** [str(z)] for an int. *)
Definition str_of_int (z : Z) : string := NilZero.string_of_int (Z.to_int z).

(* ================================================================== *)
(** * [float(s)] for a string

    The grammar is the one of the language reference:
    optional sign, then [inf], [infinity] or [nan] in any case, or a decimal
    number [digits [. digits] [e [sign] digits]] where a single underscore
    may separate two digits; white space around the text is ignored.  The
    value is the decimal number rounded to the nearest binary64, ties to
    even. *)

Definition digit_of (c : ascii) : option Z :=
  let n := nat_of_ascii c in
  if ((48 <=? n) && (n <=? 57))%nat then Some (Z.of_nat (n - 48)) else None.

(** [digitpart ::= digit (["_"] digit)*]: the digits read and the rest. *)
Fixpoint digits_tail (l : list ascii) : list Z * list ascii :=
  match l with
  | c :: l' =>
      match digit_of c with
      | Some d => let '(ds, r) := digits_tail l' in (d :: ds, r)
      | None =>
          if Ascii.eqb c "_" then
            match l' with
            | c' :: l'' =>
                match digit_of c' with
                | Some d => let '(ds, r) := digits_tail l'' in (d :: ds, r)
                | None => ([], l)
                end
            | [] => ([], l)
            end
          else ([], l)
      end
  | [] => ([], [])
  end.

(** An optional [digitpart]: no digit is read when the text does not start
    with one. *)
Definition digitpart (l : list ascii) : list Z * list ascii :=
  match l with
  | c :: _ => match digit_of c with Some _ => digits_tail l | None => ([], l) end
  | [] => ([], [])
  end.

Definition number_of_digits (ds : list Z) : Z :=
  fold_left (fun acc d => 10 * acc + d) ds 0.

(** Optional sign: [true] is minus. *)
Definition read_sign (l : list ascii) : bool * list ascii :=
  match l with
  | c :: l' =>
      if Ascii.eqb c "-" then (true, l')
      else if Ascii.eqb c "+" then (false, l')
      else (false, l)
  | [] => (false, [])
  end.

(** Optional exponent; [None] when an [e] is not followed by digits. *)
Definition read_exponent (l : list ascii) : option (Z * list ascii) :=
  match l with
  | c :: l' =>
      if Ascii.eqb (lower_char c) "e" then
        let '(neg, l1) := read_sign l' in
        match digitpart l1 with
        | ([], _) => None
        | (ds, r) =>
            let e := number_of_digits ds in
            Some (if neg then - e else e, r)
        end
      else Some (0, l)
  | [] => Some (0, [])
  end.

(** [m * 10^e10] rounded to binary64, with sign [neg]. *)
Definition round_decimal (neg : bool) (m e10 : Z) : spec_float :=
  match m with
  | Zpos p =>
      if 0 <=? e10
      then binary_normalize prec emax
             (if neg then - (m * 10 ^ e10) else m * 10 ^ e10) 0 false
      else SFdiv prec emax (S754_finite neg p 0)
             (S754_finite false (Z.to_pos (10 ^ (- e10))) 0)
  | _ => S754_zero neg
  end.

Definition read_number (neg : bool) (l : list ascii) : option spec_float :=
  let '(ip, l1) := digitpart l in
  let '(fp, l2) :=
    match l1 with
    | c :: l1' => if Ascii.eqb c "." then digitpart l1' else ([], l1)
    | [] => ([], [])
    end in
  match ip, fp with
  | [], [] => None
  | _, _ =>
      match read_exponent l2 with
      | Some (e, []) =>
          Some (round_decimal neg (number_of_digits (ip ++ fp))
                  (e - Z.of_nat (List.length fp)))
      | _ => None
      end
  end.

(** [float(s)] on ASCII text; [None] is [ValueError]. *)
Definition py_float (s : string) : option spec_float :=
  let '(neg, body) :=
    read_sign (strip_chars is_float_space (list_ascii_of_string s)) in
  let word := lower (string_of_list_ascii body) in
  if (word =? "inf")%string || (word =? "infinity")%string
  then Some (S754_infinity neg)
  else if (word =? "nan")%string then Some S754_nan
  else read_number neg body.

(** [str(v)] where the model spells the text out.  The text of a float, a
    list or a dict is not spelled out ([None]); it is never blank, the one of
    a float reads back as the same float and the one of a list or a dict is
    no float literal. *)
Definition py_str (v : pyval) : option string :=
  match v with
  | PNone => Some "None"
  | PBool true => Some "True"
  | PBool false => Some "False"
  | PInt z => Some (str_of_int z)
  | PStr s => Some s
  | PFloat _ | PList _ | PDict _ => None
  end.

(** [str(v).strip()] is not the empty string. *)
Definition str_not_blank (v : pyval) : bool :=
  match py_str v with
  | Some s => negb (strip s =? EmptyString)%string
  | None => true
  end.

(** [float(str(v))]; [None] is [ValueError]. *)
Definition float_of_str (v : pyval) : option spec_float :=
  match v with
  | PFloat x => Some x
  | _ => match py_str v with Some s => py_float s | None => None end
  end.

(* ================================================================== *)
(** * Exceptions *)

Inductive exn : Type :=
| RequestException (msg : string)
| AttributeError
| TypeError
| KeyError.

Inductive res (A : Type) : Type :=
| Ok (a : A)
| Raise (e : exn).
Arguments Ok {A} a.
Arguments Raise {A} e.

Definition res_bind {A B} (r : res A) (k : A -> res B) : res B :=
  match r with Ok a => k a | Raise e => Raise e end.

(** [k in c] for a string [k]. *)
Definition py_in (k : string) (c : pyval) : res bool :=
  match c with
  | PDict d => Ok (dict_has k d)
  | PList l =>
      Ok (existsb (fun v => match v with PStr s => (s =? k)%string | _ => false end) l)
  | PStr s => Ok (contains k s)
  | _ => Raise TypeError
  end.

(** [c[k]] for a string [k]. *)
Definition py_getitem (c : pyval) (k : string) : res pyval :=
  match c with
  | PDict d => match dict_get k d with Some v => Ok v | None => Raise KeyError end
  | _ => Raise TypeError
  end.

(* ================================================================== *)
(** * The world: network, token slot, trace of effects *)

Record Response : Type := {
  status_code : Z;
  json_body : option pyval;   (* [res.json()], [None] when it raises *)
  text : string
}.

(** What [session.post] does: a response arrives, whatever its status, or
    the transport raises a [RequestException]. *)
Inductive Outcome : Type :=
| Arrives (r : Response)
| Fails (msg : string).

(** Effects in the order they happen.  [logging.info] progress records are
    not traced; warnings and errors are, with their format string. *)
Inductive Event : Type :=
| EPost (url : string) (headers body : list (string * pyval))
        (as_json : bool) (timeout : Z)
| ESleep (seconds : pyval)
| ELog (level fmt : string)
| EMakedirs (path : string)
| EWrite (path : string) (content : pyval).

(** [net n] is the outcome of the [n]-th post of the run, [posts] counts the
    posts made so far, [token] is the slot [TokenManager.token]. *)
Record World : Type := {
  net : nat -> Outcome;
  posts : nat;
  token : pyval;
  trace : list Event
}.

Definition M (A : Type) : Type := World -> res A * World.

Definition ret {A} (a : A) : M A := fun w => (Ok a, w).
Definition raise {A} (e : exn) : M A := fun w => (Raise e, w).
Definition bind {A B} (c : M A) (k : A -> M B) : M B :=
  fun w => match c w with
           | (Ok a, w') => k a w'
           | (Raise e, w') => (Raise e, w')
           end.

(** [try: x = c  except RequestException as e: handler e] and then [k x]. *)
Definition try_request {A B} (c : M A) (handler : string -> M B)
  (k : A -> M B) : M B :=
  fun w => match c w with
           | (Ok a, w') => k a w'
           | (Raise (RequestException e), w') => handler e w'
           | (Raise e, w') => (Raise e, w')
           end.

Declare Scope monad_scope.
Delimit Scope monad_scope with monad.
Notation "x <- c ;; k" := (bind c (fun x => k))
  (at level 61, c at next level, right associativity) : monad_scope.
Notation "c ;; k" := (bind c (fun _ => k))
  (at level 61, right associativity) : monad_scope.
Local Open Scope monad_scope.

Definition emit (e : Event) : M unit :=
  fun w => (Ok tt, {| net := net w; posts := posts w; token := token w;
                      trace := trace w ++ [e] |}).

Definition log_warning (fmt : string) : M unit := emit (ELog "WARNING" fmt).
Definition log_error (fmt : string) : M unit := emit (ELog "ERROR" fmt).
(** [time.sleep(seconds)] for a delay it accepts: a number that is not
    negative and no NaN. *)
Definition sleep (seconds : pyval) : M unit := emit (ESleep seconds).
Definition ensure_dir (path : string) : M unit := emit (EMakedirs path).
(** [with open(path, "w") as f: json.dump(content, f, ...)] *)
Definition write_json (path : string) (content : pyval) : M unit :=
  emit (EWrite path content).

Definition get_token : M pyval := fun w => (Ok (token w), w).
Definition set_token (t : pyval) : M unit :=
  fun w => (Ok tt, {| net := net w; posts := posts w; token := t;
                      trace := trace w |}).

(** [session.post(url, ...)] *)
Definition session_post (url : string) (headers body : list (string * pyval))
  (as_json : bool) (timeout : Z) : M Response :=
  fun w =>
    let w' := {| net := net w; posts := S (posts w); token := token w;
                 trace := trace w ++ [EPost url headers body as_json timeout] |} in
    match net w (posts w) with
    | Arrives r => (Ok r, w')
    | Fails msg => (Raise (RequestException msg), w')
    end.

(** [res.ok]: no 4xx and no 5xx status. *)
Definition ok (r : Response) : bool :=
  negb ((400 <=? status_code r) && (status_code r <? 600)).

Definition safe_json (r : Response) : pyval :=
  match json_body r with
  | Some v => v
  | None => PDict [("_raw_text", PStr (substring 0 4000 (text r)));
                   ("_status_code", PInt (status_code r))]
  end.

(* ================================================================== *)
(** * Config *)

Definition BASE_URL : string := "https://unifymedicraft.net/laravel/api".
Definition REPORT_URL : string := BASE_URL ++ "/reports/paymentAdHocReport".
Definition LOGIN_URL : string := BASE_URL ++ "/login".

Definition FILTERS : list string :=
  ["equal"; "not_equal"; "greater"; "less"; "like"; "in"].

(* ================================================================== *)
(** * Helpers: [is_numeric], [extract_sample_value], [get_applicable_filters] *)

Definition is_numeric (value : pyval) : bool :=
  match value with
  | PNone => false
  | _ => match float_of_str value with Some _ => true | None => false end
  end.

Definition get_applicable_filters (sample_value : pyval) : list string :=
  match sample_value with
  | PNone => FILTERS
  | _ =>
      if is_numeric sample_value then FILTERS
      else
        filter (fun f => negb (existsb (String.eqb f) ["greater"; "less"])) FILTERS
  end.

(** A float object: its identity (the position, in [values], of the value it
    was parsed from; every [float(...)] call makes a new object) and its
    number.  Dict keys match by identity or by [==]. *)
Definition fobj : Type := (nat * spec_float)%type.

Definition same_key (a b : fobj) : bool :=
  (fst a =? fst b)%nat || SFeqb (snd a) (snd b).

(** [d[k] = v] on a dict keyed by floats. *)
Fixpoint fdict_set (k : fobj) (v : pyval) (d : list (fobj * pyval))
  : list (fobj * pyval) :=
  match d with
  | [] => [(k, v)]
  | (k', v') :: d' =>
      if same_key k' k then (k', v) :: d' else (k', v') :: fdict_set k v d'
  end.

Fixpoint fdict_get (k : fobj) (d : list (fobj * pyval)) : option pyval :=
  match d with
  | [] => None
  | (k', v) :: d' => if same_key k' k then Some v else fdict_get k d'
  end.

(** [l[a:b]] for [0 <= a] and [0 <= b]. *)
Definition slice {A} (a b : nat) (l : list A) : list A :=
  firstn (b - a) (skipn a l).

Definition first_some {A B} (f : A -> option B) (l : list A) : option B :=
  fold_right (fun a r => match f a with Some b => Some b | None => r end) None l.

(** [v is not None] and [str(v).strip()] is not the empty string. *)
Definition usable (v : pyval) : bool :=
  match v with PNone => false | _ => str_not_blank v end.

(** The value one row contributes: the candidate keys in priority order,
    then (the [for ... else]) the first key that contains the field name. *)
Definition row_value (group field : string) (row : pyval) : option pyval :=
  match row with
  | PDict d =>
      let possible_keys :=
        [field; group ++ "." ++ field; group ++ "_" ++ field;
         group ++ " " ++ field] in
      match
        first_some (fun key =>
          match dict_get key d with
          | Some v => if usable v then Some v else None
          | None => None
          end) possible_keys
      with
      | Some v => Some v
      | None =>
          first_some (fun kv : string * pyval =>
            if contains (lower field) (lower (fst kv)) && usable (snd kv)
            then Some (snd kv) else None) d
      end
  | _ => None
  end.

Fixpoint collect_values (group field : string) (data_rows : list pyval)
  : list pyval :=
  match data_rows with
  | [] => []
  | row :: rest =>
      match row_value group field row with
      | Some v => v :: collect_values group field rest
      | None => collect_values group field rest
      end
  end.

(** The loop over [values] from position [i] on: [numeric_values] and
    [original_to_numeric] as they stand after it. *)
Fixpoint numeric_scan (i : nat) (values : list pyval)
  (numeric_values : list fobj) (original_to_numeric : list (fobj * pyval))
  : list fobj * list (fobj * pyval) :=
  match values with
  | [] => (numeric_values, original_to_numeric)
  | val :: rest =>
      if is_numeric val then
        match float_of_str val with
        | Some x =>
            numeric_scan (S i) rest (numeric_values ++ [(i, x)])
              (fdict_set (i, x) val original_to_numeric)
        | None => numeric_scan (S i) rest numeric_values original_to_numeric
        end
      else numeric_scan (S i) rest numeric_values original_to_numeric
  end.

Definition numeric_values (values : list pyval) : list fobj :=
  fst (numeric_scan 0 values [] []).

Definition original_to_numeric (values : list pyval) : list (fobj * pyval) :=
  snd (numeric_scan 0 values [] []).

Section Extraction.

(** [list.sort()] on a list of floats. *)
Variable list_sort : list fobj -> list fobj.

(** [numeric_values] after [numeric_values.sort()]. *)
Definition sorted_numeric (values : list pyval) : list fobj :=
  list_sort (numeric_values values).

(** [numeric_values[start_idx:end_idx]] *)
Definition middle_range (sorted : list fobj) : list fobj :=
  let start_idx := (List.length sorted / 4)%nat in
  let end_idx := (3 * List.length sorted / 4)%nat in
  slice start_idx end_idx sorted.

(** [middle_range[middle_idx]], when [middle_range] is not empty. *)
Definition selected_numeric (values : list pyval) : option fobj :=
  let middle_range := middle_range (sorted_numeric values) in
  match middle_range with
  | [] => None
  | _ =>
      let middle_idx := (List.length middle_range / 2)%nat in
      nth_error middle_range middle_idx
  end.

(** The branch taken when [for_comparison and len(values) > 1]; [None]
    when it falls through to [values[0]]. *)
Definition middle_sample (values : list pyval) : option (res pyval) :=
  if (1 <? List.length (numeric_values values))%nat then
    match selected_numeric values with
    | Some selected_numeric =>
        match fdict_get selected_numeric (original_to_numeric values) with
        | Some selected_value => Some (Ok selected_value)
        | None => Some (Raise KeyError)
        end
    | None => None
    end
  else None.

Definition extract_from_rows (group field : string) (for_comparison : bool)
  (data_rows : list pyval) : res pyval :=
  let values := collect_values group field data_rows in
  match values with
  | [] => Ok PNone
  | first :: _ =>
      let fallthrough := Ok first in
      if for_comparison && (1 <? List.length values)%nat then
        match middle_sample values with
        | Some r => r
        | None => fallthrough
        end
      else fallthrough
  end.

(** The body of the [try]. *)
Definition extract_sample_value_try (response_data : pyval)
  (group field : string) (for_comparison : bool) : res pyval :=
  res_bind (py_in "response" response_data) (fun has_response =>
  res_bind (if has_response
            then res_bind (py_getitem response_data "response") (py_in "data")
            else Ok false) (fun has_data =>
  if has_data then
    res_bind (py_getitem response_data "response") (fun response =>
    res_bind (py_getitem response "data") (fun data_rows =>
    match data_rows with
    | PList ((_ :: _) as rows) =>
        extract_from_rows group field for_comparison rows
    | _ => Ok PNone
    end))
  else Ok PNone)).

(** [except Exception as e: logging.warning(...); return None] *)
Definition extract_sample_value (response_data : pyval)
  (group field : string) (for_comparison : bool) : M pyval :=
  match extract_sample_value_try response_data group field for_comparison with
  | Ok v => ret v
  | Raise _ =>
      log_warning "Error extracting sample value for %s.%s: %s" ;;
      ret PNone
  end.

End Extraction.

(** A stable insertion sort by [<], the comparison [list.sort()] uses: an
    element goes after every element that is not greater.  On floats without
    a NaN a stable sort has one possible result, the one of [list.sort()];
    with a NaN [list.sort()] may leave another order. *)
Fixpoint sort_insert (x : fobj) (l : list fobj) : list fobj :=
  match l with
  | [] => [x]
  | y :: l' => if SFltb (snd x) (snd y) then x :: l else y :: sort_insert x l'
  end.

Definition stable_sort (l : list fobj) : list fobj :=
  fold_left (fun acc x => sort_insert x acc) l [].

(* ================================================================== *)
(** * [post_with_retry] *)

(** [range(a, b)] *)
Definition range (a b : Z) : list Z :=
  map (fun i => a + Z.of_nat i) (seq 0 (Z.to_nat (b - a))).

(** The [for attempt in ...] loop; [None] is the value of a call whose loop
    ends without a [return]. *)
Fixpoint retry_loop (attempts : list Z) (retries delay : Z)
  (url : string) (headers data : list (string * pyval)) (timeout : Z)
  : M (option Response) :=
  match attempts with
  | [] => ret None
  | attempt :: rest =>
      try_request (session_post url headers data false timeout)
        (fun e =>
           log_warning "Request failed (attempt %d/%d): %s" ;;
           if attempt =? retries then raise (RequestException e)
           else
             sleep (PInt delay) ;;
             retry_loop rest retries (delay * 2) url headers data timeout)
        (fun r => ret (Some r))
  end.

Definition post_with_retry (url : string) (headers data : list (string * pyval))
  (retries timeout : Z) : M (option Response) :=
  retry_loop (range 1 (retries + 1)) retries 1 url headers data timeout.

(* ================================================================== *)
(** * Token manager *)

Record TokenManager : Type := { email : string; password : string }.

(** [body.get("data", {}).get("access_token")] for a dict [body]. *)
Definition access_token_of (body : list (string * pyval)) : res pyval :=
  match dict_get "data" body with
  | None => Ok PNone
  | Some (PDict data) =>
      match dict_get "access_token" data with
      | Some t => Ok t
      | None => Ok PNone
      end
  | Some _ => Raise AttributeError
  end.

Definition lift {A} (r : res A) : M A := fun w => (r, w).

Definition login (tm : TokenManager) (timeout : Z) : M pyval :=
  let payload := [("email", PStr (email tm)); ("password", PStr (password tm))] in
  let headers := [("Accept", PStr "application/json");
                  ("Content-Type", PStr "application/json")] in
  try_request (session_post LOGIN_URL headers payload true timeout)
    (fun _ => log_error "Network error during login: %s" ;; ret PNone)
    (fun res =>
       if negb (ok res) then
         log_error "Login failed: status=%s body=%s" ;; ret PNone
       else
         let body := safe_json res in
         tok <- match body with
                | PDict d => lift (access_token_of d)
                | _ => ret PNone
                end ;;
         if negb (truthy tok) then
           log_error "Login returned no access_token. Full body: %s" ;;
           ret PNone
         else
           set_token tok ;;
           (* logging.info("... token len=%d", len(token)) *)
           match py_len tok with
           | Some _ => ret tok
           | None => raise TypeError
           end).

Definition get (tm : TokenManager) : M pyval :=
  t <- get_token ;;
  if negb (truthy t) then login tm 10 else ret t.

Definition refresh (tm : TokenManager) : M pyval :=
  set_token PNone ;;
  login tm 10.

(* ================================================================== *)
(** * [fetch_field_data] *)

(** [f"Bearer {token}"]; for a token whose text is not spelled out the
    header keeps the prefix and the object. *)
Definition bearer (tok : pyval) : pyval :=
  match py_str tok with
  | Some s => PStr ("Bearer " ++ s)
  | None => PList [PStr "Bearer "; tok]
  end.

Definition report_headers (tok : pyval) : list (string * pyval) :=
  [("Authorization", bearer tok);
   ("Accept", PStr "application/json");
   ("Content-Type", PStr "application/x-www-form-urlencoded")].

Definition report_payload (group field : string)
  (filter_operator filter_value : pyval) : list (string * pyval) :=
  let payload :=
    dict_update []
      [("filterData", PInt 100); ("show", PInt 1); ("columns_count", PInt 50);
       (group ++ "[" ++ field ++ "]", PStr (group ++ " " ++ field))] in
  if truthy filter_operator
     && match filter_value with PNone => false | _ => true end
  then
    dict_update payload
      [("filters[" ++ group ++ "][0][field]", PStr field);
       ("filters[" ++ group ++ "][0][group]", PStr group);
       ("filters[" ++ group ++ "][0][operator]", filter_operator);
       ("filters[" ++ group ++ "][0][value]", filter_value)]
  else payload.

Definition fetch_field_data (tm : TokenManager) (group field : string)
  (filter_operator filter_value : pyval) (timeout : Z)
  : M (option Response) :=
  tok <- get tm ;;
  if negb (truthy tok) then
    log_error "No token available for request to %s.%s" ;; ret None
  else
    let headers := report_headers tok in
    let payload := report_payload group field filter_operator filter_value in
    try_request (post_with_retry REPORT_URL headers payload 2 timeout)
      (fun _ => log_error "Network error fetching %s.%s: %s" ;; ret None)
      (fun res =>
         match res with
         | None => raise AttributeError   (* [None.status_code] *)
         | Some r =>
             if status_code r =? 401 then
               log_warning
                 "401 Unauthorized for %s.%s — refreshing token and retrying once" ;;
               new_token <- refresh tm ;;
               if negb (truthy new_token) then
                 log_error "Re-login failed while handling 401 for %s.%s" ;;
                 ret (Some r)
               else
                 let headers := dict_set "Authorization" (bearer new_token) headers in
                 try_request (post_with_retry REPORT_URL headers payload 1 timeout)
                   (fun _ =>
                      log_error "Network error on retry for %s.%s: %s" ;;
                      ret None)
                   (fun res' =>
                      match res' with
                      | None => raise AttributeError
                      | Some r' => ret (Some r')
                      end)
             else ret (Some r)
         end).

(* ================================================================== *)
(** * [process_field] *)

(** [os.path.join] of a directory and a relative name, for a directory that
    is not empty and does not end with a slash. *)
Definition path_join (a b : string) : string := a ++ "/" ++ b.

Section FieldProcessor.

Variable list_sort : list fobj -> list fobj.

(** The [for filter_op in applicable_filters] loop. *)
Fixpoint apply_filters (tm : TokenManager) (group field field_dir : string)
  (delay sample_value comparison_value : pyval) (filters : list string)
  : M unit :=
  match filters with
  | [] => ret tt
  | filter_op :: rest =>
      let filter_value :=
        if existsb (String.eqb filter_op) ["greater"; "less"]
           && match comparison_value with PNone => false | _ => true end
        then comparison_value else sample_value in
      sleep delay ;;
      res <- fetch_field_data tm group field (PStr filter_op) filter_value 30 ;;
      let filter_file := path_join field_dir (filter_op ++ ".json") in
      match res with
      | None =>
          write_json filter_file
            (PDict [("group", PStr group); ("field", PStr field);
                    ("error", PStr "network_failed");
                    ("filter", PStr filter_op);
                    ("filter_value", filter_value)])
      | Some r =>
          write_json filter_file
            (PDict [("group", PStr group); ("field", PStr field);
                    ("status_code", PInt (status_code r));
                    ("filter", PStr filter_op);
                    ("filter_value", filter_value);
                    ("response", safe_json r)])
      end ;;
      apply_filters tm group field field_dir delay sample_value
        comparison_value rest
  end.

Definition raw_file_of (output_dir group field : string) : string :=
  path_join (path_join (path_join output_dir group) field) "raw_data.json".

Definition raw_sentinel (group field : string) : pyval :=
  PDict [("group", PStr group); ("field", PStr field);
         ("error", PStr "network_failed"); ("filter", PNone)].

Definition raw_result_of (group field : string) (r : Response) : pyval :=
  PDict [("group", PStr group); ("field", PStr field);
         ("status_code", PInt (status_code r)); ("filter", PNone);
         ("response", safe_json r)].

Definition process_field (tm : TokenManager)
  (group field output_dir : string) (delay : pyval) : M unit :=
  let field_dir := path_join (path_join output_dir group) field in
  ensure_dir field_dir ;;
  (* Step 1: fetch raw data (no filters) *)
  sleep delay ;;
  res <- fetch_field_data tm group field PNone PNone 30 ;;
  let raw_file := path_join field_dir "raw_data.json" in
  match res with
  | None => write_json raw_file (raw_sentinel group field)
  | Some r =>
      let raw_result := raw_result_of group field r in
      write_json raw_file raw_result ;;
      (* Step 2: sample values *)
      sample_value <-
        extract_sample_value list_sort raw_result group field false ;;
      comparison_value <-
        extract_sample_value list_sort raw_result group field true ;;
      match sample_value with
      | PNone =>
          log_warning "No sample value found for %s.%s, skipping filters"
      | _ =>
          (* Step 3: filters *)
          apply_filters tm group field field_dir delay sample_value
            comparison_value (get_applicable_filters sample_value)
      end
  end.

End FieldProcessor.

(* ================================================================== *)
(** * Reading a trace *)

(** The requests posted to [url], in order: headers and body. *)
Fixpoint posts_to (url : string) (t : list Event)
  : list (list (string * pyval) * list (string * pyval)) :=
  match t with
  | [] => []
  | EPost u h b _ _ :: t' =>
      if (u =? url)%string then (h, b) :: posts_to url t' else posts_to url t'
  | _ :: t' => posts_to url t'
  end.

(** All posts, to any address. *)
Fixpoint all_posts (t : list Event) : list string :=
  match t with
  | [] => []
  | EPost u _ _ _ _ :: t' => u :: all_posts t'
  | _ :: t' => all_posts t'
  end.

(** The arguments of the [time.sleep] calls, in order. *)
Fixpoint sleeps (t : list Event) : list pyval :=
  match t with
  | [] => []
  | ESleep d :: t' => d :: sleeps t'
  | _ :: t' => sleeps t'
  end.

(** What was written to [path], in order. *)
Fixpoint writes_to (path : string) (t : list Event) : list pyval :=
  match t with
  | [] => []
  | EWrite p c :: t' =>
      if (p =? path)%string then c :: writes_to path t' else writes_to path t'
  | _ :: t' => writes_to path t'
  end.

(** Every file written, in order. *)
Fixpoint written_files (t : list Event) : list string :=
  match t with
  | [] => []
  | EWrite p _ :: t' => p :: written_files t'
  | _ :: t' => written_files t'
  end.

Fixpoint logged (t : list Event) : list (string * string) :=
  match t with
  | [] => []
  | ELog l f :: t' => (l, f) :: logged t'
  | _ :: t' => logged t'
  end.


(* ================================================================== *)
(** * Concrete worlds used in the examples *)

Definition response_of (status : Z) (body : pyval) : Response :=
  {| status_code := status; json_body := Some body; text := EmptyString |}.

Definition server_error : Response :=
  response_of 500 (PDict [("message", PStr "Server Error")]).

Definition unauthorized : Response :=
  response_of 401 (PDict [("message", PStr "Unauthenticated.")]).

(** A body that carries the token [t] at [data.access_token]. *)
Definition token_body (t : pyval) : pyval :=
  PDict [("data", PDict [("access_token", t)])].

Definition world_of (script : list Outcome) (tok : pyval) : World :=
  {| net := fun n => nth n script (Fails "timed out");
     posts := 0; token := tok; trace := [] |}.

(** Two network failures and then a response with status 500. *)
Definition flaky_world : World :=
  world_of [Fails "timed out"; Fails "connection reset"; Arrives server_error]
    PNone.

Definition the_manager : TokenManager :=
  {| email := "user@example.com"; password := "secret" |}.

(** The world in which the raw fetch of [process_field] starts: after
    [ensure_dir(field_dir)] and [time.sleep(delay)]. *)
Definition prologue (output_dir group field : string) (delay : pyval)
  (w : World) : World :=
  snd ((ensure_dir (path_join (path_join output_dir group) field) ;;
        sleep delay) w).

(** A session whose token the server no longer accepts: the report post is
    answered 401, the re-login succeeds with the token ["new"], and the
    retried post is answered 401 again. *)
Definition expired_world : World :=
  world_of [Arrives unauthorized;
            Arrives (response_of 200 (token_body (PStr "new")));
            Arrives unauthorized] (PStr "old").

(** The report post is answered 401 and so is the re-login. *)
Definition locked_out_world : World :=
  world_of [Arrives unauthorized; Arrives unauthorized] (PStr "old").

(** The report post is answered 401 and the re-login is answered with
    status 200 and the body [{"data": null}]. *)
Definition null_data_world : World :=
  world_of [Arrives unauthorized;
            Arrives (response_of 200 (PDict [("data", PNone)]))] (PStr "old").

(** A report whose rows have only blank or null notes. *)
Definition blank_notes : Response :=
  response_of 200
    (PDict [("data", PList [PDict [("note", PStr EmptyString)];
                            PDict [("note", PNone)];
                            PDict [("note", PStr "  ")]])]).

Definition blank_notes_world : World :=
  world_of [Arrives blank_notes] (PStr "old").

(** [--delay 2.0] *)
Definition two_seconds : pyval :=
  PFloat (S754_finite false 4503599627370496 (-51)).

(* ================================================================== *)
(** * Notions used to state the properties *)

(** The world in which [refresh] runs: after the 401 warning. *)
Definition warned_401 (w : World) : World :=
  snd (log_warning
         "401 Unauthorized for %s.%s — refreshing token and retrying once" w).

(** [a] may stand before [b] in a sorted list: [b < a] does not hold. *)
Definition in_order (a b : fobj) : Prop := SFltb (snd b) (snd a) = false.

(** A float object that is no NaN. *)
Definition no_nan (o : fobj) : Prop := snd o <> S754_nan.

(** How many numbers of [l] are smaller than [o], and how many are not
    greater than [o]. *)
Definition below (o : fobj) (l : list fobj) : nat :=
  List.length (filter (fun a => SFltb (snd a) (snd o)) l).

Definition not_above (o : fobj) (l : list fobj) : nat :=
  List.length (filter (fun a => negb (SFltb (snd o) (snd a))) l).

(** [==] on floats, spelled out. *)
Definition feq (x y : spec_float) : Prop :=
  match x, y with
  | S754_zero _, S754_zero _ => True
  | S754_infinity s1, S754_infinity s2 => s1 = s2
  | S754_finite s1 m1 e1, S754_finite s2 m2 e2 => s1 = s2 /\ m1 = m2 /\ e1 = e2
  | _, _ => False
  end.

(** The float objects made from [values]: the tag is the position and the
    number is the parse of the value there. *)
Definition key_of (values : list pyval) (o : fobj) : Prop :=
  exists val, nth_error values (fst o) = Some val
              /\ float_of_str val = Some (snd o).

(** The float objects the scan appends, from position [i] on. *)
Fixpoint keys_from (i : nat) (values : list pyval) : list fobj :=
  match values with
  | [] => []
  | val :: rest =>
      match float_of_str val with
      | Some x => (i, x) :: keys_from (S i) rest
      | None => keys_from (S i) rest
      end
  end.

(** The last value, from position [i] on, whose float object matches [o]. *)
Fixpoint last_match (i : nat) (values : list pyval) (o : fobj) : option pyval :=
  match values with
  | [] => None
  | val :: rest =>
      match last_match (S i) rest o with
      | Some v => Some v
      | None =>
          match float_of_str val with
          | Some x => if same_key (i, x) o then Some val else None
          | None => None
          end
      end
  end.

(** [matches values j o]: the value at position [j] parses to the float
    object [o], as the same object or by [==]. *)
Definition matches (values : list pyval) (j : nat) (o : fobj) : Prop :=
  exists val x, nth_error values j = Some val /\ float_of_str val = Some x
                /\ same_key (j, x) o = true.

(** One number per [==] class. *)
Fixpoint distinct_floats (l : list spec_float) : list spec_float :=
  match l with
  | [] => []
  | x :: l' =>
      if existsb (SFeqb x) l' then distinct_floats l'
      else x :: distinct_floats l'
  end.

(** How many distinct numbers the values parse to. *)
Definition distinct_numeric (values : list pyval) : nat :=
  List.length (distinct_floats (map snd (numeric_values values))).

(** [process_field] once the raw artifact is written. *)
Definition derive_and_filter (list_sort : list fobj -> list fobj)
  (tm : TokenManager) (group field output_dir : string) (delay : pyval)
  (r : Response) : M unit :=
  sample_value <-
    extract_sample_value list_sort (raw_result_of group field r) group field
      false ;;
  comparison_value <-
    extract_sample_value list_sort (raw_result_of group field r) group field
      true ;;
  match sample_value with
  | PNone => log_warning "No sample value found for %s.%s, skipping filters"
  | _ =>
      apply_filters tm group field
        (path_join (path_join output_dir group) field) delay sample_value
        comparison_value (get_applicable_filters sample_value)
  end.

(** The responses from which [login] has no token to return. *)
Definition no_token_in (o : Outcome) : Prop :=
  match o with
  | Fails _ => True
  | Arrives r =>
      400 <= status_code r < 600
      \/ match safe_json r with
         | PDict d =>
             match dict_get "data" d with
             | None => True
             | Some (PDict data) =>
                 match dict_get "access_token" data with
                 | None => True
                 | Some t => truthy t = false
                 end
             | Some _ => False
             end
         | _ => True
         end
  end.

(** [writes_only Q c]: running [c] only adds to the trace, and every file it
    writes satisfies [Q]. *)
Definition writes_only (Q : string -> Prop) {A} (c : M A) : Prop :=
  forall w, exists t,
    trace (snd (c w)) = (trace w ++ t)%list /\ Forall Q (written_files t).

(* ================================================================== *)
(** * Concrete rows used in the examples *)

(** * Concrete rows used in the examples *)

Definition amount_rows (texts : list string) : list pyval :=
  map (fun s => PDict [("amount", PStr s)]) texts.

Definition raw_of_rows (rows : list pyval) : pyval :=
  PDict [("group", PStr "payment"); ("field", PStr "amount");
         ("status_code", PInt 200); ("filter", PNone);
         ("response", PDict [("data", PList rows)])].

(** The rows of the example in the testable properties. *)
Definition example_rows : list pyval := amount_rows ["12.50"; "45"; "30"; "9"].
Definition example_raw : pyval := raw_of_rows example_rows.
Definition example_values : list pyval :=
  collect_values "payment" "amount" example_rows.

(** Rows in which two texts, first ["3.0"] and then ["3"], parse to one
    number. *)
Definition tie_rows : list pyval := amount_rows ["1"; "2"; "3.0"; "3"].
Definition tie_raw : pyval := raw_of_rows tie_rows.
Definition tie_values : list pyval := collect_values "payment" "amount" tie_rows.

(* ================================================================== *)
(** * Further notions used to state properties *)

(** The rows a response holds at [response.data]; none when it is not shaped
    like that. *)
Definition rows_of (response_data : pyval) : list pyval :=
  match response_data with
  | PDict d =>
      match dict_get "response" d with
      | Some (PDict r) =>
          match dict_get "data" r with
          | Some (PList rows) => rows
          | _ => []
          end
      | _ => []
      end
  | _ => []
  end.

(** [values[0]], or [None] when there is no value. *)
Definition first_value (values : list pyval) : pyval :=
  match values with
  | v :: _ => v
  | [] => PNone
  end.

(* ================================================================== *)
(** * [run] *)

Definition DEFAULT_EMAIL : string := "subtest3mostafa@medicraft.com".
Definition DEFAULT_PASSWORD : string := "SubTest3@mostafaTest".

Definition GROUPS : list (string * list string) :=
  [
   ("payment",
     ["id"; "check_number"; "is_posted"; "invoice_id"; "receipt_id";
      "deposit_id"; "patient_id"; "created_by"; "created_at"; "age_bucket";
      "posted_by"; "amount"; "pay_date"; "pay_date_bucket"; "post_date";
      "payments_description"; "denial_description"; "type"; "reason";
      "denial_payment"]);
   ("receipts",
     ["id"; "receipt_type"; "check_reference"; "note"; "receipt_amount"]);
   ("deposits",
     ["payment_date"; "reference"; "description"; "posted"; "date_posted";
      "amount"]);
   ("patient",
     ["delivery_address_1"; "delivery_address_2"; "delivery_city_name";
      "delivery_state_name"; "delivery_country_name";
      "delivery_delivery_phone"; "delivery_delivery_fax"; "delivery_zipcode";
      "id"; "first_name"; "middle_name"; "last_name"; "full_name";
      "month_of_birth"; "day_of_birth"; "birthday"; "weight_lbs"; "gender";
      "ssn"; "suffix"; "hipaa_signature"; "customer_type"; "facility"; "pos";
      "account_on_hold"; "created_by"; "created_at"; "prior_system_key";
      "account_no"; "account_group"; "user_1"; "user_2"; "user_3"; "user_4";
      "branch"; "address1"; "city"; "state"; "country"; "postal_code";
      "state_code"; "policy_id"; "insurance_id"; "payor_level"; "address";
      "policy_city "; "policy_state"; "policy_country"; "policy_zip_code";
      "payor_contact"; "claim_form"; "ins_submisssion"; "plan_type"; "pay_pct"]);
   ("payor",
     ["pri_name"; "group"]);
   ("meta_key",
     ["customer_type"; "account_on_hold"]);
   ("policy",
     ["zipcode"; "country"; "group_name"]);
   ("invoice_items",
     ["item_sku"; "item_name"; "proc_code"; "item_group"; "qty"; "allow";
      "charge"; "balance"; "created_at"; "modifier_1"; "modifier_2";
      "modifier_3"; "modifier_4"; "original_dos"; "dos_to"]);
   ("ordering_doctor",
     ["first_name"; "last_name"; "middle_name"; "pecos"; "npi"; "country";
      "status"]);
   ("item_location",
     ["available"; "on_hand"; "on_rent_qty"; "on_order_qty"; "out_of_stock"]);
   ("marketing_rep",
     ["first_name"; "last_name"]);
   ("diagnosis",
     ["Dx ICD-9 Code #01"; "Dx ICD-9 Description #01"; "Dx ICD-9 Code #02";
      "Dx ICD-9 Description #02"; "Dx ICD-9 Code #03";
      "Dx ICD-9 Description #03"; "Dx ICD-9 Code #04";
      "Dx ICD-9 Description #04"; "Dx ICD-9 Code #05";
      "Dx ICD-9 Description #05"; "Dx ICD-9 Code #06";
      "Dx ICD-9 Description #06"; "Dx ICD-9 Code #07";
      "Dx ICD-9 Description #07"; "Dx ICD-9 Code #08";
      "Dx ICD-9 Description #08"; "Dx ICD-9 Code #09";
      "Dx ICD-9 Description #09"])
  ].

(** The parsed command line: [--email], [--password], [--groups] and
    [--field] are [None] when absent. *)
Record Args : Type := {
  arg_email : option string;
  arg_password : option string;
  arg_groups : option string;
  arg_field : option string;
  arg_delay : pyval;
  arg_output : string
}.

(** [a or d] for an optional string [a]. *)
Definition or_default (a : option string) (d : string) : string :=
  match a with
  | Some s => if (s =? EmptyString)%string then d else s
  | None => d
  end.

(** Truth value of an optional string. *)
Definition given (a : option string) : bool :=
  match a with
  | Some s => negb (s =? EmptyString)%string
  | None => false
  end.

(** [s.split(sep)] for a one-character separator. *)
Fixpoint split_on (sep : ascii) (s : string) : list string :=
  match s with
  | EmptyString => [EmptyString]
  | String c s' =>
      if Ascii.eqb c sep then EmptyString :: split_on sep s'
      else
        match split_on sep s' with
        | h :: t => String c h :: t
        | [] => [String c EmptyString]
        end
  end.

(** [[g.strip() for g in groups.split(",") if g.strip()]] *)
Definition wanted_groups (groups : string) : list string :=
  map strip
    (filter (fun g => negb (strip g =? EmptyString)%string)
       (split_on "," groups)).

(** [{k: v for k, v in groups.items() if k in wanted}] *)
Definition restrict_groups (wanted : list string)
  (groups : list (string * list string)) : list (string * list string) :=
  filter (fun kv => existsb (String.eqb (fst kv)) wanted) groups.

Definition is_slash (c : ascii) : bool := Ascii.eqb c "/".

Fixpoint drop_to_slash (l : list ascii) : list ascii :=
  match l with
  | [] => []
  | c :: l' => if is_slash c then l else drop_to_slash l'
  end.

(** [os.path.dirname(p)]: the text up to the last slash, without trailing
    slashes unless it consists of slashes only. *)
Definition os_path_dirname (p : string) : string :=
  let head := rev (drop_to_slash (rev (list_ascii_of_string p))) in
  if forallb is_slash head then string_of_list_ascii head
  else string_of_list_ascii (rev (lstrip_chars is_slash (rev head))).

(** [os.makedirs(logdir, exist_ok=True)]; the handlers that
    [logging.basicConfig] installs are not traced. *)
Definition setup_logging (logfile : string) : M unit :=
  let logdir :=
    if (os_path_dirname logfile =? EmptyString)%string then "."
    else os_path_dirname logfile in
  emit (EMakedirs logdir).

(** [try: c  except Exception as e: handler e] *)
Definition try_except {A} (c : M A) (handler : exn -> M A) : M A :=
  fun w => match c w with
           | (Ok a, w') => (Ok a, w')
           | (Raise e, w') => handler e w'
           end.

Section Run.

Variable list_sort : list fobj -> list fobj.

(** The [for field in fields] loop of one group. *)
Fixpoint run_fields (tm : TokenManager) (args : Args) (group : string)
  (fields : list string) : M unit :=
  match fields with
  | [] => ret tt
  | field :: rest =>
      (if given (arg_field args)
          && negb (or_default (arg_field args) EmptyString =? field)%string
       then ret tt   (* continue *)
       else
         try_except
           (process_field list_sort tm group field (arg_output args)
              (arg_delay args))
           (fun _ =>
              log_error "Error processing %s.%s: %s" ;;
              log_error "Traceback: %s")) ;;
      run_fields tm args group rest
  end.

(** The [for group, fields in groups.items()] loop. *)
Fixpoint run_groups (tm : TokenManager) (args : Args)
  (groups : list (string * list string)) : M unit :=
  match groups with
  | [] => ret tt
  | (group, fields) :: rest =>
      run_fields tm args group fields ;;
      run_groups tm args rest
  end.

Definition run (args : Args) : M unit :=
  ensure_dir (arg_output args) ;;
  setup_logging (path_join (arg_output args) "filter_check.log") ;;
  let email := or_default (arg_email args) DEFAULT_EMAIL in
  let password := or_default (arg_password args) DEFAULT_PASSWORD in
  if (email =? EmptyString)%string || (password =? EmptyString)%string then
    log_error "Provide credentials via env vars or --email/--password"
  else
    let token_manager := {| email := email; password := password |} in
    set_token PNone ;;   (* [TokenManager.__init__]: [self.token = None] *)
    tok <- get token_manager ;;
    if negb (truthy tok) then
      log_error "Login failed — aborting"
    else
      let groups := GROUPS in
      if given (arg_groups args) then
        let wanted := wanted_groups (or_default (arg_groups args) EmptyString) in
        let groups := restrict_groups wanted groups in
        match groups with
        | [] => log_error "No matching groups for %s"
        | _ => run_groups token_manager args groups
        end
      else run_groups token_manager args groups.

End Run.

(** The manager [run] builds from the command line. *)
Definition manager_of (args : Args) : TokenManager :=
  {| email := or_default (arg_email args) DEFAULT_EMAIL;
     password := or_default (arg_password args) DEFAULT_PASSWORD |}.

(** The world in which [run] asks for the token: after the two [makedirs]
    and with the token slot of the new manager empty. *)
Definition run_start (args : Args) (w : World) : World :=
  snd ((ensure_dir (arg_output args) ;;
        setup_logging (path_join (arg_output args) "filter_check.log") ;;
        set_token PNone) w).

(** The groups [run] iterates over. *)
Definition selected_groups (args : Args) : list (string * list string) :=
  if given (arg_groups args)
  then restrict_groups
         (wanted_groups (or_default (arg_groups args) EmptyString)) GROUPS
  else GROUPS.

(** Whether [run] processes the field [field]. *)
Definition field_selected (args : Args) (field : string) : Prop :=
  given (arg_field args) = false \/ arg_field args = Some field.

(* ================================================================== *)
(** * What a computation emits *)

(** [emits_only P c]: running [c] only adds to the trace, and every event it
    adds satisfies [P]. *)
Definition emits_only (P : Event -> Prop) {A} (c : M A) : Prop :=
  forall w, exists t,
    trace (snd (c w)) = (trace w ++ t)%list /\ Forall P t.

(** The one request [login] posts. *)
Definition login_post (tm : TokenManager) (timeout : Z) : Event :=
  EPost LOGIN_URL
    [("Accept", PStr "application/json");
     ("Content-Type", PStr "application/json")]
    [("email", PStr (email tm)); ("password", PStr (password tm))]
    true timeout.

(** A report request for [(group, field)] and a filter: the form-encoded
    payload of that field and filter, and the Authorization header of a
    non-empty token. *)
Definition is_report_post (group field : string)
  (filter_operator filter_value : pyval) (timeout : Z) (e : Event) : Prop :=
  exists tok,
    truthy tok = true
    /\ e = EPost REPORT_URL (report_headers tok)
             (report_payload group field filter_operator filter_value)
             false timeout.

Definition is_log (e : Event) : Prop := exists level fmt, e = ELog level fmt.

(** What [post_with_retry] may emit: the request, the warning, and a sleep
    of [2^k] seconds with [k + 2 <= retries]. *)
Definition retry_event (url : string) (headers data : list (string * pyval))
  (retries timeout : Z) (e : Event) : Prop :=
  e = EPost url headers data false timeout
  \/ e = ELog "WARNING" "Request failed (attempt %d/%d): %s"
  \/ exists k : nat,
       Z.of_nat k + 2 <= retries /\ e = ESleep (PInt (2 ^ Z.of_nat k)).

(** What [login] may emit: its request and an error record. *)
Definition login_event (tm : TokenManager) (timeout : Z) (e : Event) : Prop :=
  e = login_post tm timeout \/ exists fmt, e = ELog "ERROR" fmt.

(** What [fetch_field_data] may emit. *)
Definition fetch_event (tm : TokenManager) (group field : string)
  (filter_operator filter_value : pyval) (timeout : Z) (e : Event) : Prop :=
  e = login_post tm 10
  \/ is_report_post group field filter_operator filter_value timeout e
  \/ is_log e
  \/ e = ESleep (PInt 1).

(** [posts_at_most url n c]: running [c] only adds to the trace, and posts to
    [url] at most [n] times. *)
Definition posts_at_most (url : string) (n : nat) {A} (c : M A) : Prop :=
  forall w, exists t,
    trace (snd (c w)) = (trace w ++ t)%list
    /\ (List.length (posts_to url t) <= n)%nat.

(** An event that is no post to [url]. *)
Definition not_post_to (url : string) (e : Event) : Prop :=
  match e with
  | EPost u _ _ _ _ => u <> url
  | _ => True
  end.

(* ================================================================== *)
(** * The artifacts of [process_field] *)

(** The files written, in order, with their content. *)
Fixpoint written (t : list Event) : list (string * pyval) :=
  match t with
  | [] => []
  | EWrite p c :: t' => (p, c) :: written t'
  | _ :: t' => written t'
  end.

(** The value a filter is applied with: the comparison value for [greater]
    and [less] when there is one, the sample value otherwise. *)
Definition filter_value_of (filter_op : string)
  (sample_value comparison_value : pyval) : pyval :=
  if existsb (String.eqb filter_op) ["greater"; "less"]
     && match comparison_value with PNone => false | _ => true end
  then comparison_value else sample_value.

Definition filter_file_of (field_dir filter_op : string) : string :=
  path_join field_dir (filter_op ++ ".json").

Definition filter_sentinel (group field filter_op : string)
  (filter_value : pyval) : pyval :=
  PDict [("group", PStr group); ("field", PStr field);
         ("error", PStr "network_failed");
         ("filter", PStr filter_op);
         ("filter_value", filter_value)].

Definition filter_result_of (group field filter_op : string)
  (filter_value : pyval) (r : Response) : pyval :=
  PDict [("group", PStr group); ("field", PStr field);
         ("status_code", PInt (status_code r));
         ("filter", PStr filter_op);
         ("filter_value", filter_value);
         ("response", safe_json r)].

(** What the filter loop writes for [filter_op]: the failure record or the
    result record, with the filter's name and value, in the filter's file. *)
Definition filter_artifact (group field field_dir : string)
  (sample_value comparison_value : pyval) (filter_op : string)
  (pc : string * pyval) : Prop :=
  let filter_value := filter_value_of filter_op sample_value comparison_value in
  fst pc = filter_file_of field_dir filter_op
  /\ (snd pc = filter_sentinel group field filter_op filter_value
      \/ exists r, snd pc = filter_result_of group field filter_op filter_value r).

(** The world after [time.sleep(delay)]. *)
Definition slept (delay : pyval) (w : World) : World := snd (sleep delay w).

(** The body of a report request of [process_field]: the raw request, or a
    request with the entries of one of the filters and a value. *)
Definition raw_or_filtered (group field : string)
  (body : list (string * pyval)) : Prop :=
  body = report_payload group field PNone PNone
  \/ exists filter_op filter_value,
       In filter_op FILTERS /\ filter_value <> PNone
       /\ body = report_payload group field (PStr filter_op) filter_value.

(** What [process_field] may do after it has made the directory of the
    field: log in, post report requests for its field, write files of that
    directory, log and sleep. *)
Definition field_event (tm : TokenManager) (output_dir group field : string)
  (e : Event) : Prop :=
  match e with
  | EPost u _ b _ _ =>
      e = login_post tm 10
      \/ (u = REPORT_URL /\ raw_or_filtered group field b)
  | EWrite p _ =>
      exists name,
        p = path_join (path_join (path_join output_dir group) field) name
  | EMakedirs _ => False
  | _ => True
  end.

(** The directories made, in order. *)
Fixpoint made_dirs (t : list Event) : list string :=
  match t with
  | [] => []
  | EMakedirs p :: t' => p :: made_dirs t'
  | _ :: t' => made_dirs t'
  end.

(** A response whose body is no JSON. *)
Definition bad_gateway : Response :=
  {| status_code := 502; json_body := None; text := "Bad Gateway" |}.

(** What the network does to the request of one filter: a response
    arrives at the first attempt, or both attempts fail. *)
Inductive Answer : Type :=
| Answered (r : Response)
| Unreachable (m1 m2 : string).

Definition script_of (a : Answer) : list Outcome :=
  match a with
  | Answered r => [Arrives r]
  | Unreachable m1 m2 => [Fails m1; Fails m2]
  end.

Definition not_401 (a : Answer) : Prop :=
  match a with
  | Answered r => status_code r <> 401
  | Unreachable _ _ => True
  end.

(** The next posts of the world [w] have the outcomes of [script]. *)
Definition plays (w : World) (script : list Outcome) : Prop :=
  forall i o, nth_error script i = Some o -> net w (posts w + i) = o.

(** The record the filter loop writes for an answer. *)
Definition record_of (group field filter_op : string) (filter_value : pyval)
  (a : Answer) : pyval :=
  match a with
  | Answered r => filter_result_of group field filter_op filter_value r
  | Unreachable _ _ => filter_sentinel group field filter_op filter_value
  end.






Definition mixed_world : World :=
  world_of [Arrives server_error; Fails "timed out"; Fails "connection reset"]
    (PStr "old").

(* ================================================================== *)
(** * What [run] selects *)

(** Whether the loop of [run] processes [field]: no [--field], or this one. *)
Definition field_wanted (args : Args) (field : string) : bool :=
  negb (given (arg_field args)
        && negb (or_default (arg_field args) EmptyString =? field)%string).

(** A group and a field of the catalog that the command line selects: the
    group is named by [--groups] when that is given, and the field is the one
    of [--field] when that is given. *)
Definition selected (args : Args) (group field : string) : Prop :=
  exists fields,
    In (group, fields) GROUPS /\ In field fields
    /\ (given (arg_groups args) = true ->
        In group (wanted_groups (or_default (arg_groups args) EmptyString)))
    /\ field_selected args field.

(** What [run] may do: make directories, log, sleep, post the login request
    of its credentials, post report requests for a selected field and write
    files in the directory of a selected field. *)
Definition run_event (args : Args) (e : Event) : Prop :=
  match e with
  | EPost u _ b _ _ =>
      e = login_post (manager_of args) 10
      \/ (u = REPORT_URL
          /\ exists group field,
               selected args group field /\ raw_or_filtered group field b)
  | EWrite p _ =>
      exists group field name,
        selected args group field
        /\ p = path_join
                 (path_join (path_join (arg_output args) group) field) name
  | _ => True
  end.

(** The directories of the fields [run] processes, in the order of the
    catalog. *)
Definition visited (args : Args) (groups : list (string * list string))
  : list string :=
  flat_map
    (fun gf =>
       map (fun field => path_join (path_join (arg_output args) (fst gf)) field)
         (filter (field_wanted args) (snd gf)))
    groups.

(** A command line that selects the group [payor], and a session in which the
    login succeeds and every later request times out. *)
Definition payor_args : Args :=
  {| arg_email := None; arg_password := None; arg_groups := Some "payor";
     arg_field := None; arg_delay := two_seconds;
     arg_output := "results" |}.

Definition offline_world : World :=
  world_of [Arrives (response_of 200 (token_body (PStr "abc")))] PNone.

(* ================================================================== *)
(* ================================================================== *)
(** * Facts on floats and on dicts keyed by floats *)

Lemma SFeqb_feq (x y : spec_float) : SFeqb x y = true <-> feq x y.
Proof.
  unfold SFeqb, SFcompare.
  destruct x as [[]|[]| |[] mx ex], y as [[]|[]| |[] my ey]; simpl;
    try tauto;
    try (split; [discriminate | intuition discriminate]).
  all: change (Pos.compare_cont Eq mx my) with (Pos.compare mx my);
    destruct (Z.compare_spec ex ey) as [He|He|He];
    destruct (Pos.compare_spec mx my) as [Hm|Hm|Hm]; simpl;
    split; try discriminate; try (intros; subst; tauto);
    intros (_ & Hm' & He'); subst; lia.
Qed.

Lemma feq_sym (x y : spec_float) : feq x y -> feq y x.
Proof. destruct x, y; simpl; intuition congruence. Qed.

Lemma feq_trans (x y z : spec_float) : feq x y -> feq y z -> feq x z.
Proof. destruct x, y, z; simpl; intuition congruence. Qed.

Lemma SFeqb_sym (x y : spec_float) : SFeqb x y = SFeqb y x.
Proof.
  destruct (SFeqb x y) eqn:Hxy, (SFeqb y x) eqn:Hyx; try reflexivity.
  - apply SFeqb_feq, feq_sym, SFeqb_feq in Hxy. congruence.
  - apply SFeqb_feq, feq_sym, SFeqb_feq in Hyx. congruence.
Qed.

Lemma SFeqb_trans (x y z : spec_float) :
  SFeqb x y = true -> SFeqb y z = true -> SFeqb x z = true.
Proof.
  rewrite !SFeqb_feq. apply feq_trans.
Qed.

Lemma same_key_refl (a : fobj) : same_key a a = true.
Proof. unfold same_key. now rewrite Nat.eqb_refl. Qed.

Lemma same_key_sym (a b : fobj) : same_key a b = same_key b a.
Proof. unfold same_key. now rewrite Nat.eqb_sym, SFeqb_sym. Qed.

Lemma key_of_inj (values : list pyval) (a b : fobj) :
  key_of values a -> key_of values b -> fst a = fst b -> a = b.
Proof.
  intros (va & Ha & Fa) (vb & Hb & Fb) E.
  rewrite E in Ha. rewrite Ha in Hb. injection Hb as <-.
  destruct a, b; simpl in *. congruence.
Qed.

Lemma same_key_trans (values : list pyval) (a b c : fobj) :
  key_of values a -> key_of values b -> key_of values c ->
  same_key a b = true -> same_key b c = true -> same_key a c = true.
Proof.
  intros Ka Kb Kc Hab Hbc.
  unfold same_key in Hab.
  apply orb_true_iff in Hab as [Hab|Hab].
  - apply Nat.eqb_eq in Hab.
    now rewrite (key_of_inj values a b Ka Kb Hab).
  - unfold same_key in Hbc. apply orb_true_iff in Hbc as [Hbc|Hbc].
    + apply Nat.eqb_eq in Hbc.
      rewrite <- (key_of_inj values b c Kb Kc Hbc).
      unfold same_key. rewrite Hab. apply orb_true_r.
    + unfold same_key. rewrite (SFeqb_trans _ _ _ Hab Hbc). apply orb_true_r.
Qed.

Lemma same_key_congr (values : list pyval) (a b c : fobj) :
  key_of values a -> key_of values b -> key_of values c ->
  same_key a b = true -> same_key a c = same_key b c.
Proof.
  intros Ka Kb Kc Hab.
  destruct (same_key a c) eqn:Hac, (same_key b c) eqn:Hbc; try reflexivity.
  - rewrite same_key_sym in Hab.
    now rewrite (same_key_trans values b a c Kb Ka Kc Hab Hac) in Hbc.
  - now rewrite (same_key_trans values a b c Ka Kb Kc Hab Hbc) in Hac.
Qed.

(** Assigning to a key and reading any key back. *)
Lemma fdict_get_set (values : list pyval) (d : list (fobj * pyval))
  (k o : fobj) (v : pyval) :
  Forall (fun kv => key_of values (fst kv)) d ->
  key_of values k -> key_of values o ->
  fdict_get o (fdict_set k v d)
  = if same_key k o then Some v else fdict_get o d.
Proof.
  intros Hd Kk Ko.
  induction d as [|[k' v'] d IH]; simpl.
  - reflexivity.
  - inversion Hd as [|? ? Kk' Hd']; subst; simpl in Kk'.
    destruct (same_key k' k) eqn:Hk'k; simpl.
    + rewrite (same_key_congr values k' k o Kk' Kk Ko Hk'k).
      now destruct (same_key k o).
    + rewrite (IH Hd').
      destruct (same_key k' o) eqn:Hk'o; [|reflexivity].
      destruct (same_key k o) eqn:Hko; [|reflexivity].
      rewrite same_key_sym in Hko.
      now rewrite (same_key_trans values k' o k Kk' Ko Kk Hk'o Hko) in Hk'k.
Qed.

Lemma fdict_set_keys (values : list pyval) (d : list (fobj * pyval))
  (k : fobj) (v : pyval) :
  Forall (fun kv => key_of values (fst kv)) d -> key_of values k ->
  Forall (fun kv => key_of values (fst kv)) (fdict_set k v d).
Proof.
  intros Hd Kk. induction d as [|[k' v'] d IH]; simpl.
  - now constructor.
  - inversion Hd; subst.
    destruct (same_key k' k); constructor; auto.
Qed.

(* ================================================================== *)
(** * Facts on the scan of [values] *)

Lemma is_numeric_float (v : pyval) :
  is_numeric v = true <-> exists x, float_of_str v = Some x.
Proof.
  assert (H : forall o : option spec_float,
             match o with Some _ => true | None => false end = true
             <-> exists x, o = Some x).
  { intros [x|]; split; eauto; try discriminate.
    intros (x & Hx). discriminate. }
  destruct v; try apply H.
  split; [discriminate | intros (x & Hx); vm_compute in Hx; discriminate].
Qed.

Lemma numeric_scan_fst (values : list pyval) :
  forall i nv d, fst (numeric_scan i values nv d) = (nv ++ keys_from i values)%list.
Proof.
  induction values as [|val rest IH]; intros i nv d; simpl.
  - now rewrite app_nil_r.
  - destruct (is_numeric val) eqn:Hn.
    + apply is_numeric_float in Hn as (x & Hx). rewrite Hx.
      rewrite IH, <- app_assoc. reflexivity.
    + destruct (float_of_str val) eqn:Hx.
      * assert (is_numeric val = true) by (apply is_numeric_float; eauto).
        congruence.
      * apply IH.
Qed.

Lemma numeric_scan_snd (all values : list pyval) (o : fobj) :
  key_of all o ->
  forall i nv d,
    (forall j val, nth_error values j = Some val ->
                   nth_error all (i + j) = Some val) ->
    Forall (fun kv => key_of all (fst kv)) d ->
    fdict_get o (snd (numeric_scan i values nv d))
    = match last_match i values o with
      | Some v => Some v
      | None => fdict_get o d
      end.
Proof.
  intros Ko. induction values as [|val rest IH]; intros i nv d Hall Hd; simpl.
  - reflexivity.
  - assert (Hrest : forall j v, nth_error rest j = Some v ->
                                nth_error all (S i + j) = Some v).
    { intros j v Hj. specialize (Hall (S j) v Hj).
      now replace (S i + j)%nat with (i + S j)%nat by lia. }
    destruct (float_of_str val) eqn:Hx.
    + assert (Hn : is_numeric val = true) by (apply is_numeric_float; eauto).
      rewrite Hn.
      assert (Kk : key_of all (i, s)).
      { exists val. split; [|exact Hx]. simpl.
        specialize (Hall 0%nat val eq_refl).
        now rewrite Nat.add_0_r in Hall. }
      rewrite (IH (S i) _ _ Hrest (fdict_set_keys all d (i, s) val Hd Kk)).
      rewrite (fdict_get_set all d (i, s) o val Hd Kk Ko).
      destruct (last_match (S i) rest o); [reflexivity|].
      now destruct (same_key (i, s) o).
    + assert (Hn : is_numeric val = false).
      { destruct (is_numeric val) eqn:E; [|reflexivity].
        apply is_numeric_float in E as (x & E). congruence. }
      rewrite Hn, (IH (S i) _ _ Hrest Hd).
      now destruct (last_match (S i) rest o).
Qed.

Lemma keys_from_key_of (values : list pyval) :
  forall i o, In o (keys_from i values) ->
    exists j val, fst o = (i + j)%nat /\ nth_error values j = Some val
                  /\ float_of_str val = Some (snd o).
Proof.
  induction values as [|val rest IH]; intros i o Hin; simpl in Hin.
  - contradiction.
  - assert (Hrest : In o (keys_from (S i) rest) ->
            exists j v, fst o = (i + j)%nat /\ nth_error (val :: rest) j = Some v
                        /\ float_of_str v = Some (snd o)).
    { intros H. destruct (IH _ _ H) as (j & v & Hf & Hj & Hv).
      exists (S j), v. repeat split; auto. lia. }
    destruct (float_of_str val) eqn:Hx; [|auto].
    destruct Hin as [<-|Hin]; [|auto].
    exists 0%nat, val. simpl. repeat split; auto.
Qed.

Lemma keys_from_length (values : list pyval) :
  forall i, (List.length (keys_from i values) <= List.length values)%nat.
Proof.
  induction values as [|val rest IH]; intros i; simpl; [lia|].
  specialize (IH (S i)). destruct (float_of_str val); simpl; lia.
Qed.

Lemma last_match_none (values : list pyval) (o : fobj) :
  forall i, last_match i values o = None ->
    forall j v x, nth_error values j = Some v -> float_of_str v = Some x ->
                  same_key ((i + j)%nat, x) o = false.
Proof.
  induction values as [|val rest IH]; intros i H j v x Hj Hx.
  - destruct j; discriminate.
  - simpl in H. destruct (last_match (S i) rest o) eqn:Hl; [discriminate|].
    destruct j as [|j]; simpl in Hj.
    + injection Hj as ->. rewrite Hx in H. rewrite Nat.add_0_r.
      now destruct (same_key (i, x) o).
    + replace (i + S j)%nat with (S i + j)%nat by lia. eauto.
Qed.

Lemma last_match_some (values : list pyval) (o : fobj) :
  forall i v, last_match i values o = Some v ->
    exists j x, nth_error values j = Some v /\ float_of_str v = Some x
      /\ same_key ((i + j)%nat, x) o = true
      /\ forall j' v' x', (j < j')%nat -> nth_error values j' = Some v' ->
           float_of_str v' = Some x' -> same_key ((i + j')%nat, x') o = false.
Proof.
  induction values as [|val rest IH]; intros i v H; simpl in H; [discriminate|].
  destruct (last_match (S i) rest o) as [v0|] eqn:Hl.
  - injection H as <-. destruct (IH _ _ Hl) as (j & x & Hj & Hx & Hk & Hlast).
    exists (S j), x. repeat split; auto.
    + now replace (i + S j)%nat with (S i + j)%nat by lia.
    + intros [|j'] v' x' Hlt Hj' Hx'; [lia|].
      replace (i + S j')%nat with (S i + j')%nat by lia.
      apply (Hlast j' v' x'); auto. lia.
  - destruct (float_of_str val) as [x|] eqn:Hx; [|discriminate].
    destruct (same_key (i, x) o) eqn:Hk; [|discriminate].
    injection H as <-. exists 0%nat, x. rewrite Nat.add_0_r.
    repeat split; auto.
    intros [|j'] v' x' Hlt Hj' Hx'; [lia|]. simpl in Hj'.
    replace (i + S j')%nat with (S i + j')%nat by lia.
    apply (last_match_none rest o (S i) Hl j' v' x' Hj' Hx').
Qed.

(** Reading the dict at a float object of [numeric_values]: the last value
    that matches it. *)
Lemma original_to_numeric_last (values : list pyval) (o : fobj) :
  In o (numeric_values values) ->
  exists j v, fdict_get o (original_to_numeric values) = Some v
    /\ nth_error values j = Some v /\ matches values j o
    /\ forall j', (j < j')%nat -> ~ matches values j' o.
Proof.
  unfold numeric_values, original_to_numeric. intros Hin.
  rewrite numeric_scan_fst in Hin. simpl in Hin.
  destruct (keys_from_key_of values 0%nat o Hin) as (jo & vo & Hfo & Hjo & Hxo).
  simpl in Hfo.
  assert (Ko : key_of values o) by (exists vo; rewrite Hfo; auto).
  rewrite (numeric_scan_snd values values o Ko 0%nat [] []);
    [|intros j val H; exact H|constructor].
  destruct (last_match 0 values o) as [v|] eqn:Hl.
  - destruct (last_match_some values o _ _ Hl) as (j & x & Hj & Hx & Hk & Hlast).
    exists j, v. simpl in Hk. repeat split; auto.
    + exists v, x. auto.
    + intros j' Hlt (v' & x' & Hj' & Hx' & Hk').
      specialize (Hlast j' v' x' Hlt Hj' Hx'). simpl in Hlast. congruence.
  - pose proof (last_match_none values o _ Hl jo vo (snd o) Hjo Hxo) as Hno.
    simpl in Hno. rewrite <- Hfo in Hno.
    destruct o as [t x]; simpl in Hno. rewrite same_key_refl in Hno.
    discriminate.
Qed.

Lemma numeric_values_length (values : list pyval) :
  (List.length (numeric_values values) <= List.length values)%nat.
Proof.
  unfold numeric_values. rewrite numeric_scan_fst. apply keys_from_length.
Qed.

(* ================================================================== *)
(** * Facts on the slice *)

Lemma nth_error_slice {A} (a b k : nat) (l : list A) (x : A) :
  nth_error (slice a b l) k = Some x ->
  nth_error l (a + k) = Some x /\ (a + k < b)%nat.
Proof.
  unfold slice. rewrite nth_error_firstn.
  destruct (Nat.ltb_spec k (b - a)) as [Hk|Hk]; [|discriminate].
  rewrite nth_error_skipn. intros H. split; [exact H | lia].
Qed.

Lemma slice_length {A} (a b : nat) (l : list A) :
  (b <= List.length l)%nat -> List.length (slice a b l) = (b - a)%nat.
Proof.
  intros H. unfold slice. rewrite length_firstn, length_skipn. lia.
Qed.

Lemma quartiles (n : nat) :
  (2 <= n)%nat -> (n / 4 < 3 * n / 4 /\ 3 * n / 4 <= n)%nat.
Proof.
  intros H.
  pose proof (Nat.div_mod_eq n 4) as E1.
  pose proof (Nat.mod_upper_bound n 4 ltac:(discriminate)) as B1.
  pose proof (Nat.div_mod_eq (3 * n) 4) as E2.
  pose proof (Nat.mod_upper_bound (3 * n) 4 ltac:(discriminate)) as B2.
  lia.
Qed.

Lemma distinct_floats_length (l : list spec_float) :
  (List.length (distinct_floats l) <= List.length l)%nat.
Proof.
  induction l as [|x l IH]; simpl; [lia|].
  destruct (existsb (SFeqb x) l); simpl; lia.
Qed.

Lemma distinct_numeric_le (values : list pyval) :
  (distinct_numeric values <= List.length (numeric_values values))%nat.
Proof.
  unfold distinct_numeric.
  pose proof (distinct_floats_length (map snd (numeric_values values))) as H.
  now rewrite length_map in H.
Qed.

(* ================================================================== *)
(** * The stable sort is a sort *)

Lemma sort_insert_perm (x : fobj) (l : list fobj) :
  Permutation (sort_insert x l) (x :: l).
Proof.
  induction l as [|y l IH]; simpl.
  - apply Permutation_refl.
  - destruct (SFltb (snd x) (snd y)).
    + apply Permutation_refl.
    + eapply perm_trans; [apply perm_skip, IH | apply perm_swap].
Qed.

Lemma stable_sort_perm (l : list fobj) : Permutation (stable_sort l) l.
Proof.
  unfold stable_sort.
  assert (H : forall acc,
             Permutation (fold_left (fun a x => sort_insert x a) l acc)
                         (acc ++ l)%list).
  { induction l as [|x l IH]; intros acc; simpl.
    - rewrite app_nil_r. apply Permutation_refl.
    - eapply perm_trans; [apply IH|].
      eapply perm_trans;
        [apply Permutation_app_tail, sort_insert_perm|].
      simpl. apply Permutation_middle. }
  apply (H []).
Qed.

Lemma SFltb_asym (x y : spec_float) : SFltb x y = true -> SFltb y x = false.
Proof.
  unfold SFltb, SFcompare.
  destruct x as [[]|[]| |[] mx ex], y as [[]|[]| |[] my ey]; simpl;
    try discriminate; try reflexivity.
  all: rewrite (Z.compare_antisym ex ey);
    destruct (ex ?= ey); simpl; try discriminate; try reflexivity;
    change (Pos.compare_cont Eq my mx) with (Pos.compare my mx);
    change (Pos.compare_cont Eq mx my) with (Pos.compare mx my);
    rewrite (Pos.compare_antisym mx my);
    destruct (mx ?= my)%positive; simpl; try discriminate; reflexivity.
Qed.

Lemma sort_insert_sorted (x : fobj) (l : list fobj) :
  Sorted in_order l -> Sorted in_order (sort_insert x l).
Proof.
  induction l as [|y l IH]; intros Hs; simpl.
  - repeat constructor.
  - destruct (SFltb (snd x) (snd y)) eqn:Hxy.
    + constructor; [exact Hs|]. constructor. apply SFltb_asym, Hxy.
    + inversion Hs as [|? ? Hl Hhd]; subst. constructor; [auto|].
      destruct l as [|z l]; simpl.
      * constructor. exact Hxy.
      * destruct (SFltb (snd x) (snd z)); constructor; [exact Hxy|].
        now inversion Hhd.
Qed.

Lemma stable_sort_sorted (l : list fobj) : Sorted in_order (stable_sort l).
Proof.
  unfold stable_sort.
  assert (H : forall acc, Sorted in_order acc ->
             Sorted in_order (fold_left (fun a x => sort_insert x a) l acc)).
  { induction l as [|x l IH]; intros acc Hacc; simpl; [exact Hacc|].
    apply IH, sort_insert_sorted, Hacc. }
  apply H. constructor.
Qed.

Lemma SFltb_trans_le (x y z : spec_float) :
  y <> S754_nan ->
  SFltb y x = false -> SFltb z y = false -> SFltb z x = false.
Proof.
  unfold SFltb, SFcompare.
  destruct x as [[]|[]| |[] mx ex], y as [[]|[]| |[] my ey],
    z as [[]|[]| |[] mz ez]; simpl;
    try discriminate; try reflexivity; try (intros H; now contradiction H);
    intros _.
  all: change (Pos.compare_cont Eq) with Pos.compare.
  all: destruct (Z.compare_spec ey ex), (Z.compare_spec ez ey),
         (Z.compare_spec ez ex);
    destruct (Pos.compare_spec my mx), (Pos.compare_spec mz my),
      (Pos.compare_spec mz mx);
    simpl; try discriminate; try reflexivity; try lia.
Qed.

Lemma in_order_trans (a b c : fobj) :
  no_nan b -> in_order a b -> in_order b c -> in_order a c.
Proof. unfold in_order, no_nan. apply SFltb_trans_le. Qed.

Lemma sorted_strongly_sorted (l : list fobj) :
  Forall no_nan l -> Sorted in_order l -> StronglySorted in_order l.
Proof.
  induction l as [|a l IH]; intros Hn Hs; [constructor|].
  inversion Hn as [|? ? _ Hnl]; subst.
  inversion Hs as [|? ? Hsl Hhd]; subst.
  specialize (IH Hnl Hsl). constructor; [exact IH|].
  destruct l as [|b l]; [constructor|].
  inversion Hhd as [|? ? Hab]; subst.
  inversion IH as [|? ? _ Hb]; subst.
  inversion Hnl as [|? ? Hnb _]; subst.
  constructor; [exact Hab|].
  revert Hb. apply Forall_impl. intros x. now apply in_order_trans.
Qed.

Lemma filter_length_perm {A} (f : A -> bool) (l l' : list A) :
  Permutation l l' ->
  List.length (filter f l) = List.length (filter f l').
Proof.
  induction 1 as [|x l l' _ IH|x y l|l l' l'' _ IH1 _ IH2]; simpl.
  - reflexivity.
  - destruct (f x); simpl; now rewrite IH.
  - destruct (f x), (f y); reflexivity.
  - now rewrite IH1.
Qed.

Lemma SFltb_irrefl (x : spec_float) : SFltb x x = false.
Proof.
  destruct (SFltb x x) eqn:E; [|reflexivity].
  unfold SFltb, SFcompare in E.
  destruct x as [[]|[]| |[] m e]; simpl in E; try discriminate;
    rewrite Z.compare_refl in E;
    change (Pos.compare_cont Eq m m) with (Pos.compare m m) in E;
    rewrite Pos.compare_refl in E; discriminate.
Qed.

Lemma strongly_sorted_split (s1 s2 : list fobj) (o : fobj) :
  StronglySorted in_order (s1 ++ o :: s2) ->
  Forall (fun a => in_order a o) s1 /\ Forall (in_order o) s2.
Proof.
  induction s1 as [|a s1 IH]; simpl; intros H;
    inversion H as [|? ? Hs Ha]; subst.
  - split; [constructor | exact Ha].
  - destruct (IH Hs) as (H1 & H2). split; [|exact H2].
    constructor; [|exact H1].
    apply Forall_app in Ha. destruct Ha as (_ & Ha).
    now inversion Ha.
Qed.

(** In an ascending list the element at index [i] has at most [i] elements
    below it and at least [i + 1] elements that are not above it. *)
Lemma rank_in_sorted (s : list fobj) (i : nat) (o : fobj) :
  StronglySorted in_order s -> nth_error s i = Some o ->
  (below o s <= i /\ i < not_above o s)%nat.
Proof.
  intros Hs Hi. apply nth_error_split in Hi.
  destruct Hi as (s1 & s2 & -> & <-).
  destruct (strongly_sorted_split s1 s2 o Hs) as (H1 & H2).
  unfold below, not_above, fobj in *. rewrite !filter_app, !length_app.
  cbn [filter]. rewrite SFltb_irrefl. cbn [negb List.length]. split.
  - assert (E : filter (fun a => SFltb (snd a) (snd o)) s2 = []).
    { clear - H2. induction H2 as [|x s2 Hx _ IH]; simpl; [reflexivity|].
      unfold in_order in Hx. now rewrite Hx. }
    rewrite E. cbn [List.length].
    pose proof (filter_length_le (fun a => SFltb (snd a) (snd o)) s1). lia.
  - assert (E : filter (fun a => negb (SFltb (snd o) (snd a))) s1 = s1).
    { clear - H1. induction H1 as [|x s1 Hx _ IH]; simpl; [reflexivity|].
      unfold in_order in Hx. rewrite Hx. simpl. now rewrite IH. }
    rewrite E. lia.
Qed.

(** Without a NaN the stable sort gives an ascending list. *)
Lemma stable_sort_ascending (l : list fobj) :
  Forall no_nan l -> StronglySorted in_order (stable_sort l).
Proof.
  intros H. apply sorted_strongly_sorted; [|apply stable_sort_sorted].
  revert H. apply Permutation_Forall, Permutation_sym, stable_sort_perm.
Qed.

(** The rank of the element at index [i] of an ascending permutation of
    [l], counted in [l]. *)
Lemma rank_in_permutation (s l : list fobj) (i : nat) (o : fobj) :
  Permutation s l -> StronglySorted in_order s -> nth_error s i = Some o ->
  (below o l <= i /\ i < not_above o l)%nat.
Proof.
  intros Hp Hs Hi. destruct (rank_in_sorted s i o Hs Hi) as (H1 & H2).
  unfold below, not_above in *.
  rewrite <- !(filter_length_perm _ s l Hp). auto.
Qed.

(* ================================================================== *)
(** * The comparison sample *)

Section MiddleSample.

Variable list_sort : list fobj -> list fobj.
Hypothesis list_sort_perm : forall l, Permutation (list_sort l) l.

(** With two numeric values or more the middle branch returns: the selected
    float object sits in the middle half of the sorted list, and the value
    returned is the last of [values] that matches it. *)
Lemma middle_sample_spec (values : list pyval) :
  (2 <= List.length (numeric_values values))%nat ->
  exists i o j v,
    (List.length (sorted_numeric list_sort values) / 4 <= i
     /\ i < 3 * List.length (sorted_numeric list_sort values) / 4)%nat
    /\ nth_error (sorted_numeric list_sort values) i = Some o
    /\ selected_numeric list_sort values = Some o
    /\ key_of values o
    /\ middle_sample list_sort values = Some (Ok v)
    /\ nth_error values j = Some v
    /\ matches values j o
    /\ forall j', (j < j')%nat -> ~ matches values j' o.
Proof.
  intros Hlen.
  set (sorted := sorted_numeric list_sort values).
  assert (Hn : List.length sorted = List.length (numeric_values values)).
  { apply Permutation_length, list_sort_perm. }
  destruct (quartiles (List.length sorted) ltac:(lia)) as (Hq1 & Hq2).
  assert (Hsl : List.length (middle_range sorted)
                = (3 * List.length sorted / 4 - List.length sorted / 4)%nat)
    by (apply slice_length, Hq2).
  destruct (nth_error (middle_range sorted)
              (List.length (middle_range sorted) / 2)) as [o|] eqn:Hsel.
  2:{ apply nth_error_None in Hsel.
      pose proof (Nat.div_mod_eq (List.length (middle_range sorted)) 2).
      pose proof (Nat.mod_upper_bound (List.length (middle_range sorted)) 2
                    ltac:(discriminate)).
      lia. }
  assert (Hsn : selected_numeric list_sort values = Some o).
  { unfold selected_numeric. fold sorted.
    destruct (middle_range sorted) eqn:E; [|exact Hsel].
    cbn [List.length] in Hsl. lia. }
  destruct (nth_error_slice _ _ _ _ _ Hsel) as (Hnth & Hlt).
  assert (Hin : In o (numeric_values values)).
  { apply (Permutation_in o (list_sort_perm _)).
    apply (nth_error_In _ _ Hnth). }
  destruct (original_to_numeric_last values o Hin)
    as (j & v & Hget & Hj & Hm & Hlast).
  exists (List.length sorted / 4 + List.length (middle_range sorted) / 2)%nat,
    o, j, v.
  repeat split; auto; try lia.
  - unfold numeric_values in Hin. rewrite numeric_scan_fst in Hin.
    destruct (keys_from_key_of values 0%nat o Hin) as (jo & vo & Hf & Hv & Hx).
    exists vo. simpl in Hf. rewrite Hf. auto.
  - unfold middle_sample. rewrite Hsn, Hget.
    destruct (Nat.ltb_spec 1 (List.length (numeric_values values)));
      [reflexivity | lia].
Qed.

(** Reading the rows of a response [{..., "response": {"data": rows}}]. *)
Lemma extract_sample_value_rows (d r : list (string * pyval))
  (rows : list pyval) (group field : string) (for_comparison : bool) :
  dict_get "response" d = Some (PDict r) ->
  dict_get "data" r = Some (PList rows) ->
  extract_sample_value_try list_sort (PDict d) group field for_comparison
  = extract_from_rows list_sort group field for_comparison rows.
Proof.
  intros Hr Hd.
  unfold extract_sample_value_try, py_in, py_getitem, dict_has.
  rewrite Hr. simpl. rewrite Hd. simpl.
  destruct rows; reflexivity.
Qed.

Lemma extract_from_rows_middle (group field : string) (rows : list pyval)
  (v : pyval) :
  middle_sample list_sort (collect_values group field rows) = Some (Ok v) ->
  (2 <= List.length (numeric_values (collect_values group field rows)))%nat ->
  extract_from_rows list_sort group field true rows = Ok v.
Proof.
  intros Hm Hlen. unfold extract_from_rows.
  pose proof (numeric_values_length (collect_values group field rows)) as Hle.
  destruct (collect_values group field rows) as [|first rest] eqn:E.
  - cbn in Hlen. lia.
  - cbn [andb].
    destruct (Nat.ltb_spec 1 (List.length (first :: rest))); [|lia].
    rewrite Hm. reflexivity.
Qed.

End MiddleSample.

(* ================================================================== *)
(** * The sample-value claims *)

(** C1 (as amended).  On the rows [{"amount": "12.50"}, {"amount": "45"},
    {"amount": "30"}, {"amount": "9"}] and field [amount], the extraction
    with [for_comparison=True] sorts the parsed numbers to [9, 12.5, 30, 45],
    takes the slice at indices [1,3), which is [12.5, 30], selects the element
    at the middle index [2 // 2 = 1] of that slice, the number 30, and returns
    the original unconverted value ["30"]. *)
Theorem example_comparison_sample :
  example_values = [PStr "12.50"; PStr "45"; PStr "30"; PStr "9"]
  /\ map (fun o => Some (snd o)) (sorted_numeric stable_sort example_values)
     = map py_float ["9"; "12.5"; "30"; "45"]
  /\ (List.length (sorted_numeric stable_sort example_values) / 4 = 1
      /\ 3 * List.length (sorted_numeric stable_sort example_values) / 4 = 3)%nat
  /\ map (fun o => Some (snd o))
       (middle_range (sorted_numeric stable_sort example_values))
     = map py_float ["12.5"; "30"]
  /\ (List.length (middle_range (sorted_numeric stable_sort example_values)) / 2
      = 1)%nat
  /\ option_map snd (selected_numeric stable_sort example_values)
     = py_float "30"
  /\ (forall w,
        extract_sample_value stable_sort example_raw "payment" "amount" true w
        = (Ok (PStr "30"), w)).
Proof. vm_compute. repeat split; reflexivity. Qed.

(** C1 as stated fails: the middle index of the slice [12.5, 30] is 1, not 0,
    and the value returned is not ["12.50"]. *)
Lemma example_comparison_sample_not_first :
  (List.length (middle_range (sorted_numeric stable_sort example_values)) / 2
   <> 0)%nat
  /\ fst (extract_sample_value stable_sort example_raw "payment" "amount" true
            (world_of [] PNone))
     <> Ok (PStr "12.50").
Proof. vm_compute. split; discriminate. Qed.

(** C4.  When the rows of a raw response yield at least four distinct
    numeric values for the field, the comparison sample is one of the
    collected original values, and its numeric parse is the number at an
    index [i] of the sorted numeric values with [len // 4 <= i < 3 * len // 4].
    The sorted list is the numeric values rearranged and, when none of them
    is a NaN, in ascending order: then at most [i] of the numeric values are
    smaller than the sample and more than [i] of them are not greater.  The
    sort is any function that, like [list.sort()], rearranges its input and
    puts a list without NaN in ascending order. *)
Theorem comparison_sample_in_middle_half
  (list_sort : list fobj -> list fobj) (d r : list (string * pyval))
  (rows : list pyval) (group field : string) (w : World) :
  (forall l, Permutation (list_sort l) l) ->
  (forall l, Forall no_nan l -> StronglySorted in_order (list_sort l)) ->
  dict_get "response" d = Some (PDict r) ->
  dict_get "data" r = Some (PList rows) ->
  (4 <= distinct_numeric (collect_values group field rows))%nat ->
  exists v i o x,
    extract_sample_value list_sort (PDict d) group field true w = (Ok v, w)
    /\ In v (collect_values group field rows)
    /\ float_of_str v = Some x
    /\ (x = snd o \/ SFeqb x (snd o) = true)
    /\ nth_error (sorted_numeric list_sort (collect_values group field rows)) i
       = Some o
    /\ (List.length (sorted_numeric list_sort (collect_values group field rows)) / 4
        <= i
        /\ i < 3 * List.length
                 (sorted_numeric list_sort (collect_values group field rows)) / 4)%nat
    /\ Permutation (sorted_numeric list_sort (collect_values group field rows))
         (numeric_values (collect_values group field rows))
    /\ (Forall no_nan (numeric_values (collect_values group field rows)) ->
        StronglySorted in_order
          (sorted_numeric list_sort (collect_values group field rows))
        /\ (below o (numeric_values (collect_values group field rows)) <= i
            /\ i < not_above o
                     (numeric_values (collect_values group field rows)))%nat).
Proof.
  intros Hperm Hsort Hr Hd H4.
  pose proof (distinct_numeric_le (collect_values group field rows)) as Hle.
  destruct (middle_sample_spec list_sort Hperm
              (collect_values group field rows) ltac:(lia))
    as (i & o & j & v & Hi & Hnth & _ & Ko & Hm & Hj & Hmatch & _).
  unfold extract_sample_value.
  rewrite (extract_sample_value_rows list_sort d r rows group field true Hr Hd).
  rewrite (extract_from_rows_middle list_sort group field rows v Hm ltac:(lia)).
  destruct Hmatch as (v' & x & Hj' & Hx & Hk).
  rewrite Hj in Hj'. injection Hj' as <-.
  exists v, i, o, x.
  split; [reflexivity|]. split; [apply (nth_error_In _ _ Hj)|].
  split; [exact Hx|]. split.
  { unfold same_key in Hk. simpl in Hk.
    apply orb_true_iff in Hk as [Hk|Hk]; [left | now right].
    apply Nat.eqb_eq in Hk. destruct Ko as (vo & Hvo & Hxo).
    rewrite <- Hk, Hj in Hvo. injection Hvo as <-. congruence. }
  split; [exact Hnth|]. split; [exact Hi|].
  split; [apply Hperm|].
  intros Hnn. pose proof (Hsort _ Hnn) as Hs.
  split; [exact Hs|].
  exact (rank_in_permutation _ _ i o (Hperm _) Hs Hnth).
Qed.

Lemma comparison_sample_in_middle_half_witness :
  (4 <= distinct_numeric (collect_values "payment" "amount" example_rows))%nat
  /\ exists v i o x,
    extract_sample_value stable_sort example_raw "payment" "amount" true
      (world_of [] PNone) = (Ok v, world_of [] PNone)
    /\ In v (collect_values "payment" "amount" example_rows)
    /\ float_of_str v = Some x
    /\ (x = snd o \/ SFeqb x (snd o) = true)
    /\ nth_error (sorted_numeric stable_sort
                    (collect_values "payment" "amount" example_rows)) i = Some o
    /\ (List.length (sorted_numeric stable_sort
                       (collect_values "payment" "amount" example_rows)) / 4 <= i
        /\ i < 3 * List.length
                 (sorted_numeric stable_sort
                    (collect_values "payment" "amount" example_rows)) / 4)%nat
    /\ Permutation
         (sorted_numeric stable_sort
            (collect_values "payment" "amount" example_rows))
         (numeric_values (collect_values "payment" "amount" example_rows))
    /\ (Forall no_nan
          (numeric_values (collect_values "payment" "amount" example_rows)) ->
        StronglySorted in_order
          (sorted_numeric stable_sort
             (collect_values "payment" "amount" example_rows))
        /\ (below o
              (numeric_values (collect_values "payment" "amount" example_rows))
            <= i
            /\ i < not_above o
                     (numeric_values
                        (collect_values "payment" "amount" example_rows)))%nat).
Proof.
  split.
  - vm_compute. lia.
  - apply (comparison_sample_in_middle_half stable_sort
             [("group", PStr "payment"); ("field", PStr "amount");
              ("status_code", PInt 200); ("filter", PNone);
              ("response", PDict [("data", PList example_rows)])]
             [("data", PList example_rows)] example_rows "payment" "amount"
             (world_of [] PNone) stable_sort_perm stable_sort_ascending
             eq_refl eq_refl).
    vm_compute. lia.
Defined.

(** C5 (as amended).  In the extraction with [for_comparison=True], with two
    numeric values or more, the value returned is the last of the collected
    values, in the order they were collected, whose numeric parse is the
    selected number: no later value parses to it. *)
Theorem comparison_sample_last_occurrence
  (list_sort : list fobj -> list fobj) (d r : list (string * pyval))
  (rows : list pyval) (group field : string) (w : World) :
  (forall l, Permutation (list_sort l) l) ->
  dict_get "response" d = Some (PDict r) ->
  dict_get "data" r = Some (PList rows) ->
  (2 <= List.length (numeric_values (collect_values group field rows)))%nat ->
  exists v o j,
    extract_sample_value list_sort (PDict d) group field true w = (Ok v, w)
    /\ selected_numeric list_sort (collect_values group field rows) = Some o
    /\ nth_error (collect_values group field rows) j = Some v
    /\ matches (collect_values group field rows) j o
    /\ forall j', (j < j')%nat ->
         ~ matches (collect_values group field rows) j' o.
Proof.
  intros Hperm Hr Hd H2.
  destruct (middle_sample_spec list_sort Hperm
              (collect_values group field rows) H2)
    as (i & o & j & v & _ & _ & Hsel & _ & Hm & Hj & Hmatch & Hlast).
  unfold extract_sample_value.
  rewrite (extract_sample_value_rows list_sort d r rows group field true Hr Hd).
  rewrite (extract_from_rows_middle list_sort group field rows v Hm H2).
  exists v, o, j. auto.
Qed.

Lemma comparison_sample_last_occurrence_witness :
  (2 <= List.length (numeric_values (collect_values "payment" "amount" tie_rows)))%nat
  /\ exists v o j,
    extract_sample_value stable_sort tie_raw "payment" "amount" true
      (world_of [] PNone) = (Ok v, world_of [] PNone)
    /\ selected_numeric stable_sort (collect_values "payment" "amount" tie_rows)
       = Some o
    /\ nth_error (collect_values "payment" "amount" tie_rows) j = Some v
    /\ matches (collect_values "payment" "amount" tie_rows) j o
    /\ forall j', (j < j')%nat ->
         ~ matches (collect_values "payment" "amount" tie_rows) j' o.
Proof.
  split.
  - vm_compute. lia.
  - apply (comparison_sample_last_occurrence stable_sort
             [("group", PStr "payment"); ("field", PStr "amount");
              ("status_code", PInt 200); ("filter", PNone);
              ("response", PDict [("data", PList tie_rows)])]
             [("data", PList tie_rows)] tie_rows "payment" "amount"
             (world_of [] PNone) stable_sort_perm eq_refl eq_refl).
    vm_compute. lia.
Defined.

(** C5 as stated fails: on the values ["1", "2", "3.0", "3"] the selected
    number is 3, parsed first from ["3.0"] and then from ["3"]; the value
    returned is ["3"], the later one, not the first occurrence ["3.0"]. *)
Lemma tie_returns_later_occurrence :
  tie_values = [PStr "1"; PStr "2"; PStr "3.0"; PStr "3"]
  /\ option_map snd (selected_numeric stable_sort tie_values) = py_float "3.0"
  /\ float_of_str (PStr "3") = float_of_str (PStr "3.0")
  /\ nth_error tie_values 2 = Some (PStr "3.0")
  /\ fst (extract_sample_value stable_sort tie_raw "payment" "amount" true
            (world_of [] PNone)) = Ok (PStr "3")
  /\ fst (extract_sample_value stable_sort tie_raw "payment" "amount" true
            (world_of [] PNone)) <> Ok (PStr "3.0").
Proof. vm_compute. repeat split; try reflexivity. discriminate. Qed.

(* ================================================================== *)
(** * Reading a trace that grows *)

Lemma posts_to_app (url : string) (t1 t2 : list Event) :
  posts_to url (t1 ++ t2) = (posts_to url t1 ++ posts_to url t2)%list.
Proof.
  induction t1 as [|e t1 IH]; simpl; [reflexivity|].
  destruct e; auto. destruct (url0 =? url)%string; simpl; now rewrite IH.
Qed.

Lemma all_posts_app (t1 t2 : list Event) :
  all_posts (t1 ++ t2) = (all_posts t1 ++ all_posts t2)%list.
Proof.
  induction t1 as [|e t1 IH]; simpl; [reflexivity|].
  destruct e; simpl; now rewrite ?IH.
Qed.

Lemma sleeps_app (t1 t2 : list Event) :
  sleeps (t1 ++ t2) = (sleeps t1 ++ sleeps t2)%list.
Proof.
  induction t1 as [|e t1 IH]; simpl; [reflexivity|].
  destruct e; simpl; now rewrite ?IH.
Qed.

Lemma written_files_app (t1 t2 : list Event) :
  written_files (t1 ++ t2) = (written_files t1 ++ written_files t2)%list.
Proof.
  induction t1 as [|e t1 IH]; simpl; [reflexivity|].
  destruct e; simpl; now rewrite ?IH.
Qed.

(* ================================================================== *)
(** * [post_with_retry] *)

Ltac run :=
  cbv beta iota zeta delta
    [bind try_request session_post emit log_warning log_error sleep
     ensure_dir write_json ret raise lift get_token set_token];
  cbn [net posts token trace].

Section Retry.

Variables (url : string) (headers data : list (string * pyval)).
Variables (retries timeout : Z).



End Retry.



(* ================================================================== *)
(** * [login] *)

(** Whatever it returns, [login] posts exactly once, to the login address,
    and leaves the network alone. *)
Lemma login_posts_once (tm : TokenManager) (timeout : Z) (w : World) :
  exists t,
    trace (snd (login tm timeout w)) = (trace w ++ t)%list
    /\ all_posts t = [LOGIN_URL]
    /\ posts_to REPORT_URL t = []
    /\ written_files t = []
    /\ posts (snd (login tm timeout w)) = S (posts w)
    /\ net (snd (login tm timeout w)) = net w.
Proof.
  unfold login. run.
  destruct (net w (posts w)) as [r|msg]; cbn [fst snd];
    [destruct (negb (ok r))|]; cbn [fst snd];
    [| destruct (safe_json r) as [| | | | |l|d]; run; cbn [truthy negb];
       [..| unfold access_token_of;
            destruct (dict_get "data" d) as [[| | | | |l|data]|];
            [..| destruct (dict_get "access_token" data) as [t|];
                 [destruct (truthy t), (py_len t)|] |];
            cbn [truthy negb] ] |];
    (eexists; cbn [snd net posts token trace];
     split; [rewrite <- ?app_assoc; reflexivity|]; repeat split).
Qed.

Lemma refresh_posts_once (tm : TokenManager) (w : World) :
  exists t,
    trace (snd (refresh tm w)) = (trace w ++ t)%list
    /\ all_posts t = [LOGIN_URL]
    /\ posts_to REPORT_URL t = []
    /\ written_files t = []
    /\ posts (snd (refresh tm w)) = S (posts w)
    /\ net (snd (refresh tm w)) = net w.
Proof.
  unfold refresh. run.
  match goal with
  | |- context [login tm 10 ?w0] => apply (login_posts_once tm 10 w0)
  end.
Qed.

(** C6 (as amended).  [login] returns a token only when a response arrives
    whose status is not 4xx or 5xx and whose JSON body holds a non-empty
    access token at [data.access_token]; it returns every such token that is a
    string, and stores it.  When the post fails, the status is 4xx or 5xx,
    the body is no object, has no [data], or its [data] object has no
    non-empty [access_token], [login] returns [None] after logging an error,
    raises nothing and leaves the token slot as it was. *)
Theorem login_outcome (tm : TokenManager) (timeout : Z) (w : World) :
  (forall tok w', login tm timeout w = (Ok tok, w') -> tok <> PNone ->
     exists r d data,
       net w (posts w) = Arrives r
       /\ ~ (400 <= status_code r < 600)
       /\ safe_json r = PDict d
       /\ dict_get "data" d = Some (PDict data)
       /\ dict_get "access_token" data = Some tok
       /\ truthy tok = true
       /\ token w' = tok)
  /\ (forall r d data s,
        net w (posts w) = Arrives r ->
        ~ (400 <= status_code r < 600) ->
        safe_json r = PDict d ->
        dict_get "data" d = Some (PDict data) ->
        dict_get "access_token" data = Some (PStr s) ->
        s <> EmptyString ->
        exists w', login tm timeout w = (Ok (PStr s), w')
                   /\ token w' = PStr s)
  /\ (no_token_in (net w (posts w)) ->
      exists w' t fmt,
        login tm timeout w = (Ok PNone, w')
        /\ token w' = token w
        /\ trace w' = (trace w ++ t)%list
        /\ logged t = [("ERROR", fmt)]).
Proof.
  unfold login, no_token_in, ok. run. repeat split.
  - intros tok w' H Hn. destruct (net w (posts w)) as [r|msg] eqn:Hnet.
    2:{ injection H as <- _. congruence. }
    destruct (Z.leb_spec 400 (status_code r)) as [H4|H4];
      destruct (Z.ltb_spec (status_code r) 600) as [H6|H6];
      cbn [andb negb] in H; try (injection H as <- _; congruence).
    all: destruct (safe_json r) as [| | | | |l|d] eqn:Hbody; run;
      cbn [truthy negb] in H; try (injection H as <- _; congruence).
    all: unfold access_token_of in H;
      destruct (dict_get "data" d) as [[| | | | |l|data]|] eqn:Hdata;
      cbn [truthy negb] in H; try discriminate;
      try (injection H as <- _; congruence).
    all: destruct (dict_get "access_token" data) as [t|] eqn:Htok;
      cbn [truthy negb] in H; try (injection H as <- _; congruence).
    all: destruct (truthy t) eqn:Ht; cbn [negb] in H;
      try (injection H as <- _; congruence).
    all: destruct (py_len t); try discriminate; injection H as <- <-.
    all: exists r, d, data; repeat split; auto; lia.
  - intros r d data s Hnet Hst Hbody Hdata Htok Hs. rewrite Hnet.
    destruct (Z.leb_spec 400 (status_code r)) as [H4|H4];
      destruct (Z.ltb_spec (status_code r) 600) as [H6|H6];
      try lia; cbn [andb negb]; rewrite Hbody; unfold access_token_of;
      rewrite Hdata, Htok; cbn [truthy].
    all: destruct (String.eqb_spec s EmptyString) as [E|_]; [congruence|];
      cbn [negb py_len]; eexists; split; reflexivity.
  - intros Hno.
    assert (Hdone : forall (w0 : World) (fmt : string),
      token w0 = token w ->
      trace w0 = ((trace w ++ [EPost LOGIN_URL
                     [("Accept", PStr "application/json");
                      ("Content-Type", PStr "application/json")]
                     [("email", PStr (email tm));
                      ("password", PStr (password tm))] true timeout])
                  ++ [ELog "ERROR" fmt])%list ->
      exists w' t fmt',
        (Ok PNone, w0) = (Ok PNone, w') /\ token w' = token w
        /\ trace w' = (trace w ++ t)%list /\ logged t = [("ERROR", fmt')]).
    { intros w0 fmt Ht Htr. exists w0. eexists. exists fmt.
      split; [reflexivity|]. split; [exact Ht|].
      split; [rewrite Htr, <- app_assoc; reflexivity | reflexivity]. }
    destruct (net w (posts w)) as [r|msg] eqn:Hnet;
      [|eapply Hdone; reflexivity].
    destruct (Z.leb_spec 400 (status_code r)) as [H4|H4];
      destruct (Z.ltb_spec (status_code r) 600) as [H6|H6];
      cbn [andb negb]; [eapply Hdone; reflexivity|..].
    all: destruct Hno as [Hno|Hno]; [lia|].
    all: destruct (safe_json r) as [| | | | |l|d] eqn:Hbody; run;
      cbn [truthy negb]; try (eapply Hdone; reflexivity).
    all: unfold access_token_of;
      destruct (dict_get "data" d) as [[| | | | |l|data]|] eqn:Hdata;
      try contradiction; cbn [truthy negb];
      try (eapply Hdone; reflexivity).
    all: destruct (dict_get "access_token" data) as [t|] eqn:Htok;
      [rewrite Hno|]; cbn [truthy negb]; eapply Hdone; reflexivity.
Qed.

Lemma login_outcome_witness :
  (exists w',
     login the_manager 10
       (world_of [Arrives (response_of 200 (token_body (PStr "abc")))] PNone)
     = (Ok (PStr "abc"), w')
     /\ token w' = PStr "abc")
  /\ (exists w' t fmt,
        login the_manager 10 (world_of [Arrives server_error] (PStr "old"))
        = (Ok PNone, w')
        /\ token w' = PStr "old"
        /\ trace w' = t
        /\ logged t = [("ERROR", fmt)]).
Proof.
  split.
  - apply (proj1 (proj2 (login_outcome the_manager 10
             (world_of [Arrives (response_of 200 (token_body (PStr "abc")))]
                PNone)))
             (response_of 200 (token_body (PStr "abc")))
             [("data", PDict [("access_token", PStr "abc")])]
             [("access_token", PStr "abc")] "abc");
      try reflexivity; [cbn; lia | discriminate].
  - apply (proj2 (proj2 (login_outcome the_manager 10
             (world_of [Arrives server_error] (PStr "old"))))).
    left. cbn. lia.
Defined.

(** C6 as stated fails: a response with status 300, which is not 2xx, whose
    body carries a token makes [login] return that token. *)
Lemma login_accepts_status_300 :
  status_code (response_of 300 (token_body (PStr "abc"))) = 300
  /\ ~ (200 <= 300 <= 299)
  /\ fst (login the_manager 10
            (world_of [Arrives (response_of 300 (token_body (PStr "abc")))]
               PNone))
     = Ok (PStr "abc").
Proof. repeat split; try reflexivity. lia. Qed.

(* ================================================================== *)
(** * [fetch_field_data] *)

Section Fetch401.

Variables (tm : TokenManager) (group field : string).
Variables (filter_operator filter_value : pyval) (timeout : Z).
Variables (w w0 w1 : World) (tok : pyval) (r1 : Response).

Hypothesis Hget : get tm w = (Ok tok, w0).
Hypothesis Htok : truthy tok = true.
Hypothesis Hfirst :
  post_with_retry REPORT_URL (report_headers tok)
    (report_payload group field filter_operator filter_value) 2 timeout w0
  = (Ok (Some r1), w1).
Hypothesis H401 : status_code r1 = 401.

(** Up to the 401: [fetch_field_data] continues with the refresh. *)
Lemma fetch_after_401 :
  fetch_field_data tm group field filter_operator filter_value timeout w
  = (new_token <- refresh tm ;;
     if negb (truthy new_token) then
       log_error "Re-login failed while handling 401 for %s.%s" ;;
       ret (Some r1)
     else
       try_request
         (post_with_retry REPORT_URL
            (dict_set "Authorization" (bearer new_token) (report_headers tok))
            (report_payload group field filter_operator filter_value) 1
            timeout)
         (fun _ =>
            log_error "Network error on retry for %s.%s: %s" ;; ret None)
         (fun res' =>
            match res' with
            | None => raise AttributeError
            | Some r' => ret (Some r')
            end)) (warned_401 w1).
Proof.
  unfold fetch_field_data, warned_401.
  unfold bind at 1. rewrite Hget, Htok. cbn [negb].
  unfold try_request at 1. rewrite Hfirst, H401. reflexivity.
Qed.

(** One attempt, no sleep: [post_with_retry] with [retries=1]. *)
Lemma single_attempt (headers data : list (string * pyval)) (w2 : World) :
  post_with_retry REPORT_URL headers data 1 timeout w2
  = match net w2 (posts w2) with
    | Arrives r =>
        (Ok (Some r),
         {| net := net w2; posts := S (posts w2); token := token w2;
            trace := trace w2
                     ++ [EPost REPORT_URL headers data false timeout] |})
    | Fails msg =>
        (Raise (RequestException msg),
         {| net := net w2; posts := S (posts w2); token := token w2;
            trace := (trace w2
                      ++ [EPost REPORT_URL headers data false timeout])
                     ++ [ELog "WARNING"
                           "Request failed (attempt %d/%d): %s"] |})
    end.
Proof.
  unfold post_with_retry.
  change (range 1 (1 + 1)) with [1]. cbn [retry_loop]. run.
  change (1 =? 1) with true. cbv beta iota.
  destruct (net w2 (posts w2)); reflexivity.
Qed.

End Fetch401.

(* ================================================================== *)
(** * Which files a computation writes *)

Create HintDb frame.

Section Frame.

Variable Q : string -> Prop.

Lemma writes_only_ret {A} (a : A) : writes_only Q (ret a).
Proof. intros w. exists []. cbn. now rewrite app_nil_r. Qed.

Lemma writes_only_raise {A} (e : exn) : writes_only Q (@raise A e).
Proof. intros w. exists []. cbn. now rewrite app_nil_r. Qed.

Lemma writes_only_lift {A} (r : res A) : writes_only Q (lift r).
Proof. intros w. exists []. cbn. now rewrite app_nil_r. Qed.

Lemma writes_only_get_token : writes_only Q get_token.
Proof. intros w. exists []. cbn. now rewrite app_nil_r. Qed.

Lemma writes_only_set_token (t : pyval) : writes_only Q (set_token t).
Proof. intros w. exists []. cbn. now rewrite app_nil_r. Qed.

Lemma writes_only_log_warning (fmt : string) : writes_only Q (log_warning fmt).
Proof. intros w. eexists. cbn. split; [reflexivity | constructor]. Qed.

Lemma writes_only_log_error (fmt : string) : writes_only Q (log_error fmt).
Proof. intros w. eexists. cbn. split; [reflexivity | constructor]. Qed.

Lemma writes_only_sleep (d : pyval) : writes_only Q (sleep d).
Proof. intros w. eexists. cbn. split; [reflexivity | constructor]. Qed.

Lemma writes_only_ensure_dir (p : string) : writes_only Q (ensure_dir p).
Proof. intros w. eexists. cbn. split; [reflexivity | constructor]. Qed.

Lemma writes_only_write_json (p : string) (c : pyval) :
  Q p -> writes_only Q (write_json p c).
Proof.
  intros Hp w. eexists. cbn. split; [reflexivity|]. now repeat constructor.
Qed.

Lemma writes_only_session_post url headers body as_json timeout :
  writes_only Q (session_post url headers body as_json timeout).
Proof.
  intros w. exists [EPost url headers body as_json timeout].
  unfold session_post. destruct (net w (posts w)); cbn; split;
    auto; constructor.
Qed.

Lemma writes_only_bind {A B} (c : M A) (k : A -> M B) :
  writes_only Q c -> (forall a, writes_only Q (k a)) ->
  writes_only Q (bind c k).
Proof.
  intros Hc Hk w. unfold bind. destruct (Hc w) as (t1 & H1 & P1).
  destruct (c w) as [[a|e] w1]; cbn [snd] in *.
  - destruct (Hk a w1) as (t2 & H2 & P2). exists (t1 ++ t2)%list.
    rewrite H2, H1, app_assoc, written_files_app. split; [reflexivity|].
    apply Forall_app. auto.
  - exists t1. auto.
Qed.

Lemma writes_only_try_request {A B} (c : M A) (h : string -> M B)
  (k : A -> M B) :
  writes_only Q c -> (forall e, writes_only Q (h e)) ->
  (forall a, writes_only Q (k a)) ->
  writes_only Q (try_request c h k).
Proof.
  intros Hc Hh Hk w. unfold try_request. destruct (Hc w) as (t1 & H1 & P1).
  destruct (c w) as [[a|[msg| | |]] w1]; cbn [snd] in *;
    try (exists t1; now auto).
  - destruct (Hk a w1) as (t2 & H2 & P2). exists (t1 ++ t2)%list.
    rewrite H2, H1, app_assoc, written_files_app. split; [reflexivity|].
    apply Forall_app. auto.
  - destruct (Hh msg w1) as (t2 & H2 & P2). exists (t1 ++ t2)%list.
    rewrite H2, H1, app_assoc, written_files_app. split; [reflexivity|].
    apply Forall_app. auto.
Qed.

#[local] Hint Resolve writes_only_ret writes_only_raise writes_only_lift
  writes_only_get_token writes_only_set_token writes_only_log_warning
  writes_only_log_error writes_only_sleep writes_only_ensure_dir
  writes_only_session_post : frame.

Ltac frame :=
  repeat first
    [ apply writes_only_bind; [|intros ?]
    | apply writes_only_try_request; [|intros ?|intros ?]
    | solve [auto with frame]
    | match goal with
      | |- writes_only _ (if ?b then _ else _) => destruct b
      | |- writes_only _ (match ?x with _ => _ end) => destruct x
      end ].

Lemma writes_only_retry_loop url headers data retries timeout :
  forall attempts delay,
    writes_only Q (retry_loop attempts retries delay url headers data timeout).
Proof.
  induction attempts as [|attempt rest IH]; intros delay; cbn [retry_loop];
    frame.
Qed.

Lemma writes_only_post_with_retry url headers data retries timeout :
  writes_only Q (post_with_retry url headers data retries timeout).
Proof. apply writes_only_retry_loop. Qed.

Lemma writes_only_login tm timeout : writes_only Q (login tm timeout).
Proof. unfold login. frame. Qed.

Lemma writes_only_get tm : writes_only Q (get tm).
Proof. unfold get. frame. Qed.

Lemma writes_only_refresh tm : writes_only Q (refresh tm).
Proof. unfold refresh. frame. Qed.

Lemma writes_only_fetch_field_data tm group field fo fv timeout :
  writes_only Q (fetch_field_data tm group field fo fv timeout).
Proof.
  unfold fetch_field_data.
  repeat first
    [ apply writes_only_get | apply writes_only_refresh
    | apply writes_only_post_with_retry | progress frame ].
Qed.

Lemma writes_only_extract_sample_value list_sort response_data group field
  for_comparison :
  writes_only Q (extract_sample_value list_sort response_data group field
                   for_comparison).
Proof.
  unfold extract_sample_value.
  destruct (extract_sample_value_try _ _ _ _ _); frame.
Qed.

Lemma writes_only_apply_filters tm group field field_dir delay
  sample_value comparison_value :
  forall filters,
    (forall op, In op filters -> Q (path_join field_dir (op ++ ".json"))) ->
    writes_only Q (apply_filters tm group field field_dir delay
                     sample_value comparison_value filters).
Proof.
  induction filters as [|op rest IH]; intros HQ; cbn [apply_filters].
  - frame.
  - repeat first
      [ apply writes_only_fetch_field_data
      | apply writes_only_write_json; apply HQ; now left
      | apply IH; intros op' Hop'; apply HQ; now right
      | progress frame ].
Qed.

End Frame.

(** C2 (as amended).  When the first report response of a fetch has status
    401, the client reacquires the token exactly once (one post to the login
    address).  If that yields a token, it rebuilds the Authorization header
    with it and posts the report request exactly once more, a single attempt:
    the response that arrives is returned as it is, also when its status is
    again 401, and a network failure gives [None]; nothing else is posted.
    If the reacquisition yields no token, the request is not retried. *)
Theorem fetch_401_reauth_once (tm : TokenManager) (group field : string)
  (filter_operator filter_value : pyval) (timeout : Z)
  (w w0 w1 : World) (tok : pyval) (r1 : Response) :
  get tm w = (Ok tok, w0) ->
  truthy tok = true ->
  post_with_retry REPORT_URL (report_headers tok)
    (report_payload group field filter_operator filter_value) 2 timeout w0
  = (Ok (Some r1), w1) ->
  status_code r1 = 401 ->
  exists x w2 t,
    refresh tm (warned_401 w1) = (x, w2)
    /\ trace (snd (fetch_field_data tm group field filter_operator filter_value
                     timeout w))
       = (trace w1 ++ t)%list
    /\ match x with
       | Ok new_token =>
           if truthy new_token then
             all_posts t = [LOGIN_URL; REPORT_URL]
             /\ posts_to REPORT_URL t
                = [(dict_set "Authorization" (bearer new_token)
                      (report_headers tok),
                    report_payload group field filter_operator filter_value)]
             /\ fst (fetch_field_data tm group field filter_operator
                       filter_value timeout w)
                = match net w2 (posts w2) with
                  | Arrives r2 => Ok (Some r2)
                  | Fails _ => Ok None
                  end
           else
             all_posts t = [LOGIN_URL]
             /\ fst (fetch_field_data tm group field filter_operator
                       filter_value timeout w) = Ok (Some r1)
       | Raise e =>
           all_posts t = [LOGIN_URL]
           /\ fst (fetch_field_data tm group field filter_operator
                     filter_value timeout w) = Raise e
       end.
Proof.
  intros Hget Htok Hfirst H401.
  pose proof (fetch_after_401 tm group field filter_operator filter_value
                timeout w w0 w1 tok r1 Hget Htok Hfirst H401) as Hf.
  destruct (refresh_posts_once tm (warned_401 w1))
    as (tl & Htl & Hall & Hrep & _ & _ & _).
  unfold bind at 1 in Hf.
  destruct (refresh tm (warned_401 w1)) as [x w2] eqn:Href.
  cbn [snd] in Htl. change (trace (warned_401 w1))
    with (trace w1 ++ [ELog "WARNING"
            "401 Unauthorized for %s.%s — refreshing token and retrying once"])%list
    in Htl.
  exists x, w2. destruct x as [new_token|e].
  - destruct (truthy new_token) eqn:Hnew; cbn [negb] in Hf.
    + unfold try_request in Hf. rewrite single_attempt in Hf.
      destruct (net w2 (posts w2)) as [r2|msg]; revert Hf; run; intros Hf;
        rewrite Hf; cbn [fst snd trace];
        eexists; (split; [reflexivity|]);
        (split; [rewrite Htl, <- !app_assoc; reflexivity|]);
        rewrite !all_posts_app, !posts_to_app, Hall, Hrep; cbn;
        repeat split; reflexivity.
    + revert Hf. run. intros Hf. rewrite Hf. cbn [fst snd trace].
      eexists. split; [reflexivity|].
      split; [rewrite Htl, <- !app_assoc; reflexivity|].
      rewrite !all_posts_app, Hall. split; reflexivity.
  - rewrite Hf. cbn [fst snd]. eexists. split; [reflexivity|].
    split; [rewrite Htl, <- !app_assoc; reflexivity|].
    rewrite !all_posts_app, Hall. split; reflexivity.
Qed.

(* ================================================================== *)
(** * [process_field] *)

Lemma writes_to_app (path : string) (t1 t2 : list Event) :
  writes_to path (t1 ++ t2) = (writes_to path t1 ++ writes_to path t2)%list.
Proof.
  induction t1 as [|e t1 IH]; simpl; [reflexivity|].
  destruct e; auto. destruct (path0 =? path)%string; simpl; now rewrite IH.
Qed.

Lemma writes_to_other (path : string) (t : list Event) :
  Forall (fun p => p <> path) (written_files t) -> writes_to path t = [].
Proof.
  induction t as [|e t IH]; simpl; [reflexivity|].
  destruct e; auto. intros H. inversion H as [|? ? Hp Ht]; subst.
  destruct (String.eqb_spec path0 path); [contradiction | auto].
Qed.

Lemma written_files_none (t : list Event) :
  Forall (fun _ => False) (written_files t) -> written_files t = [].
Proof. destruct (written_files t); [reflexivity | inversion 1; contradiction]. Qed.

Lemma append_inj_l (s a b : string) : (s ++ a = s ++ b)%string -> a = b.
Proof. induction s as [|c s IH]; simpl; [auto | intros [= H]; auto]. Qed.

Lemma applicable_filters_incl (v : pyval) (op : string) :
  In op (get_applicable_filters v) -> In op FILTERS.
Proof.
  unfold get_applicable_filters.
  destruct v; try (destruct (is_numeric _)); auto;
    intros H; apply filter_In in H; tauto.
Qed.

Lemma filter_file_not_raw (field_dir op : string) :
  In op FILTERS ->
  path_join field_dir (op ++ ".json") <> path_join field_dir "raw_data.json".
Proof.
  intros Hop E. unfold path_join in E. apply append_inj_l in E.
  cbn in Hop. repeat (destruct Hop as [<-|Hop]; [discriminate E|]).
  contradiction.
Qed.

Lemma prologue_trace (output_dir group field : string) (delay : pyval)
  (w : World) :
  trace (prologue output_dir group field delay w)
  = (trace w ++ [EMakedirs (path_join (path_join output_dir group) field);
                 ESleep delay])%list.
Proof. unfold prologue. run. cbn [snd trace]. now rewrite <- app_assoc. Qed.

(** [process_field] from the result of its raw fetch on. *)
Lemma process_field_after_fetch (list_sort : list fobj -> list fobj)
  (tm : TokenManager) (group field output_dir : string) (delay : pyval)
  (w : World) :
  process_field list_sort tm group field output_dir delay w
  = match fetch_field_data tm group field PNone PNone 30
            (prologue output_dir group field delay w) with
    | (Ok None, w1) =>
        write_json (raw_file_of output_dir group field)
          (raw_sentinel group field) w1
    | (Ok (Some r), w1) =>
        (write_json (raw_file_of output_dir group field)
           (raw_result_of group field r) ;;
         derive_and_filter list_sort tm group field output_dir delay r) w1
    | (Raise e, w1) => (Raise e, w1)
    end.
Proof.
  unfold process_field, derive_and_filter, prologue, raw_file_of. run.
  cbn [snd].
  destruct (fetch_field_data tm group field PNone PNone 30 _)
    as [[[r|]|e] w1]; reflexivity.
Qed.

Lemma writes_only_derive_and_filter (list_sort : list fobj -> list fobj)
  (tm : TokenManager) (group field output_dir : string) (delay : pyval)
  (r : Response) :
  writes_only (fun p => p <> raw_file_of output_dir group field)
    (derive_and_filter list_sort tm group field output_dir delay r).
Proof.
  unfold derive_and_filter.
  apply writes_only_bind; [apply writes_only_extract_sample_value|].
  intros sample_value.
  apply writes_only_bind; [apply writes_only_extract_sample_value|].
  intros comparison_value.
  destruct sample_value; try apply writes_only_log_warning;
    apply writes_only_apply_filters; intros op Hop;
    apply filter_file_not_raw, (applicable_filters_incl _ _ Hop).
Qed.

(** When the raw fetch returns, a response or [None], the raw file is
    written exactly once during [process_field], whatever happens later. *)
Lemma raw_artifact_once (list_sort : list fobj -> list fobj)
  (tm : TokenManager) (group field output_dir : string) (delay : pyval)
  (w w1 : World) (res : option Response) :
  fetch_field_data tm group field PNone PNone 30
    (prologue output_dir group field delay w) = (Ok res, w1) ->
  exists t,
    trace (snd (process_field list_sort tm group field output_dir delay w))
    = (trace w ++ t)%list
    /\ writes_to (raw_file_of output_dir group field) t
       = [match res with
          | Some r => raw_result_of group field r
          | None => raw_sentinel group field
          end].
Proof.
  intros Hfetch.
  destruct (writes_only_fetch_field_data (fun _ => False) tm group field
              PNone PNone 30 (prologue output_dir group field delay w))
    as (tf & Htf & Hq).
  rewrite Hfetch in Htf. cbn [snd] in Htf.
  apply written_files_none in Hq.
  assert (Hqf : writes_to (raw_file_of output_dir group field) tf = []).
  { apply writes_to_other. rewrite Hq. constructor. }
  rewrite process_field_after_fetch, Hfetch.
  rewrite (prologue_trace output_dir group field delay w) in Htf.
  destruct res as [r|].
  - unfold bind at 1. unfold write_json at 1, emit at 1.
    match goal with
    | |- context [derive_and_filter ?a ?b ?c ?d ?e ?f ?g ?ww] =>
        destruct (writes_only_derive_and_filter a b c d e f g ww)
          as (tl & Htl & Hql)
    end.
    rewrite Htl. cbn [trace]. rewrite Htf.
    eexists. split; [rewrite <- !app_assoc; reflexivity|].
    rewrite !writes_to_app, Hqf, (writes_to_other _ tl Hql). cbn.
    now rewrite String.eqb_refl.
  - run. cbn [snd trace]. rewrite Htf.
    eexists. split; [rewrite <- !app_assoc; reflexivity|].
    rewrite !writes_to_app, Hqf. cbn. now rewrite String.eqb_refl.
Qed.

(** C7.  When the raw fetch obtained a response and the extraction with
    [for_comparison=False] returns [None], [process_field] writes the raw
    artifact and no other file, posts no further request, logs the warning
    that the filters are skipped and returns without raising. *)
Theorem no_sample_skips_filters (list_sort : list fobj -> list fobj)
  (tm : TokenManager) (group field output_dir : string) (delay : pyval)
  (w w1 : World) (r : Response) :
  fetch_field_data tm group field PNone PNone 30
    (prologue output_dir group field delay w) = (Ok (Some r), w1) ->
  fst (extract_sample_value list_sort (raw_result_of group field r) group
         field false w1) = Ok PNone ->
  exists w' t,
    process_field list_sort tm group field output_dir delay w = (Ok tt, w')
    /\ trace w' = (trace w1 ++ t)%list
    /\ written_files t = [raw_file_of output_dir group field]
    /\ writes_to (raw_file_of output_dir group field) t
       = [raw_result_of group field r]
    /\ all_posts t = []
    /\ last (logged t) (EmptyString, EmptyString)
       = ("WARNING", "No sample value found for %s.%s, skipping filters")
    /\ posts w' = posts w1
    /\ token w' = token w1.
Proof.
  intros Hfetch Hsample.
  rewrite process_field_after_fetch, Hfetch.
  unfold derive_and_filter, extract_sample_value in *.
  destruct (extract_sample_value_try list_sort (raw_result_of group field r)
              group field false) as [v|e];
    [cbn in Hsample; injection Hsample as ->|];
    destruct (extract_sample_value_try list_sort (raw_result_of group field r)
                group field true) as [v'|e'];
    run; do 2 eexists; (split; [reflexivity|]); cbn [trace posts token];
    (split; [rewrite <- ?app_assoc; reflexivity|]);
    cbn; rewrite String.eqb_refl; repeat split.
Qed.

Lemma no_sample_skips_filters_witness :
  exists w' t,
    process_field stable_sort the_manager "receipts" "note" "results"
      two_seconds blank_notes_world = (Ok tt, w')
    /\ trace w'
       = ([EMakedirs "results/receipts/note"; ESleep two_seconds;
           EPost REPORT_URL (report_headers (PStr "old"))
             (report_payload "receipts" "note" PNone PNone) false 30] ++ t)%list
    /\ written_files t = ["results/receipts/note/raw_data.json"]
    /\ writes_to "results/receipts/note/raw_data.json" t
       = [raw_result_of "receipts" "note" blank_notes]
    /\ all_posts t = []
    /\ last (logged t) (EmptyString, EmptyString)
       = ("WARNING", "No sample value found for %s.%s, skipping filters")
    /\ posts w' = 1%nat
    /\ token w' = PStr "old".
Proof.
  apply (no_sample_skips_filters stable_sort the_manager "receipts" "note"
           "results" two_seconds blank_notes_world
           {| net := net blank_notes_world; posts := 1; token := PStr "old";
              trace := [EMakedirs "results/receipts/note"; ESleep two_seconds;
                        EPost REPORT_URL (report_headers (PStr "old"))
                          (report_payload "receipts" "note" PNone PNone)
                          false 30] |}
           blank_notes); reflexivity.
Defined.

Lemma fetch_401_reauth_once_witness :
  exists x w2 t,
    refresh the_manager
      (warned_401 {| net := net expired_world; posts := 1;
                     token := PStr "old";
                     trace := [EPost REPORT_URL (report_headers (PStr "old"))
                                 (report_payload "payment" "amount" PNone PNone)
                                 false 30] |}) = (x, w2)
    /\ trace (snd (fetch_field_data the_manager "payment" "amount" PNone PNone
                     30 expired_world))
       = ([EPost REPORT_URL (report_headers (PStr "old"))
             (report_payload "payment" "amount" PNone PNone) false 30] ++ t)%list
    /\ match x with
       | Ok new_token =>
           if truthy new_token then
             all_posts t = [LOGIN_URL; REPORT_URL]
             /\ posts_to REPORT_URL t
                = [(dict_set "Authorization" (bearer new_token)
                      (report_headers (PStr "old")),
                    report_payload "payment" "amount" PNone PNone)]
             /\ fst (fetch_field_data the_manager "payment" "amount" PNone
                       PNone 30 expired_world)
                = match net w2 (posts w2) with
                  | Arrives r2 => Ok (Some r2)
                  | Fails _ => Ok None
                  end
           else
             all_posts t = [LOGIN_URL]
             /\ fst (fetch_field_data the_manager "payment" "amount" PNone
                       PNone 30 expired_world) = Ok (Some unauthorized)
       | Raise e =>
           all_posts t = [LOGIN_URL]
           /\ fst (fetch_field_data the_manager "payment" "amount" PNone
                     PNone 30 expired_world) = Raise e
       end.
Proof.
  apply (fetch_401_reauth_once the_manager "payment" "amount" PNone PNone 30
           expired_world expired_world
           {| net := net expired_world; posts := 1; token := PStr "old";
              trace := [EPost REPORT_URL (report_headers (PStr "old"))
                          (report_payload "payment" "amount" PNone PNone)
                          false 30] |}
           (PStr "old") unauthorized); reflexivity.
Defined.

(** C2 as stated fails: when the re-login after a 401 yields no token, the
    request is not posted again; the report address is posted to once, not
    twice, and the first 401 is returned. *)
Lemma no_retry_when_relogin_fails :
  fst (fetch_field_data the_manager "payment" "amount" PNone PNone 30
         locked_out_world) = Ok (Some unauthorized)
  /\ all_posts (trace (snd (fetch_field_data the_manager "payment" "amount"
                              PNone PNone 30 locked_out_world)))
     = [REPORT_URL; LOGIN_URL]
  /\ List.length
       (posts_to REPORT_URL
          (trace (snd (fetch_field_data the_manager "payment" "amount"
                         PNone PNone 30 locked_out_world)))) = 1%nat.
Proof. vm_compute. repeat split; reflexivity. Qed.

(** C10.  When the first report response is a 401 and the re-login yields no
    token, [fetch_field_data] returns that 401 response itself, without
    posting the request again; [process_field] then writes it to the raw
    file, once, as a record with [status_code] 401, not as a network-failure
    sentinel. *)
Theorem fetch_401_relogin_fails (list_sort : list fobj -> list fobj)
  (tm : TokenManager) (group field output_dir : string) (delay : pyval)
  (w w0 w1 w2 : World) (tok new_token : pyval) (r1 : Response) :
  get tm (prologue output_dir group field delay w) = (Ok tok, w0) ->
  truthy tok = true ->
  post_with_retry REPORT_URL (report_headers tok)
    (report_payload group field PNone PNone) 2 30 w0
  = (Ok (Some r1), w1) ->
  status_code r1 = 401 ->
  refresh tm (warned_401 w1) = (Ok new_token, w2) ->
  truthy new_token = false ->
  exists wf t,
    fetch_field_data tm group field PNone PNone 30
      (prologue output_dir group field delay w) = (Ok (Some r1), wf)
    /\ posts wf = posts w2
    /\ trace wf
       = (trace w2
          ++ [ELog "ERROR" "Re-login failed while handling 401 for %s.%s"])%list
    /\ trace (snd (process_field list_sort tm group field output_dir delay w))
       = (trace w ++ t)%list
    /\ writes_to (raw_file_of output_dir group field) t
       = [raw_result_of group field r1]
    /\ py_getitem (raw_result_of group field r1) "status_code" = Ok (PInt 401).
Proof.
  intros Hget Htok Hfirst H401 Href Hnew.
  pose proof (fetch_after_401 tm group field PNone PNone 30 _ w0 w1 tok r1
                Hget Htok Hfirst H401) as Hfetch.
  unfold bind at 1 in Hfetch. rewrite Href, Hnew in Hfetch.
  cbn [negb] in Hfetch. revert Hfetch. run. intros Hfetch.
  destruct (raw_artifact_once list_sort tm group field output_dir delay w _ _
              Hfetch) as (t & Ht & Hw).
  eexists. exists t. split; [exact Hfetch|]. cbn [posts trace].
  repeat split; auto.
  unfold raw_result_of, py_getitem. cbn. now rewrite H401.
Qed.

Lemma fetch_401_relogin_fails_witness :
  exists wf t,
    fetch_field_data the_manager "payment" "amount" PNone PNone 30
      (prologue "results" "payment" "amount" two_seconds locked_out_world)
    = (Ok (Some unauthorized), wf)
    /\ posts wf = 2%nat
    /\ trace wf
       = ([EMakedirs "results/payment/amount"; ESleep two_seconds;
           EPost REPORT_URL (report_headers (PStr "old"))
             (report_payload "payment" "amount" PNone PNone) false 30;
           ELog "WARNING"
             "401 Unauthorized for %s.%s — refreshing token and retrying once";
           EPost LOGIN_URL
             [("Accept", PStr "application/json");
              ("Content-Type", PStr "application/json")]
             [("email", PStr "user@example.com"); ("password", PStr "secret")]
             true 10;
           ELog "ERROR" "Login failed: status=%s body=%s"]
          ++ [ELog "ERROR" "Re-login failed while handling 401 for %s.%s"])%list
    /\ trace (snd (process_field stable_sort the_manager "payment" "amount"
                     "results" two_seconds locked_out_world))
       = (trace locked_out_world ++ t)%list
    /\ writes_to (raw_file_of "results" "payment" "amount") t
       = [raw_result_of "payment" "amount" unauthorized]
    /\ py_getitem (raw_result_of "payment" "amount" unauthorized) "status_code"
       = Ok (PInt 401).
Proof.
  apply (fetch_401_relogin_fails stable_sort the_manager "payment" "amount"
           "results" two_seconds locked_out_world
           (prologue "results" "payment" "amount" two_seconds locked_out_world)
           (snd (post_with_retry REPORT_URL (report_headers (PStr "old"))
                   (report_payload "payment" "amount" PNone PNone) 2 30
                   (prologue "results" "payment" "amount" two_seconds
                      locked_out_world)))
           {| net := net locked_out_world; posts := 2; token := PNone;
              trace :=
                [EMakedirs "results/payment/amount"; ESleep two_seconds;
                 EPost REPORT_URL (report_headers (PStr "old"))
                   (report_payload "payment" "amount" PNone PNone) false 30;
                 ELog "WARNING"
                   "401 Unauthorized for %s.%s — refreshing token and retrying once";
                 EPost LOGIN_URL
                   [("Accept", PStr "application/json");
                    ("Content-Type", PStr "application/json")]
                   [("email", PStr "user@example.com");
                    ("password", PStr "secret")] true 10;
                 ELog "ERROR" "Login failed: status=%s body=%s"] |}
           (PStr "old") PNone unauthorized); reflexivity.
Defined.

(** C8 fails on the code.  The token has expired at the server: the raw fetch
    gets a 401 and the re-login is answered with status 200 and the body
    [{"data": null}].  [login] raises [AttributeError], which leaves
    [process_field] before the raw file is written: the field has no raw
    artifact at all. *)
Theorem raw_artifact_missing_when_login_raises :
  fst (process_field stable_sort the_manager "payment" "amount" "results"
         two_seconds null_data_world) = Raise AttributeError
  /\ written_files
       (trace (snd (process_field stable_sort the_manager "payment" "amount"
                      "results" two_seconds null_data_world))) = []
  /\ writes_to (raw_file_of "results" "payment" "amount")
       (trace (snd (process_field stable_sort the_manager "payment" "amount"
                      "results" two_seconds null_data_world))) = [].
Proof. vm_compute. repeat split; reflexivity. Qed.

(* ================================================================== *)
(** * More on [extract_sample_value] *)

Lemma first_some_usable {A} (f : A -> option pyval) (l : list A) (v : pyval) :
  (forall a b, f a = Some b -> usable b = true) ->
  first_some f l = Some v -> usable v = true.
Proof.
  intros Hf. induction l as [|a l IH]; simpl; [discriminate|].
  destruct (f a) as [b|] eqn:E; [|exact IH].
  intros [= <-]. eauto.
Qed.

Lemma row_value_usable (group field : string) (row v : pyval) :
  row_value group field row = Some v -> usable v = true.
Proof.
  unfold row_value. destruct row; try discriminate.
  match goal with
  | |- match ?x with _ => _ end = _ -> _ => destruct x as [v0|] eqn:E1
  end.
  - intros [= <-]. revert E1. apply first_some_usable.
    intros key b. destruct (dict_get key d) as [x|]; [|discriminate].
    destruct (usable x) eqn:U; [|discriminate]. now intros [= <-].
  - apply first_some_usable. intros [k x] b. cbn [fst snd].
    destruct (contains (lower field) (lower k)); [|discriminate].
    cbn [andb]. destruct (usable x) eqn:U; [|discriminate]. now intros [= <-].
Qed.

Lemma collect_values_usable (group field : string) (rows : list pyval)
  (v : pyval) :
  In v (collect_values group field rows) -> usable v = true.
Proof.
  induction rows as [|row rows IH]; simpl; [contradiction|].
  destruct (row_value group field row) as [x|] eqn:E; [|exact IH].
  intros [<-|H]; [apply (row_value_usable _ _ _ _ E) | auto].
Qed.

Lemma In_slice {A} (a b : nat) (l : list A) (x : A) :
  In x (slice a b l) -> In x l.
Proof.
  unfold slice. intros H. apply In_nth_error in H as (k & Hk).
  rewrite nth_error_firstn in Hk.
  destruct (k <? b - a)%nat; [|discriminate].
  rewrite nth_error_skipn in Hk. apply (nth_error_In _ _ Hk).
Qed.

(** Whatever [middle_sample] returns is one of the values. *)
Lemma middle_sample_in (list_sort : list fobj -> list fobj)
  (values : list pyval) (r : res pyval) :
  (forall l, Permutation (list_sort l) l) ->
  middle_sample list_sort values = Some r ->
  exists v, r = Ok v /\ In v values.
Proof.
  intros Hperm. unfold middle_sample.
  destruct (1 <? List.length (numeric_values values))%nat; [|discriminate].
  destruct (selected_numeric list_sort values) as [o|] eqn:Hsel;
    [|discriminate].
  assert (Hin : In o (numeric_values values)).
  { apply (Permutation_in o (Hperm _)). unfold selected_numeric in Hsel.
    destruct (middle_range (sorted_numeric list_sort values)) eqn:E;
      [discriminate|]. rewrite <- E in Hsel.
    apply nth_error_In in Hsel. apply (In_slice _ _ _ _ Hsel). }
  destruct (original_to_numeric_last values o Hin)
    as (j & v & Hget & Hj & _ & _).
  rewrite Hget. intros [= <-]. exists v. split; [reflexivity|].
  apply (nth_error_In _ _ Hj).
Qed.

(** What the [try] gives on a response that is not shaped
    [{"response": {"data": [...]}}]: [None], or an exception. *)
Lemma extract_try_rows (list_sort : list fobj -> list fobj)
  (response_data : pyval) (group field : string) (for_comparison : bool) :
  extract_sample_value_try list_sort response_data group field for_comparison
  = extract_from_rows list_sort group field for_comparison
      (rows_of response_data)
  \/ extract_sample_value_try list_sort response_data group field
       for_comparison = Ok PNone
  \/ exists e,
       extract_sample_value_try list_sort response_data group field
         for_comparison = Raise e.
Proof.
  unfold extract_sample_value_try, rows_of, py_in, py_getitem, dict_has.
  destruct response_data as [| | | |s|l|d]; cbn [res_bind]; eauto.
  - destruct (contains "response" s); cbn [res_bind]; eauto.
  - destruct (existsb _ l); cbn [res_bind]; eauto.
  - destruct (dict_get "response" d) as [resp|]; cbn [res_bind]; eauto.
    destruct resp as [| | | |s|l|r]; cbn [res_bind]; eauto.
    + destruct (contains "data" s); cbn [res_bind]; eauto.
    + destruct (existsb _ l); cbn [res_bind]; eauto.
    + destruct (dict_get "data" r) as [rows|]; cbn [res_bind]; eauto.
      destruct rows as [| | | | |[|row rows]|]; cbn [res_bind]; eauto.
Qed.

(** X1.  On a response shaped [{"response": {"data": rows}}], the extraction
    with [for_comparison=False] returns the first collected value, the value
    of the first row that has a usable one, or [None] when no row has one;
    it logs nothing. *)
Theorem sample_is_first_value (list_sort : list fobj -> list fobj)
  (d r : list (string * pyval)) (rows : list pyval) (group field : string)
  (w : World) :
  dict_get "response" d = Some (PDict r) ->
  dict_get "data" r = Some (PList rows) ->
  extract_sample_value list_sort (PDict d) group field false w
  = (Ok (first_value (collect_values group field rows)), w).
Proof.
  intros Hr Hd. unfold extract_sample_value.
  rewrite (extract_sample_value_rows list_sort d r rows group field false Hr Hd).
  unfold extract_from_rows.
  destruct (collect_values group field rows); reflexivity.
Qed.

Lemma sample_is_first_value_witness :
  extract_sample_value stable_sort example_raw "payment" "amount" false
    (world_of [] PNone)
  = (Ok (PStr "12.50"), world_of [] PNone).
Proof.
  apply (sample_is_first_value stable_sort
           [("group", PStr "payment"); ("field", PStr "amount");
            ("status_code", PInt 200); ("filter", PNone);
            ("response", PDict [("data", PList example_rows)])]
           [("data", PList example_rows)] example_rows "payment" "amount"
           (world_of [] PNone)); reflexivity.
Defined.

(** X2.  With [for_comparison=True] and fewer than two values that parse as
    numbers, the extraction returns what it returns with
    [for_comparison=False]: the first collected value. *)
Theorem comparison_falls_back_to_first (list_sort : list fobj -> list fobj)
  (d r : list (string * pyval)) (rows : list pyval) (group field : string)
  (w : World) :
  dict_get "response" d = Some (PDict r) ->
  dict_get "data" r = Some (PList rows) ->
  (List.length (numeric_values (collect_values group field rows)) < 2)%nat ->
  extract_sample_value list_sort (PDict d) group field true w
  = extract_sample_value list_sort (PDict d) group field false w.
Proof.
  intros Hr Hd Hlt. unfold extract_sample_value.
  rewrite !(extract_sample_value_rows list_sort d r rows group field _ Hr Hd).
  unfold extract_from_rows, middle_sample.
  destruct (collect_values group field rows) as [|v vs]; [reflexivity|].
  destruct (Nat.ltb_spec 1 (List.length (numeric_values (v :: vs))));
    [lia|].
  cbn [andb]. now destruct (1 <? List.length (v :: vs))%nat.
Qed.

Lemma comparison_falls_back_to_first_witness :
  extract_sample_value stable_sort
    (raw_of_rows (amount_rows ["open"; "7"; "closed"])) "payment" "amount" true
    (world_of [] PNone)
  = extract_sample_value stable_sort
      (raw_of_rows (amount_rows ["open"; "7"; "closed"])) "payment" "amount"
      false (world_of [] PNone).
Proof.
  apply (comparison_falls_back_to_first stable_sort
           [("group", PStr "payment"); ("field", PStr "amount");
            ("status_code", PInt 200); ("filter", PNone);
            ("response",
             PDict [("data", PList (amount_rows ["open"; "7"; "closed"]))])]
           [("data", PList (amount_rows ["open"; "7"; "closed"]))]
           (amount_rows ["open"; "7"; "closed"]) "payment" "amount"
           (world_of [] PNone)); [reflexivity | reflexivity |].
  vm_compute. lia.
Defined.

(** X3.  Whatever the response and the flag, [extract_sample_value] raises
    nothing, and what it returns is [None] or one of the values collected
    from the rows at [response.data], which is neither [None] nor blank. *)
Theorem sample_is_none_or_row_value (list_sort : list fobj -> list fobj)
  (response_data : pyval) (group field : string) (for_comparison : bool)
  (w : World) :
  (forall l, Permutation (list_sort l) l) ->
  exists v,
    fst (extract_sample_value list_sort response_data group field
           for_comparison w) = Ok v
    /\ (v = PNone
        \/ (In v (collect_values group field (rows_of response_data))
            /\ usable v = true)).
Proof.
  intros Hperm. unfold extract_sample_value.
  destruct (extract_try_rows list_sort response_data group field
              for_comparison) as [E|[E|(e & E)]]; rewrite E.
  2:{ exists PNone. auto. }
  2:{ exists PNone. auto. }
  clear E. unfold extract_from_rows.
  destruct (collect_values group field (rows_of response_data))
    as [|v vs] eqn:Hv.
  { exists PNone. auto. }
  assert (Hfirst : In v (v :: vs) /\ usable v = true).
  { split; [now left|].
    apply (collect_values_usable group field (rows_of response_data)).
    rewrite Hv. now left. }
  destruct (for_comparison && (1 <? List.length (v :: vs))%nat);
    [|exists v; auto].
  destruct (middle_sample list_sort (v :: vs)) as [r|] eqn:Hm;
    [|exists v; auto].
  destruct (middle_sample_in list_sort (v :: vs) r Hperm Hm) as (x & -> & Hx).
  exists x. split; [reflexivity|]. right.
  split; [exact Hx|].
  apply (collect_values_usable group field (rows_of response_data)).
  now rewrite Hv.
Qed.

Lemma sample_is_none_or_row_value_witness :
  exists v,
    fst (extract_sample_value stable_sort (PDict [("response", PInt 5)])
           "payment" "amount" true (world_of [] PNone)) = Ok v
    /\ (v = PNone
        \/ (In v (collect_values "payment" "amount"
                    (rows_of (PDict [("response", PInt 5)])))
            /\ usable v = true)).
Proof.
  apply (sample_is_none_or_row_value stable_sort
           (PDict [("response", PInt 5)]) "payment" "amount" true
           (world_of [] PNone) stable_sort_perm).
Defined.

Lemma selected_numeric_nth (list_sort : list fobj -> list fobj)
  (values : list pyval) :
  (2 <= List.length (sorted_numeric list_sort values))%nat ->
  selected_numeric list_sort values
  = nth_error (sorted_numeric list_sort values)
      (List.length (sorted_numeric list_sort values) / 4
       + (3 * List.length (sorted_numeric list_sort values) / 4
          - List.length (sorted_numeric list_sort values) / 4) / 2)%nat.
Proof.
  intros Hlen. unfold selected_numeric.
  set (sorted := sorted_numeric list_sort values) in *.
  destruct (quartiles (List.length sorted) Hlen) as (Hq1 & Hq2).
  assert (Hsl : List.length (middle_range sorted)
                = (3 * List.length sorted / 4 - List.length sorted / 4)%nat)
    by (apply slice_length, Hq2).
  destruct (middle_range sorted) as [|o mr] eqn:E.
  { cbn [List.length] in Hsl. lia. }
  rewrite Hsl, <- E. unfold middle_range, slice.
  rewrite nth_error_firstn, nth_error_skipn.
  set (k := (3 * List.length sorted / 4 - List.length sorted / 4)%nat).
  pose proof (Nat.div_mod_eq k 2).
  pose proof (Nat.mod_upper_bound k 2 ltac:(discriminate)).
  destruct (Nat.ltb_spec (k / 2) k); [reflexivity | lia].
Qed.

(** X4.  With two numeric values or more, of which [n] is the number, the
    number selected for the comparison sample is the one at index
    [n // 4 + (3 * n // 4 - n // 4) // 2] of the sorted numeric values.  The
    sorted list is the numeric values rearranged and, when none of them is a
    NaN, in ascending order, so that at most that many numeric values are
    smaller than the selected number and more than that many are not
    greater.  The sort is any function that, like [list.sort()], rearranges
    its input and puts a list without NaN in ascending order. *)
Theorem selected_numeric_index (list_sort : list fobj -> list fobj)
  (values : list pyval) :
  (forall l, Permutation (list_sort l) l) ->
  (forall l, Forall no_nan l -> StronglySorted in_order (list_sort l)) ->
  (2 <= List.length (numeric_values values))%nat ->
  let n := List.length (numeric_values values) in
  let idx := (n / 4 + (3 * n / 4 - n / 4) / 2)%nat in
  exists o,
    selected_numeric list_sort values = Some o
    /\ nth_error (sorted_numeric list_sort values) idx = Some o
    /\ Permutation (sorted_numeric list_sort values) (numeric_values values)
    /\ (Forall no_nan (numeric_values values) ->
        StronglySorted in_order (sorted_numeric list_sort values)
        /\ (below o (numeric_values values) <= idx
            /\ idx < not_above o (numeric_values values))%nat).
Proof.
  intros Hperm Hsort Hlen n idx.
  assert (Hn : List.length (sorted_numeric list_sort values) = n)
    by apply Permutation_length, Hperm.
  pose proof (selected_numeric_nth list_sort values) as Hsel.
  rewrite Hn in Hsel. fold idx in Hsel. specialize (Hsel Hlen).
  destruct (quartiles n Hlen) as (Hq1 & Hq2).
  assert (Hidx : (idx < n)%nat).
  { unfold idx.
    pose proof (Nat.div_mod_eq (3 * n / 4 - n / 4) 2).
    pose proof (Nat.mod_upper_bound (3 * n / 4 - n / 4) 2 ltac:(discriminate)).
    lia. }
  destruct (nth_error (sorted_numeric list_sort values) idx) as [o|] eqn:Hnth.
  2:{ apply nth_error_None in Hnth. lia. }
  exists o. split; [exact Hsel|]. split; [reflexivity|].
  split; [apply Hperm|].
  intros Hnn. pose proof (Hsort _ Hnn) as Hs. split; [exact Hs|].
  exact (rank_in_permutation _ _ idx o (Hperm _) Hs Hnth).
Qed.

Lemma selected_numeric_index_witness :
  exists o,
    selected_numeric stable_sort example_values = Some o
    /\ nth_error (sorted_numeric stable_sort example_values) 2 = Some o
    /\ Permutation (sorted_numeric stable_sort example_values)
         (numeric_values example_values)
    /\ (Forall no_nan (numeric_values example_values) ->
        StronglySorted in_order (sorted_numeric stable_sort example_values)
        /\ (below o (numeric_values example_values) <= 2
            /\ 2 < not_above o (numeric_values example_values))%nat).
Proof.
  apply (selected_numeric_index stable_sort example_values stable_sort_perm
           stable_sort_ascending).
  vm_compute. lia.
Defined.

(* ================================================================== *)
(** * [safe_json] *)

Lemma substring_length (n : nat) :
  forall s : string,
    String.length (substring 0 n s) = Nat.min n (String.length s).
Proof.
  induction n as [|n IH]; intros [|c s]; cbn; auto.
Qed.

Lemma substring_prefix (n : nat) :
  forall s : string, prefix (substring 0 n s) s = true.
Proof.
  induction n as [|n IH]; intros [|c s]; cbn; auto.
  destruct (ascii_dec c c); [apply IH | contradiction].
Qed.

Lemma substring_all (n : nat) :
  forall s : string, (String.length s <= n)%nat -> substring 0 n s = s.
Proof.
  induction n as [|n IH]; intros [|c s]; cbn; auto; intros H; try lia.
  f_equal. apply IH. lia.
Qed.

(** X5.  For a response whose body is no JSON, [safe_json] returns a record
    of the status code and of the text cut to its first 4000 characters:
    the whole text when it has at most 4000 characters, and never more than
    4000. *)
Theorem safe_json_truncates (r : Response) :
  json_body r = None ->
  exists s,
    safe_json r
    = PDict [("_raw_text", PStr s); ("_status_code", PInt (status_code r))]
    /\ String.length s = Nat.min 4000 (String.length (text r))
    /\ prefix s (text r) = true
    /\ ((String.length (text r) <= 4000)%nat -> s = text r).
Proof.
  intros H. unfold safe_json. rewrite H.
  exists (substring 0 4000 (text r)).
  split; [reflexivity|]. split; [apply substring_length|].
  split; [apply substring_prefix | apply substring_all].
Qed.

Lemma safe_json_truncates_witness :
  exists s,
    safe_json bad_gateway
    = PDict [("_raw_text", PStr s); ("_status_code", PInt 502)]
    /\ String.length s = Nat.min 4000 (String.length (text bad_gateway))
    /\ prefix s (text bad_gateway) = true
    /\ ((String.length (text bad_gateway) <= 4000)%nat
        -> s = text bad_gateway).
Proof.
  apply (safe_json_truncates bad_gateway). reflexivity.
Defined.

(* ================================================================== *)
(** * What a computation emits *)

Section Emits.

Variable P : Event -> Prop.

Lemma emits_only_ret {A} (a : A) : emits_only P (ret a).
Proof. intros w. exists []. cbn. now rewrite app_nil_r. Qed.

Lemma emits_only_raise {A} (e : exn) : emits_only P (@raise A e).
Proof. intros w. exists []. cbn. now rewrite app_nil_r. Qed.

Lemma emits_only_lift {A} (r : res A) : emits_only P (lift r).
Proof. intros w. exists []. cbn. now rewrite app_nil_r. Qed.

Lemma emits_only_get_token : emits_only P get_token.
Proof. intros w. exists []. cbn. now rewrite app_nil_r. Qed.

Lemma emits_only_set_token (t : pyval) : emits_only P (set_token t).
Proof. intros w. exists []. cbn. now rewrite app_nil_r. Qed.

Lemma emits_only_emit (e : Event) : P e -> emits_only P (emit e).
Proof. intros He w. exists [e]. cbn. split; [reflexivity | now constructor]. Qed.

Lemma emits_only_session_post url headers body as_json timeout :
  P (EPost url headers body as_json timeout) ->
  emits_only P (session_post url headers body as_json timeout).
Proof.
  intros He w. exists [EPost url headers body as_json timeout].
  unfold session_post. destruct (net w (posts w)); cbn; split;
    auto; now constructor.
Qed.

Lemma emits_only_bind {A B} (c : M A) (k : A -> M B) :
  emits_only P c -> (forall a, emits_only P (k a)) ->
  emits_only P (bind c k).
Proof.
  intros Hc Hk w. unfold bind. destruct (Hc w) as (t1 & H1 & P1).
  destruct (c w) as [[a|e] w1]; cbn [snd] in *.
  - destruct (Hk a w1) as (t2 & H2 & P2). exists (t1 ++ t2)%list.
    rewrite H2, H1, app_assoc. split; [reflexivity|].
    apply Forall_app. auto.
  - exists t1. auto.
Qed.

Lemma emits_only_try_request {A B} (c : M A) (h : string -> M B)
  (k : A -> M B) :
  emits_only P c -> (forall e, emits_only P (h e)) ->
  (forall a, emits_only P (k a)) ->
  emits_only P (try_request c h k).
Proof.
  intros Hc Hh Hk w. unfold try_request. destruct (Hc w) as (t1 & H1 & P1).
  destruct (c w) as [[a|[msg| | |]] w1]; cbn [snd] in *;
    try (exists t1; now auto).
  - destruct (Hk a w1) as (t2 & H2 & P2). exists (t1 ++ t2)%list.
    rewrite H2, H1, app_assoc. split; [reflexivity|].
    apply Forall_app. auto.
  - destruct (Hh msg w1) as (t2 & H2 & P2). exists (t1 ++ t2)%list.
    rewrite H2, H1, app_assoc. split; [reflexivity|].
    apply Forall_app. auto.
Qed.

Lemma emits_only_try_except {A} (c : M A) (h : exn -> M A) :
  emits_only P c -> (forall e, emits_only P (h e)) ->
  emits_only P (try_except c h).
Proof.
  intros Hc Hh w. unfold try_except. destruct (Hc w) as (t1 & H1 & P1).
  destruct (c w) as [[a|e] w1]; cbn [snd] in *.
  - exists t1. auto.
  - destruct (Hh e w1) as (t2 & H2 & P2). exists (t1 ++ t2)%list.
    rewrite H2, H1, app_assoc. split; [reflexivity|].
    apply Forall_app. auto.
Qed.

End Emits.

Lemma emits_only_weaken (P Q : Event -> Prop) {A} (c : M A) :
  (forall e, P e -> Q e) -> emits_only P c -> emits_only Q c.
Proof.
  intros HPQ Hc w. destruct (Hc w) as (t & Ht & HP). exists t.
  split; [exact Ht|]. revert HP. apply Forall_impl. exact HPQ.
Qed.

(** One step of a proof that a program emits only [P]: split a sequence, or
    branch as the program does. *)
Ltac emits_step :=
  first
    [ apply emits_only_ret | apply emits_only_raise | apply emits_only_lift
    | apply emits_only_get_token | apply emits_only_set_token
    | apply emits_only_bind; [|intros ?]
    | apply emits_only_try_request; [|intros ?|intros ?]
    | apply emits_only_try_except; [|intros ?]
    | match goal with
      | |- emits_only _ (if ?b then _ else _) => destruct b eqn:?
      | |- emits_only _ (match ?x with _ => _ end) => destruct x eqn:?
      end ].

(* ================================================================== *)
(** * More on [post_with_retry] *)

Lemma emits_only_retry_loop url headers data retries timeout :
  forall (n k : nat),
    n = 0%nat \/ retries = Z.of_nat (k + n) ->
    emits_only (retry_event url headers data retries timeout)
      (retry_loop (map (fun i => 1 + Z.of_nat i) (seq k n)) retries
         (2 ^ Z.of_nat k) url headers data timeout).
Proof.
  induction n as [|n IH]; intros k Hn; cbn [seq map retry_loop].
  - apply emits_only_ret.
  - destruct Hn as [Hn|Hn]; [discriminate|].
    apply emits_only_try_request.
    + apply emits_only_session_post. now left.
    + intros e. apply emits_only_bind.
      * apply emits_only_emit. right. now left.
      * intros _.
        destruct (Z.eqb_spec (1 + Z.of_nat k) retries) as [E|E];
          [apply emits_only_raise|].
        apply emits_only_bind.
        -- apply emits_only_emit. right. right. exists k. split; [lia|auto].
        -- intros _.
           replace (2 ^ Z.of_nat k * 2) with (2 ^ Z.of_nat (S k))
             by (rewrite Nat2Z.inj_succ, Z.pow_succ_r; lia).
           apply IH. right. lia.
    + intros r. apply emits_only_ret.
Qed.

Lemma emits_only_post_with_retry url headers data retries timeout :
  emits_only (retry_event url headers data retries timeout)
    (post_with_retry url headers data retries timeout).
Proof.
  unfold post_with_retry, range. rewrite Z.add_simpl_r.
  apply (emits_only_retry_loop url headers data retries timeout
           (Z.to_nat retries) 0).
  destruct (Z.to_nat retries) eqn:E; [now left | right; lia].
Qed.

Lemma retry_loop_keeps_token url headers data retries timeout :
  forall attempts delay w,
    token (snd (retry_loop attempts retries delay url headers data timeout w))
    = token w.
Proof.
  induction attempts as [|attempt rest IH]; intros delay w; cbn [retry_loop].
  - reflexivity.
  - run. destruct (net w (posts w)); cbn [snd token]; [reflexivity|].
    destruct (attempt =? retries); cbn [snd token]; [reflexivity|].
    now rewrite IH.
Qed.

(** X6.  With [retries <= 0] the loop body never runs: [post_with_retry]
    posts nothing, sleeps never and returns [None]. *)
Theorem post_with_retry_without_attempts (url : string)
  (headers data : list (string * pyval)) (retries timeout : Z) (w : World) :
  retries <= 0 ->
  post_with_retry url headers data retries timeout w = (Ok None, w).
Proof.
  intros H. unfold post_with_retry, range.
  replace (Z.to_nat (retries + 1 - 1)) with 0%nat by lia. reflexivity.
Qed.

Lemma post_with_retry_without_attempts_witness :
  post_with_retry REPORT_URL [] [] 0 30 flaky_world = (Ok None, flaky_world).
Proof.
  apply (post_with_retry_without_attempts REPORT_URL [] [] 0 30 flaky_world).
  lia.
Defined.

(** X7.  Every attempt of [post_with_retry] posts the same request: same
    address, headers, form data and timeout.  Besides the posts it only logs
    its warning and sleeps [2^k] seconds with [k + 2 <= retries], and it
    leaves the token slot alone. *)
Theorem post_with_retry_resends_request (url : string)
  (headers data : list (string * pyval)) (retries timeout : Z) (w : World) :
  exists t,
    trace (snd (post_with_retry url headers data retries timeout w))
    = (trace w ++ t)%list
    /\ Forall (retry_event url headers data retries timeout) t
    /\ token (snd (post_with_retry url headers data retries timeout w))
       = token w.
Proof.
  destruct (emits_only_post_with_retry url headers data retries timeout w)
    as (t & Ht & HP).
  exists t. repeat split; auto. apply retry_loop_keeps_token.
Qed.

(* ================================================================== *)
(** * More on the token manager *)

(** What [login] returns and what it leaves in the token slot. *)
Lemma login_slot (tm : TokenManager) (timeout : Z) (w w' : World)
  (t : pyval) :
  login tm timeout w = (Ok t, w') ->
  (truthy t = true /\ token w' = t) \/ (t = PNone /\ token w' = token w).
Proof.
  unfold login. run.
  destruct (net w (posts w)) as [r|msg];
    [|intros [= <- <-]; right; now split].
  destruct (negb (ok r)); [intros [= <- <-]; right; now split|].
  destruct (safe_json r) as [| | | | |l|d]; run; cbn [truthy negb];
    try (intros [= <- <-]; right; now split).
  unfold access_token_of.
  destruct (dict_get "data" d) as [[| | | | |l|data]|]; cbn [truthy negb];
    try discriminate; try (intros [= <- <-]; right; now split).
  destruct (dict_get "access_token" data) as [tok|]; cbn [truthy negb];
    [|intros [= <- <-]; right; now split].
  destruct (truthy tok) eqn:Htok; cbn [negb];
    [|intros [= <- <-]; right; now split].
  destruct (py_len tok); [|discriminate].
  intros [= <- <-]. left. now split.
Qed.

(** When [login] raises, the slot holds no token or the one that has no
    length. *)
Lemma login_raise_slot (tm : TokenManager) (timeout : Z) (w w' : World)
  (e : exn) :
  login tm timeout w = (Raise e, w') ->
  (e = AttributeError /\ token w' = token w)
  \/ (e = TypeError /\ truthy (token w') = true /\ py_len (token w') = None).
Proof.
  unfold login. run.
  destruct (net w (posts w)) as [r|msg]; [|discriminate].
  destruct (negb (ok r)); [discriminate|].
  destruct (safe_json r) as [| | | | |l|d]; run; cbn [truthy negb];
    try discriminate.
  unfold access_token_of.
  destruct (dict_get "data" d) as [[| | | | |l|data]|]; cbn [truthy negb];
    try discriminate; try (intros [= <- <-]; left; now split).
  destruct (dict_get "access_token" data) as [tok|]; cbn [truthy negb];
    [|discriminate].
  destruct (truthy tok) eqn:Htok; cbn [negb]; [|discriminate].
  destruct (py_len tok) eqn:Hlen; [discriminate|].
  intros [= <- <-]. right. cbn [token]. auto.
Qed.

Lemma emits_only_login (tm : TokenManager) (timeout : Z) :
  emits_only (login_event tm timeout) (login tm timeout).
Proof.
  unfold login.
  repeat first
    [ apply emits_only_session_post; left; reflexivity
    | apply emits_only_emit; right; eexists; reflexivity
    | emits_step ].
Qed.

Lemma get_cached (tm : TokenManager) (w : World) :
  truthy (token w) = true -> get tm w = (Ok (token w), w).
Proof.
  intros H. unfold get. run. now rewrite H.
Qed.

(** X8.  A [login] that returns a token has stored it: the next [get] returns
    the same token without posting anything.  A [login] that returns [None]
    leaves the token slot as it was. *)
Theorem login_stores_token (tm : TokenManager) (timeout : Z) (w w' : World)
  (t : pyval) :
  login tm timeout w = (Ok t, w') ->
  (t <> PNone -> token w' = t /\ get tm w' = (Ok t, w'))
  /\ (t = PNone -> token w' = token w).
Proof.
  intros H. destruct (login_slot tm timeout w w' t H) as [(Ht & Hs)|(-> & Hs)].
  - split; [|intros ->; discriminate Ht].
    intros _. split; [exact Hs|].
    rewrite <- Hs in Ht |- *. apply get_cached, Ht.
  - split; [congruence | auto].
Qed.

Lemma login_stores_token_witness :
  (PStr "abc" <> PNone ->
   token (snd (login the_manager 10
                 (world_of [Arrives (response_of 200 (token_body (PStr "abc")))]
                    PNone))) = PStr "abc"
   /\ get the_manager
        (snd (login the_manager 10
                (world_of [Arrives (response_of 200 (token_body (PStr "abc")))]
                   PNone)))
      = (Ok (PStr "abc"),
         snd (login the_manager 10
                (world_of [Arrives (response_of 200 (token_body (PStr "abc")))]
                   PNone))))
  /\ (PStr "abc" = PNone ->
      token (snd (login the_manager 10
                    (world_of
                       [Arrives (response_of 200 (token_body (PStr "abc")))]
                       PNone))) = PNone).
Proof.
  apply (login_stores_token the_manager 10
           (world_of [Arrives (response_of 200 (token_body (PStr "abc")))] PNone)
           (snd (login the_manager 10
                   (world_of
                      [Arrives (response_of 200 (token_body (PStr "abc")))]
                      PNone)))
           (PStr "abc")).
  reflexivity.
Defined.

(** X9.  After [refresh] the old token is gone: when [refresh] returns, the
    slot holds exactly what it returned, the fresh token or [None]; when it
    raises, the slot is empty or holds the token just received.  In no case
    does the slot keep a token that [refresh] did not obtain. *)
Theorem refresh_drops_old_token (tm : TokenManager) (w : World) :
  match refresh tm w with
  | (Ok t, w') => token w' = t /\ (truthy t = false -> t = PNone)
  | (Raise AttributeError, w') => token w' = PNone
  | (Raise _, w') => truthy (token w') = true /\ py_len (token w') = None
  end.
Proof.
  unfold refresh. unfold bind at 1. unfold set_token at 1.
  set (w0 := {| net := net w; posts := posts w; token := PNone;
                trace := trace w |}).
  destruct (login tm 10 w0) as [[t|e] w'] eqn:H.
  - destruct (login_slot tm 10 w0 w' t H) as [(Ht & Hs)|(-> & Hs)].
    + split; [exact Hs | congruence].
    + split; [exact Hs | auto].
  - destruct (login_raise_slot tm 10 w0 w' e H)
      as [(-> & Hs)|(-> & Ht & Hl)]; [exact Hs | auto].
Qed.

Lemma login_events_posts (tm : TokenManager) (timeout : Z) (t : list Event) :
  Forall (login_event tm timeout) t ->
  posts_to LOGIN_URL t
  = repeat ([("Accept", PStr "application/json");
             ("Content-Type", PStr "application/json")],
            [("email", PStr (email tm)); ("password", PStr (password tm))])
      (List.length (all_posts t)).
Proof.
  induction 1 as [|e t He _ IH]; [reflexivity|].
  destruct He as [->|(fmt & ->)]; cbn; [f_equal|]; exact IH.
Qed.

(** X10.  [login] is never retried: whatever the answer, it posts exactly one
    request, the credentials as a JSON body to the login address, and besides
    that only logs errors. *)
Theorem login_posts_credentials_once (tm : TokenManager) (timeout : Z)
  (w : World) :
  exists t,
    trace (snd (login tm timeout w)) = (trace w ++ t)%list
    /\ Forall (login_event tm timeout) t
    /\ all_posts t = [LOGIN_URL]
    /\ posts_to LOGIN_URL t
       = [([("Accept", PStr "application/json");
            ("Content-Type", PStr "application/json")],
           [("email", PStr (email tm)); ("password", PStr (password tm))])].
Proof.
  destruct (emits_only_login tm timeout w) as (t & Ht & HP).
  destruct (login_posts_once tm timeout w) as (t' & Ht' & Hall & _).
  rewrite Ht in Ht'. apply app_inv_head in Ht'. subst t'.
  exists t. repeat split; auto.
  rewrite (login_events_posts tm timeout t HP), Hall. reflexivity.
Qed.

(* ================================================================== *)
(** * More on [fetch_field_data] *)

Lemma emits_only_get (tm : TokenManager) :
  emits_only (login_event tm 10) (get tm).
Proof.
  unfold get. apply emits_only_bind; [apply emits_only_get_token|].
  intros t. destruct (negb (truthy t));
    [apply emits_only_login | apply emits_only_ret].
Qed.

Lemma emits_only_refresh (tm : TokenManager) :
  emits_only (login_event tm 10) (refresh tm).
Proof.
  unfold refresh. apply emits_only_bind; [apply emits_only_set_token|].
  intros _. apply emits_only_login.
Qed.

(** Two attempts: [post_with_retry] with [retries=2], outcome by outcome. *)
Lemma two_attempts (url : string) (headers data : list (string * pyval))
  (timeout : Z) (w : World) :
  post_with_retry url headers data 2 timeout w
  = match net w (posts w) with
    | Arrives r =>
        (Ok (Some r),
         {| net := net w; posts := S (posts w); token := token w;
            trace := trace w ++ [EPost url headers data false timeout] |})
    | Fails _ =>
        match net w (S (posts w)) with
        | Arrives r =>
            (Ok (Some r),
             {| net := net w; posts := S (S (posts w)); token := token w;
                trace := trace w
                         ++ [EPost url headers data false timeout;
                             ELog "WARNING"
                               "Request failed (attempt %d/%d): %s";
                             ESleep (PInt 1);
                             EPost url headers data false timeout] |})
        | Fails msg =>
            (Raise (RequestException msg),
             {| net := net w; posts := S (S (posts w)); token := token w;
                trace := trace w
                         ++ [EPost url headers data false timeout;
                             ELog "WARNING"
                               "Request failed (attempt %d/%d): %s";
                             ESleep (PInt 1);
                             EPost url headers data false timeout;
                             ELog "WARNING"
                               "Request failed (attempt %d/%d): %s"] |})
        end
    end.
Proof.
  unfold post_with_retry.
  change (range 1 (2 + 1)) with [1; 2]. cbn [retry_loop]. run.
  destruct (net w (posts w)); [reflexivity|].
  change (1 =? 2) with false. change (2 =? 2) with true. cbv beta iota.
  cbn [net posts token trace].
  destruct (net w (S (posts w))); cbv beta iota; cbn [net posts token trace];
    rewrite <- ?app_assoc; reflexivity.
Qed.

(** X11.  Without a token no report request is sent: when [get] yields no
    token, [fetch_field_data] logs the error and returns [None]; the only
    request of the call is the login attempt. *)
Theorem fetch_without_token (tm : TokenManager) (group field : string)
  (filter_operator filter_value : pyval) (timeout : Z) (w w0 : World)
  (t : pyval) :
  get tm w = (Ok t, w0) ->
  truthy t = false ->
  exists w' tr,
    fetch_field_data tm group field filter_operator filter_value timeout w
    = (Ok None, w')
    /\ trace w' = (trace w ++ tr)%list
    /\ all_posts tr = [LOGIN_URL]
    /\ posts_to REPORT_URL tr = []
    /\ last (logged tr) (EmptyString, EmptyString)
       = ("ERROR", "No token available for request to %s.%s").
Proof.
  intros Hget Ht.
  assert (Hlogin : login tm 10 w = (Ok t, w0)).
  { revert Hget. unfold get. run.
    destruct (truthy (token w)) eqn:E; cbn [negb]; [|auto].
    intros [= <- <-]. congruence. }
  destruct (login_posts_once tm 10 w) as (tl & Htl & Hall & Hrep & _).
  rewrite Hlogin in Htl. cbn [snd] in Htl.
  unfold fetch_field_data. unfold bind at 1. rewrite Hget, Ht. run.
  do 2 eexists. split; [reflexivity|]. cbn [trace].
  split; [rewrite Htl, <- app_assoc; reflexivity|].
  rewrite all_posts_app, posts_to_app, Hall, Hrep. cbn.
  repeat split.
  assert (Hlog : forall l : list (string * string),
             last (l ++ [("ERROR", "No token available for request to %s.%s")])
               (EmptyString, EmptyString)
             = ("ERROR", "No token available for request to %s.%s"))
    by (intros l; apply last_last).
  clear - Hlog. induction tl as [|e tl IH]; [reflexivity|].
  specialize (Hlog (logged (e :: tl))). revert Hlog.
  assert (Happ : forall a b, logged (a ++ b) = (logged a ++ logged b)%list).
  { induction a as [|x a IHa]; intros b; [reflexivity|].
    destruct x; cbn; rewrite ?IHa; reflexivity. }
  rewrite Happ. auto.
Qed.

Lemma fetch_without_token_witness :
  exists w' tr,
    fetch_field_data the_manager "payment" "amount" PNone PNone 30
      (world_of [Arrives server_error] PNone) = (Ok None, w')
    /\ trace w' = (trace (world_of [Arrives server_error] PNone) ++ tr)%list
    /\ all_posts tr = [LOGIN_URL]
    /\ posts_to REPORT_URL tr = []
    /\ last (logged tr) (EmptyString, EmptyString)
       = ("ERROR", "No token available for request to %s.%s").
Proof.
  apply (fetch_without_token the_manager "payment" "amount" PNone PNone 30
           (world_of [Arrives server_error] PNone)
           (snd (get the_manager (world_of [Arrives server_error] PNone)))
           PNone); reflexivity.
Defined.

(** X12.  A response whose status is not 401 is returned as it arrives: with
    a token in the slot, [fetch_field_data] posts the request once, with the
    Authorization header of that token, and returns the response whatever its
    status (a 500, say), without re-login and without retry. *)
Theorem fetch_returns_other_status (tm : TokenManager) (group field : string)
  (filter_operator filter_value : pyval) (timeout : Z) (w : World)
  (r : Response) :
  truthy (token w) = true ->
  net w (posts w) = Arrives r ->
  status_code r <> 401 ->
  fetch_field_data tm group field filter_operator filter_value timeout w
  = (Ok (Some r),
     {| net := net w; posts := S (posts w); token := token w;
        trace := trace w
                 ++ [EPost REPORT_URL (report_headers (token w))
                       (report_payload group field filter_operator filter_value)
                       false timeout] |}).
Proof.
  intros Htok Hnet Hst.
  unfold fetch_field_data. unfold bind at 1.
  rewrite (get_cached tm w Htok), Htok. cbn [negb].
  unfold try_request. rewrite two_attempts, Hnet.
  destruct (Z.eqb_spec (status_code r) 401); [contradiction | reflexivity].
Qed.

Lemma fetch_returns_other_status_witness :
  fetch_field_data the_manager "payment" "amount" PNone PNone 30
    (world_of [Arrives server_error] (PStr "old"))
  = (Ok (Some server_error),
     {| net := net (world_of [Arrives server_error] (PStr "old"));
        posts := 1; token := PStr "old";
        trace := [EPost REPORT_URL (report_headers (PStr "old"))
                    (report_payload "payment" "amount" PNone PNone)
                    false 30] |}).
Proof.
  apply (fetch_returns_other_status the_manager "payment" "amount" PNone PNone
           30 (world_of [Arrives server_error] (PStr "old")) server_error);
    [reflexivity | reflexivity | discriminate].
Defined.

Lemma fetch_two_failures (tm : TokenManager)
  (group field : string) (filter_operator filter_value : pyval) (timeout : Z)
  (w : World) (m1 m2 : string) :
  truthy (token w) = true ->
  net w (posts w) = Fails m1 ->
  net w (S (posts w)) = Fails m2 ->
  fetch_field_data tm group field filter_operator filter_value timeout w
  = (Ok None,
     {| net := net w; posts := S (S (posts w)); token := token w;
        trace := trace w
                 ++ [EPost REPORT_URL (report_headers (token w))
                       (report_payload group field filter_operator filter_value)
                       false timeout;
                     ELog "WARNING" "Request failed (attempt %d/%d): %s";
                     ESleep (PInt 1);
                     EPost REPORT_URL (report_headers (token w))
                       (report_payload group field filter_operator filter_value)
                       false timeout;
                     ELog "WARNING" "Request failed (attempt %d/%d): %s";
                     ELog "ERROR" "Network error fetching %s.%s: %s"] |}).
Proof.
  intros Htok H1 H2.
  unfold fetch_field_data. unfold bind at 1.
  rewrite (get_cached tm w Htok), Htok. cbn [negb].
  unfold try_request. rewrite two_attempts, H1, H2. run.
  now rewrite <- app_assoc.
Qed.

(** X13.  When both attempts of the request fail at the network level,
    [fetch_field_data] returns [None] and raises nothing: it has posted the
    request twice, slept one second in between, logged the two warnings and
    the error, and left the token slot alone. *)
Theorem fetch_gives_up_after_two_failures (tm : TokenManager)
  (group field : string) (filter_operator filter_value : pyval) (timeout : Z)
  (w : World) (m1 m2 : string) :
  truthy (token w) = true ->
  net w (posts w) = Fails m1 ->
  net w (S (posts w)) = Fails m2 ->
  fetch_field_data tm group field filter_operator filter_value timeout w
  = (Ok None,
     {| net := net w; posts := S (S (posts w)); token := token w;
        trace := trace w
                 ++ [EPost REPORT_URL (report_headers (token w))
                       (report_payload group field filter_operator filter_value)
                       false timeout;
                     ELog "WARNING" "Request failed (attempt %d/%d): %s";
                     ESleep (PInt 1);
                     EPost REPORT_URL (report_headers (token w))
                       (report_payload group field filter_operator filter_value)
                       false timeout;
                     ELog "WARNING" "Request failed (attempt %d/%d): %s";
                     ELog "ERROR" "Network error fetching %s.%s: %s"] |}).
Proof. apply fetch_two_failures. Qed.

Lemma fetch_gives_up_after_two_failures_witness :
  fst (fetch_field_data the_manager "payment" "amount" PNone PNone 30
         (world_of [Fails "timed out"; Fails "connection reset"] (PStr "old")))
  = Ok None.
Proof.
  rewrite (fetch_gives_up_after_two_failures the_manager "payment" "amount"
             PNone PNone 30
             (world_of [Fails "timed out"; Fails "connection reset"]
                (PStr "old"))
             "timed out" "connection reset"); reflexivity.
Defined.

Lemma emits_only_fetch_field_data (tm : TokenManager)
  (group field : string) (filter_operator filter_value : pyval) (timeout : Z) :
  emits_only (fetch_event tm group field filter_operator filter_value timeout)
    (fetch_field_data tm group field filter_operator filter_value timeout).
Proof.
  assert (Hlogin : forall e, login_event tm 10 e ->
            fetch_event tm group field filter_operator filter_value timeout e).
  { intros e [->|(fmt & ->)]; [now left|].
    right. right. left. now do 2 eexists. }
  assert (Hlog : forall fmt,
            emits_only
              (fetch_event tm group field filter_operator filter_value timeout)
              (log_error fmt)).
  { intros fmt. apply emits_only_emit. right. right. left. now do 2 eexists. }
  assert (Hretry : forall tok n,
            truthy tok = true -> n <= 2 ->
            emits_only
              (fetch_event tm group field filter_operator filter_value timeout)
              (post_with_retry REPORT_URL (report_headers tok)
                 (report_payload group field filter_operator filter_value)
                 n timeout)).
  { intros tok n Htok Hn.
    apply (emits_only_weaken
             (retry_event REPORT_URL (report_headers tok)
                (report_payload group field filter_operator filter_value)
                n timeout)); [|apply emits_only_post_with_retry].
    intros e [->|[->|(k & Hk & ->)]].
    - right. left. now exists tok.
    - right. right. left. now do 2 eexists.
    - right. right. right. assert (k = 0%nat) by lia. now subst k. }
  unfold fetch_field_data.
  apply emits_only_bind;
    [apply (emits_only_weaken _ _ _ Hlogin), emits_only_get|].
  intros tok. destruct (truthy tok) eqn:Htok; cbn [negb].
  2:{ apply emits_only_bind; [apply Hlog | intros _; apply emits_only_ret]. }
  apply emits_only_try_request; [apply Hretry; [exact Htok | lia]| |].
  { intros _. apply emits_only_bind; [apply Hlog|].
    intros _. apply emits_only_ret. }
  intros [r|]; [|apply emits_only_raise].
  destruct (status_code r =? 401); [|apply emits_only_ret].
  apply emits_only_bind.
  { apply emits_only_emit. right. right. left. now do 2 eexists. }
  intros _. apply emits_only_bind;
    [apply (emits_only_weaken _ _ _ Hlogin), emits_only_refresh|].
  intros new_token. destruct (truthy new_token) eqn:Hnew; cbn [negb].
  2:{ apply emits_only_bind; [apply Hlog | intros _; apply emits_only_ret]. }
  apply emits_only_try_request.
  - apply (Hretry new_token 1 Hnew). lia.
  - intros _. apply emits_only_bind; [apply Hlog|].
    intros _. apply emits_only_ret.
  - intros [r'|]; [apply emits_only_ret | apply emits_only_raise].
Qed.

(** X14.  Every request [fetch_field_data] posts is either the login request,
    the credentials to the login address, or a form-encoded request to the
    report address that carries the payload of this field and filter, the
    same on every attempt, and the Authorization header of a non-empty token.
    Besides posting it only logs and sleeps one second: it writes no file. *)
Theorem fetch_posts_only_its_request (tm : TokenManager)
  (group field : string) (filter_operator filter_value : pyval) (timeout : Z)
  (w : World) :
  exists t,
    trace (snd (fetch_field_data tm group field filter_operator filter_value
                  timeout w)) = (trace w ++ t)%list
    /\ Forall (fetch_event tm group field filter_operator filter_value timeout)
         t
    /\ written_files t = [].
Proof.
  destruct (emits_only_fetch_field_data tm group field filter_operator
              filter_value timeout w) as (t & Ht & HP).
  exists t. split; [exact Ht|]. split; [exact HP|].
  clear Ht. induction HP as [|e t He _ IH]; [reflexivity|].
  destruct He as [->|[(tok & _ & ->)|[(level & fmt & ->)| ->]]]; exact IH.
Qed.

(* ================================================================== *)
(** * How many requests a computation posts *)

Lemma posts_to_none (url : string) (t : list Event) :
  Forall (not_post_to url) t -> posts_to url t = [].
Proof.
  induction 1 as [|e t He _ IH]; [reflexivity|].
  destruct e; cbn; auto. cbn in He.
  destruct (String.eqb_spec url0 url); [contradiction | exact IH].
Qed.

Section Budget.

Variable url : string.

Lemma posts_at_most_quiet {A} (c : M A) (n : nat) :
  emits_only (not_post_to url) c -> posts_at_most url n c.
Proof.
  intros Hc w. destruct (Hc w) as (t & Ht & HP). exists t.
  split; [exact Ht|]. rewrite (posts_to_none url t HP). cbn. lia.
Qed.

Lemma posts_at_most_bind {A B} (n1 n2 : nat) (c : M A) (k : A -> M B) :
  posts_at_most url n1 c -> (forall a, posts_at_most url n2 (k a)) ->
  posts_at_most url (n1 + n2) (bind c k).
Proof.
  intros Hc Hk w. unfold bind. destruct (Hc w) as (t1 & H1 & P1).
  destruct (c w) as [[a|e] w1]; cbn [snd] in *.
  - destruct (Hk a w1) as (t2 & H2 & P2). exists (t1 ++ t2)%list.
    rewrite H2, H1, app_assoc, posts_to_app, length_app.
    split; [reflexivity | lia].
  - exists t1. split; [exact H1 | lia].
Qed.

Lemma posts_at_most_try_request {A B} (n1 n2 : nat) (c : M A)
  (h : string -> M B) (k : A -> M B) :
  posts_at_most url n1 c -> (forall e, posts_at_most url n2 (h e)) ->
  (forall a, posts_at_most url n2 (k a)) ->
  posts_at_most url (n1 + n2) (try_request c h k).
Proof.
  intros Hc Hh Hk w. unfold try_request. destruct (Hc w) as (t1 & H1 & P1).
  destruct (c w) as [[a|[msg| | |]] w1]; cbn [snd] in *;
    try (exists t1; split; [exact H1 | lia]).
  - destruct (Hk a w1) as (t2 & H2 & P2). exists (t1 ++ t2)%list.
    rewrite H2, H1, app_assoc, posts_to_app, length_app.
    split; [reflexivity | lia].
  - destruct (Hh msg w1) as (t2 & H2 & P2). exists (t1 ++ t2)%list.
    rewrite H2, H1, app_assoc, posts_to_app, length_app.
    split; [reflexivity | lia].
Qed.

Lemma posts_at_most_retry_loop u headers data retries timeout :
  forall attempts delay,
    posts_at_most url (List.length attempts)
      (retry_loop attempts retries delay u headers data timeout).
Proof.
  induction attempts as [|attempt rest IH]; intros delay w;
    cbn [retry_loop List.length].
  - exists []. cbn. rewrite app_nil_r. split; [reflexivity | lia].
  - run. destruct (net w (posts w)) as [r|msg]; cbn [snd trace].
    + eexists. split; [reflexivity|]. cbn. destruct (u =? url)%string; cbn; lia.
    + destruct (attempt =? retries); cbn [snd trace].
      * eexists. split; [rewrite <- app_assoc; reflexivity|].
        cbn. destruct (u =? url)%string; cbn; lia.
      * match goal with
        | |- context [retry_loop rest retries ?d u headers data timeout ?w2] =>
            destruct (IH d w2) as (t & Ht & Hn)
        end.
        rewrite Ht. cbn [trace]. eexists.
        split; [rewrite <- !app_assoc; reflexivity|].
        cbn. destruct (u =? url)%string; cbn; lia.
Qed.

End Budget.

Lemma login_event_not_report (tm : TokenManager) (timeout : Z) (e : Event) :
  login_event tm timeout e -> not_post_to REPORT_URL e.
Proof. intros [->|(fmt & ->)]; cbn; [discriminate | exact I]. Qed.

Lemma retry_event_not_login (headers data : list (string * pyval))
  (retries timeout : Z) (e : Event) :
  retry_event REPORT_URL headers data retries timeout e ->
  not_post_to LOGIN_URL e.
Proof.
  intros [->|[->|(k & _ & ->)]]; cbn; [discriminate | exact I | exact I].
Qed.

Lemma posts_at_most_log (url : string) (n : nat) (e : Event) :
  not_post_to url e -> posts_at_most url n (emit e).
Proof.
  intros He. apply posts_at_most_quiet, emits_only_emit, He.
Qed.

Lemma posts_at_most_ret (url : string) (n : nat) {A} (a : A) :
  posts_at_most url n (ret a).
Proof. apply posts_at_most_quiet, emits_only_ret. Qed.

Lemma posts_at_most_raise (url : string) (n : nat) {A} (e : exn) :
  posts_at_most url n (@raise A e).
Proof. apply posts_at_most_quiet, emits_only_raise. Qed.

Lemma report_budget (tm : TokenManager) (group field : string)
  (filter_operator filter_value : pyval) (timeout : Z) :
  posts_at_most REPORT_URL 3
    (fetch_field_data tm group field filter_operator filter_value timeout).
Proof.
  assert (Hlog : forall fmt A (a : A),
            posts_at_most REPORT_URL 0 (log_error fmt ;; ret a)).
  { intros. apply (posts_at_most_bind REPORT_URL 0 0);
      [apply posts_at_most_log; exact I | intros; apply posts_at_most_ret]. }
  unfold fetch_field_data.
  apply (posts_at_most_bind REPORT_URL 0 3).
  { apply posts_at_most_quiet.
    apply (emits_only_weaken _ _ _ (login_event_not_report tm 10)),
      emits_only_get. }
  intros tok. destruct (negb (truthy tok)).
  { apply (posts_at_most_bind REPORT_URL 0 3);
      [apply posts_at_most_log; exact I | intros; apply posts_at_most_ret]. }
  apply (posts_at_most_try_request REPORT_URL 2 1).
  { apply (posts_at_most_retry_loop REPORT_URL REPORT_URL _ _ 2 timeout [1; 2]). }
  { intros _. apply (posts_at_most_bind REPORT_URL 0 1);
      [apply posts_at_most_log; exact I | intros; apply posts_at_most_ret]. }
  intros [r|]; [|apply posts_at_most_raise].
  destruct (status_code r =? 401); [|apply posts_at_most_ret].
  apply (posts_at_most_bind REPORT_URL 0 1);
    [apply posts_at_most_log; exact I|].
  intros _. apply (posts_at_most_bind REPORT_URL 0 1).
  { apply posts_at_most_quiet.
    apply (emits_only_weaken _ _ _ (login_event_not_report tm 10)),
      emits_only_refresh. }
  intros new_token. destruct (negb (truthy new_token)).
  { apply (posts_at_most_bind REPORT_URL 0 1);
      [apply posts_at_most_log; exact I | intros; apply posts_at_most_ret]. }
  apply (posts_at_most_try_request REPORT_URL 1 0).
  { apply (posts_at_most_retry_loop REPORT_URL REPORT_URL _ _ 1 timeout [1]). }
  { intros _. apply Hlog. }
  intros [r'|]; [apply posts_at_most_ret | apply posts_at_most_raise].
Qed.

Lemma posts_to_le_all (url : string) (t : list Event) :
  (List.length (posts_to url t) <= List.length (all_posts t))%nat.
Proof.
  induction t as [|e t IH]; cbn; [lia|].
  destruct e; cbn; try exact IH. destruct (url0 =? url)%string; cbn; lia.
Qed.

Lemma posts_at_most_login (url : string) (tm : TokenManager) (timeout : Z) :
  posts_at_most url 1 (login tm timeout).
Proof.
  intros w. destruct (login_posts_once tm timeout w) as (t & Ht & Hall & _).
  exists t. split; [exact Ht|].
  pose proof (posts_to_le_all url t) as H. rewrite Hall in H. exact H.
Qed.

Lemma posts_at_most_weaken (url : string) (n m : nat) {A} (c : M A) :
  (n <= m)%nat -> posts_at_most url n c -> posts_at_most url m c.
Proof.
  intros Hnm Hc w. destruct (Hc w) as (t & Ht & Hn). exists t.
  split; [exact Ht | lia].
Qed.

Lemma posts_at_most_get (url : string) (tm : TokenManager) :
  posts_at_most url 1 (get tm).
Proof.
  unfold get. apply (posts_at_most_bind url 0 1).
  - apply posts_at_most_quiet, emits_only_get_token.
  - intros t. destruct (negb (truthy t));
      [apply posts_at_most_login | apply posts_at_most_ret].
Qed.

Lemma posts_at_most_refresh (url : string) (tm : TokenManager) :
  posts_at_most url 1 (refresh tm).
Proof.
  unfold refresh. apply (posts_at_most_bind url 0 1).
  - apply posts_at_most_quiet, emits_only_set_token.
  - intros _. apply posts_at_most_login.
Qed.

Lemma login_budget (tm : TokenManager) (group field : string)
  (filter_operator filter_value : pyval) (timeout : Z) :
  posts_at_most LOGIN_URL 2
    (fetch_field_data tm group field filter_operator filter_value timeout).
Proof.
  assert (Hretry : forall headers data n,
            posts_at_most LOGIN_URL 0
              (post_with_retry REPORT_URL headers data n timeout)).
  { intros. apply posts_at_most_quiet.
    apply (emits_only_weaken _ _ _
             (retry_event_not_login headers data n timeout)),
      emits_only_post_with_retry. }
  assert (Hlog : forall fmt A (a : A),
            posts_at_most LOGIN_URL 0 (log_error fmt ;; ret a)).
  { intros. apply (posts_at_most_bind LOGIN_URL 0 0);
      [apply posts_at_most_log; exact I | intros; apply posts_at_most_ret]. }
  unfold fetch_field_data.
  apply (posts_at_most_bind LOGIN_URL 1 1); [apply posts_at_most_get|].
  intros tok. destruct (negb (truthy tok)).
  { apply (posts_at_most_weaken LOGIN_URL 0); [lia | apply Hlog]. }
  apply (posts_at_most_try_request LOGIN_URL 0 1); [apply Hretry| |].
  { intros _. apply (posts_at_most_weaken LOGIN_URL 0); [lia | apply Hlog]. }
  intros [r|]; [|apply posts_at_most_raise].
  destruct (status_code r =? 401); [|apply posts_at_most_ret].
  apply (posts_at_most_bind LOGIN_URL 0 1);
    [apply posts_at_most_log; exact I|].
  intros _. apply (posts_at_most_bind LOGIN_URL 1 0);
    [apply posts_at_most_refresh|].
  intros new_token. destruct (negb (truthy new_token)); [apply Hlog|].
  apply (posts_at_most_try_request LOGIN_URL 0 0); [apply Hretry| |].
  { intros _. apply Hlog. }
  intros [r'|]; [apply posts_at_most_ret | apply posts_at_most_raise].
Qed.

(** X15.  One call of [fetch_field_data] posts at most three report requests
    (two attempts, and one more after a 401) and at most two login requests
    (one when no token is cached, one after a 401), whatever the network
    does. *)
Theorem fetch_request_budget (tm : TokenManager) (group field : string)
  (filter_operator filter_value : pyval) (timeout : Z) (w : World) :
  exists t,
    trace (snd (fetch_field_data tm group field filter_operator filter_value
                  timeout w)) = (trace w ++ t)%list
    /\ (List.length (posts_to REPORT_URL t) <= 3)%nat
    /\ (List.length (posts_to LOGIN_URL t) <= 2)%nat.
Proof.
  destruct (report_budget tm group field filter_operator filter_value timeout w)
    as (t & Ht & Hr).
  destruct (login_budget tm group field filter_operator filter_value timeout w)
    as (t' & Ht' & Hl).
  rewrite Ht in Ht'. apply app_inv_head in Ht'. subst t'.
  exists t. auto.
Qed.

(* ================================================================== *)
(** * The filter loop and the files of [process_field] *)

Lemma written_app (t1 t2 : list Event) :
  written (t1 ++ t2) = (written t1 ++ written t2)%list.
Proof.
  induction t1 as [|e t1 IH]; simpl; [reflexivity|].
  destruct e; auto. now rewrite IH.
Qed.

Lemma written_files_written (t : list Event) :
  written_files t = map fst (written t).
Proof.
  induction t as [|e t IH]; simpl; [reflexivity|].
  destruct e; auto. cbn. now rewrite IH.
Qed.

Lemma written_none (t : list Event) : written_files t = [] -> written t = [].
Proof.
  rewrite written_files_written. destruct (written t); [auto | discriminate].
Qed.

(** One round of the filter loop. *)
Lemma apply_filters_step (tm : TokenManager) (group field field_dir : string)
  (delay sample_value comparison_value : pyval) (filter_op : string)
  (rest : list string) (w : World) :
  apply_filters tm group field field_dir delay sample_value comparison_value
    (filter_op :: rest) w
  = let filter_value :=
      filter_value_of filter_op sample_value comparison_value in
    match fetch_field_data tm group field (PStr filter_op) filter_value 30
            (slept delay w) with
    | (Ok res, w1) =>
        apply_filters tm group field field_dir delay sample_value
          comparison_value rest
          (snd (write_json (filter_file_of field_dir filter_op)
                  match res with
                  | None =>
                      filter_sentinel group field filter_op filter_value
                  | Some r =>
                      filter_result_of group field filter_op filter_value r
                  end w1))
    | (Raise e, w1) => (Raise e, w1)
    end.
Proof.
  cbn [apply_filters]. cbv zeta. unfold slept.
  fold (filter_value_of filter_op sample_value comparison_value).
  unfold bind at 1. unfold sleep at 1, emit at 1. cbn [snd].
  unfold bind at 1.
  destruct (fetch_field_data _ _ _ _ _ _ _) as [[[r|]|e] w1]; reflexivity.
Qed.

Lemma fetch_writes_nothing (tm : TokenManager) (group field : string)
  (filter_operator filter_value : pyval) (timeout : Z) (w : World) :
  exists t,
    trace (snd (fetch_field_data tm group field filter_operator filter_value
                  timeout w)) = (trace w ++ t)%list
    /\ written_files t = [].
Proof.
  destruct (writes_only_fetch_field_data (fun _ => False) tm group field
              filter_operator filter_value timeout w) as (t & Ht & Hq).
  exists t. split; [exact Ht | exact (written_files_none t Hq)].
Qed.

Lemma apply_filters_artifacts_aux (tm : TokenManager)
  (group field field_dir : string)
  (delay sample_value comparison_value : pyval) :
  forall (filters : list string) (w : World),
  exists t done rest,
    trace (snd (apply_filters tm group field field_dir delay sample_value
                  comparison_value filters w)) = (trace w ++ t)%list
    /\ filters = (done ++ rest)%list
    /\ Forall2 (filter_artifact group field field_dir sample_value
                  comparison_value) done (written t)
    /\ (fst (apply_filters tm group field field_dir delay sample_value
               comparison_value filters w) = Ok tt -> rest = []).
Proof.
  induction filters as [|op filters IH]; intros w.
  - exists [], [], []. cbn. rewrite app_nil_r. repeat split; constructor.
  - rewrite apply_filters_step. cbv zeta.
    destruct (fetch_writes_nothing tm group field (PStr op)
                (filter_value_of op sample_value comparison_value) 30
                (slept delay w)) as (tf & Htf & Hq).
    apply written_none in Hq.
    destruct (fetch_field_data _ _ _ _ _ _ _) as [[res|e] w1];
      cbn [snd] in Htf.
    + match goal with
      | |- context [apply_filters _ _ _ _ _ _ _ filters ?w2] =>
          destruct (IH w2) as (t & done & rest & Ht & Hf & Hall & Hok)
      end.
      exists ((ESleep delay :: tf) ++ EWrite (filter_file_of field_dir op)
                match res with
                | None =>
                    filter_sentinel group field op
                      (filter_value_of op sample_value comparison_value)
                | Some r =>
                    filter_result_of group field op
                      (filter_value_of op sample_value comparison_value) r
                end :: t)%list, (op :: done), rest.
      split; [|split; [|split]].
      * rewrite Ht. cbn [write_json emit snd trace]. rewrite Htf.
        cbn [slept sleep emit snd trace]. now rewrite <- !app_assoc.
      * cbn. now rewrite Hf.
      * rewrite written_app. cbn [written]. rewrite Hq. cbn [app].
        constructor; [|exact Hall].
        split; [reflexivity|]. cbn [snd].
        destruct res as [r|]; [right; now exists r | now left].
      * exact Hok.
    + exists (ESleep delay :: tf), [], (op :: filters).
      split; [|split; [|split]].
      * cbn [snd]. rewrite Htf. cbn [slept sleep emit snd trace].
        now rewrite <- app_assoc.
      * reflexivity.
      * cbn [written]. rewrite Hq. constructor.
      * discriminate.
Qed.

Lemma fetch_first_response (tm : TokenManager) (group field : string)
  (filter_operator filter_value : pyval) (timeout : Z) (w : World)
  (r : Response) :
  truthy (token w) = true ->
  net w (posts w) = Arrives r ->
  status_code r <> 401 ->
  fetch_field_data tm group field filter_operator filter_value timeout w
  = (Ok (Some r),
     {| net := net w; posts := S (posts w); token := token w;
        trace := trace w
                 ++ [EPost REPORT_URL (report_headers (token w))
                       (report_payload group field filter_operator filter_value)
                       false timeout] |}).
Proof.
  intros Htok Hnet Hst.
  unfold fetch_field_data. unfold bind at 1.
  rewrite (get_cached tm w Htok), Htok. cbn [negb].
  unfold try_request. rewrite two_attempts, Hnet.
  destruct (Z.eqb_spec (status_code r) 401); [contradiction | reflexivity].
Qed.

Lemma plays_tail (w w' : World) (first rest : list Outcome) :
  net w' = net w -> posts w' = (posts w + List.length first)%nat ->
  plays w (first ++ rest) -> plays w' rest.
Proof.
  intros Hn Hp H i o Hi. rewrite Hn, Hp, <- Nat.add_assoc.
  apply H. rewrite nth_error_app2 by lia.
  now replace (List.length first + i - List.length first)%nat with i by lia.
Qed.

(** X16.  With a token in the slot, when the request of each filter is
    either answered at once by a response whose status is not 401 or fails on
    the network at both attempts, the filter loop returns, and it has
    written exactly one artifact per filter, in the order of the filters and
    in the file of the filter: the result record of the response that
    answered this filter, or the failure record for a filter whose request
    failed.  A request that fails does not stop the filters after it.  Each
    record carries the comparison value for [greater] and [less] when there
    is one and the sample value otherwise; every post of the loop is a report
    request, and the token slot is left alone. *)
Theorem apply_filters_records (tm : TokenManager)
  (group field field_dir : string)
  (delay sample_value comparison_value : pyval) :
  forall (filters : list string) (answers : list Answer) (w : World),
    truthy (token w) = true ->
    List.length answers = List.length filters ->
    Forall not_401 answers ->
    plays w (flat_map script_of answers) ->
    exists t,
      apply_filters tm group field field_dir delay sample_value
        comparison_value filters w
      = (Ok tt,
         {| net := net w;
            posts := posts w + List.length (flat_map script_of answers);
            token := token w; trace := trace w ++ t |})
      /\ written t
         = map (fun oa =>
                  (filter_file_of field_dir (fst oa),
                   record_of group field (fst oa)
                     (filter_value_of (fst oa) sample_value comparison_value)
                     (snd oa)))
             (combine filters answers)
      /\ all_posts t
         = repeat REPORT_URL (List.length (flat_map script_of answers)).
Proof.
  induction filters as [|op filters IH]; intros answers w Htok Hlen Hst Hplay.
  - destruct answers; [|discriminate Hlen].
    exists []. cbn. rewrite app_nil_r, Nat.add_0_r.
    destruct w; repeat split.
  - destruct answers as [|a answers]; [discriminate Hlen|].
    injection Hlen as Hlen. inversion Hst as [|? ? Ha Hst']; subst.
    rewrite apply_filters_step. cbv zeta.
    set (fv := filter_value_of op sample_value comparison_value).
    cbn [flat_map] in Hplay |- *.
    destruct a as [r|m1 m2].
    + assert (Hnet : net w (posts w) = Arrives r).
      { rewrite <- (Nat.add_0_r (posts w)). now apply Hplay. }
      rewrite (fetch_first_response tm group field (PStr op) fv 30
                 (slept delay w) r Htok Hnet Ha).
      match goal with
      | |- context [apply_filters _ _ _ _ _ _ _ filters ?w2] =>
          destruct (IH answers w2 Htok Hlen Hst') as (t & Ht & Hw & Hp)
      end.
      { apply (plays_tail w _ (script_of (Answered r))); [reflexivity | | exact Hplay].
        cbn. lia. }
      rewrite Ht. cbn [write_json emit snd slept sleep net posts token trace].
      eexists. split.
      { f_equal. f_equal; [cbn; lia|].
        rewrite <- !app_assoc. cbn [app]. reflexivity. }
      cbn [written all_posts combine map fst snd record_of script_of app
           List.length repeat].
      rewrite Hw, Hp. repeat split.
    + assert (Hn1 : net w (posts w) = Fails m1).
      { rewrite <- (Nat.add_0_r (posts w)). now apply Hplay. }
      assert (Hn2 : net w (S (posts w)) = Fails m2).
      { rewrite <- (Nat.add_1_r (posts w)). now apply Hplay. }
      rewrite (fetch_two_failures tm group field (PStr op) fv 30
                 (slept delay w) m1 m2 Htok Hn1 Hn2).
      match goal with
      | |- context [apply_filters _ _ _ _ _ _ _ filters ?w2] =>
          destruct (IH answers w2 Htok Hlen Hst') as (t & Ht & Hw & Hp)
      end.
      { apply (plays_tail w _ (script_of (Unreachable m1 m2)));
          [reflexivity | | exact Hplay].
        cbn. lia. }
      rewrite Ht. cbn [write_json emit snd slept sleep net posts token trace].
      eexists. split.
      { f_equal. f_equal; [cbn; lia|].
        rewrite <- !app_assoc. cbn [app]. reflexivity. }
      cbn [written all_posts combine map fst snd record_of script_of app
           List.length repeat].
      rewrite Hw, Hp. repeat split.
Qed.

Lemma apply_filters_records_witness :
  exists t,
    apply_filters the_manager "payment" "amount" "results/payment/amount"
      two_seconds (PStr "12.50") (PStr "30") ["equal"; "greater"] mixed_world
    = (Ok tt,
       {| net := net mixed_world; posts := 0 + 3; token := PStr "old";
          trace := [] ++ t |})
    /\ written t
       = [("results/payment/amount/equal.json",
           filter_result_of "payment" "amount" "equal" (PStr "12.50")
             server_error);
          ("results/payment/amount/greater.json",
           filter_sentinel "payment" "amount" "greater" (PStr "30"))]
    /\ all_posts t = [REPORT_URL; REPORT_URL; REPORT_URL].
Proof.
  apply (apply_filters_records the_manager "payment" "amount"
           "results/payment/amount" two_seconds (PStr "12.50") (PStr "30")
           ["equal"; "greater"]
           [Answered server_error; Unreachable "timed out" "connection reset"]
           mixed_world).
  - reflexivity.
  - reflexivity.
  - repeat constructor. discriminate.
  - intros [|[|[|i]]] o H; cbn in H; try (injection H as <-; reflexivity).
    destruct i; discriminate H.
Defined.

Lemma filter_artifact_files (group field field_dir : string)
  (sample_value comparison_value : pyval) (done : list string)
  (l : list (string * pyval)) :
  Forall2 (filter_artifact group field field_dir sample_value comparison_value)
    done l ->
  map fst l = map (filter_file_of field_dir) done.
Proof.
  induction 1 as [|op pc done l (Hp & _) _ IH]; cbn; [reflexivity|].
  now rewrite Hp, IH.
Qed.

Lemma applicable_filters_cases (v : pyval) :
  get_applicable_filters v = FILTERS
  \/ get_applicable_filters v = ["equal"; "not_equal"; "like"; "in"].
Proof.
  unfold get_applicable_filters.
  destruct v; try (destruct (is_numeric _)); auto.
Qed.

Lemma extract_writes_nothing (list_sort : list fobj -> list fobj)
  (response_data : pyval) (group field : string) (for_comparison : bool)
  (w : World) :
  exists t,
    trace (snd (extract_sample_value list_sort response_data group field
                  for_comparison w)) = (trace w ++ t)%list
    /\ written_files t = [].
Proof.
  destruct (writes_only_extract_sample_value (fun _ => False) list_sort
              response_data group field for_comparison w) as (t & Ht & Hq).
  exists t. split; [exact Ht | exact (written_files_none t Hq)].
Qed.

Lemma derive_and_filter_files (list_sort : list fobj -> list fobj)
  (tm : TokenManager) (group field output_dir : string) (delay : pyval)
  (r : Response) (w : World) :
  exists t done rest,
    trace (snd (derive_and_filter list_sort tm group field output_dir delay r w))
    = (trace w ++ t)%list
    /\ written_files t
       = map (filter_file_of (path_join (path_join output_dir group) field))
           done
    /\ ((done ++ rest)%list = FILTERS
        \/ (done ++ rest)%list = ["equal"; "not_equal"; "like"; "in"]).
Proof.
  unfold derive_and_filter.
  destruct (extract_writes_nothing list_sort (raw_result_of group field r)
              group field false w) as (t1 & H1 & Q1).
  unfold bind at 1.
  destruct (extract_sample_value list_sort _ group field false w)
    as [[sample_value|e] w1]; cbn [snd] in H1.
  2:{ exists t1, [], FILTERS. rewrite Q1. cbn [snd]. auto. }
  destruct (extract_writes_nothing list_sort (raw_result_of group field r)
              group field true w1) as (t2 & H2 & Q2).
  unfold bind at 1.
  destruct (extract_sample_value list_sort _ group field true w1)
    as [[comparison_value|e] w2]; cbn [snd] in H2.
  2:{ exists (t1 ++ t2)%list, [], FILTERS. cbn [snd].
      rewrite H2, H1, written_files_app, Q1, Q2, <- app_assoc. auto. }
  assert (Hloop : exists t done rest,
    trace (snd (apply_filters tm group field
                  (path_join (path_join output_dir group) field) delay
                  sample_value comparison_value
                  (get_applicable_filters sample_value) w2))
    = (trace w ++ t)%list
    /\ written_files t
       = map (filter_file_of (path_join (path_join output_dir group) field))
           done
    /\ ((done ++ rest)%list = FILTERS
        \/ (done ++ rest)%list = ["equal"; "not_equal"; "like"; "in"])).
  { destruct (apply_filters_artifacts_aux tm group field
                (path_join (path_join output_dir group) field) delay
                sample_value comparison_value
                (get_applicable_filters sample_value) w2)
      as (t & done & rest & Ht & Hf & Hall & _).
    exists (t1 ++ t2 ++ t)%list, done, rest. split; [|split].
    - rewrite Ht, H2, H1, <- !app_assoc. reflexivity.
    - rewrite !written_files_app, Q1, Q2. cbn [app].
      rewrite written_files_written.
      exact (filter_artifact_files _ _ _ _ _ _ _ Hall).
    - rewrite <- Hf. apply applicable_filters_cases. }
  destruct sample_value; try exact Hloop.
  exists (t1 ++ t2 ++ [ELog "WARNING"
                         "No sample value found for %s.%s, skipping filters"])%list,
    [], FILTERS.
  split; [|split; [|auto]].
  - cbn [log_warning emit snd trace]. rewrite H2, H1, <- !app_assoc.
    reflexivity.
  - rewrite !written_files_app, Q1, Q2. reflexivity.
Qed.

(** X17.  The files [process_field] writes are, in this order and each once,
    the raw file and then the files of the first filters of the fixed list
    (the six filters, or the four that are no comparison), all inside the
    directory of the field.  It writes no file at all only when it raises,
    so a call that returns has written the raw file. *)
Theorem process_field_files (list_sort : list fobj -> list fobj)
  (tm : TokenManager) (group field output_dir : string) (delay : pyval)
  (w : World) :
  exists t done rest,
    trace (snd (process_field list_sort tm group field output_dir delay w))
    = (trace w ++ t)%list
    /\ (written_files t = []
        /\ fst (process_field list_sort tm group field output_dir delay w)
           <> Ok tt
        \/ written_files t
           = raw_file_of output_dir group field
             :: map (filter_file_of
                       (path_join (path_join output_dir group) field)) done)
    /\ ((done ++ rest)%list = FILTERS
        \/ (done ++ rest)%list = ["equal"; "not_equal"; "like"; "in"]).
Proof.
  rewrite process_field_after_fetch.
  destruct (fetch_writes_nothing tm group field PNone PNone 30
              (prologue output_dir group field delay w)) as (tf & Htf & Hq).
  rewrite prologue_trace in Htf.
  destruct (fetch_field_data tm group field PNone PNone 30 _)
    as [[[r|]|e] w1]; cbn [snd] in Htf.
  - unfold bind at 1. unfold write_json at 1, emit at 1.
    match goal with
    | |- context [derive_and_filter ?a ?b ?c ?d ?e ?f ?g ?ww] =>
        destruct (derive_and_filter_files a b c d e f g ww)
          as (t & done & rest & Ht & Hfiles & Hdone)
    end.
    exists (([EMakedirs (path_join (path_join output_dir group) field);
              ESleep delay] ++ tf)
            ++ EWrite (raw_file_of output_dir group field)
                 (raw_result_of group field r) :: t)%list, done, rest.
    split; [|split; [right|exact Hdone]].
    + rewrite Ht. cbn [trace]. rewrite Htf, <- !app_assoc. reflexivity.
    + rewrite !written_files_app, Hq. cbn. now rewrite Hfiles.
  - exists (([EMakedirs (path_join (path_join output_dir group) field);
              ESleep delay] ++ tf)
            ++ [EWrite (raw_file_of output_dir group field)
                  (raw_sentinel group field)])%list, [], FILTERS.
    split; [|split; [right|auto]].
    + cbn [write_json emit snd trace]. rewrite Htf, <- !app_assoc.
      reflexivity.
    + rewrite !written_files_app, Hq. reflexivity.
  - exists ([EMakedirs (path_join (path_join output_dir group) field);
             ESleep delay] ++ tf)%list, [], FILTERS.
    split; [|split; [left|auto]].
    + cbn [snd]. rewrite Htf, <- !app_assoc. reflexivity.
    + split; [|discriminate]. rewrite written_files_app, Hq. reflexivity.
Qed.

(* ================================================================== *)
(** * The requests of [process_field] *)

Lemma dict_get_set_same (k : string) (v : pyval) (d : list (string * pyval)) :
  dict_get k (dict_set k v d) = Some v.
Proof.
  induction d as [|[k' v'] d IH]; cbn.
  - now rewrite String.eqb_refl.
  - destruct (String.eqb_spec k' k); cbn.
    + now rewrite String.eqb_refl.
    + destruct (String.eqb_spec k' k); [contradiction | exact IH].
Qed.

Lemma dict_get_set_other (k k' : string) (v : pyval)
  (d : list (string * pyval)) :
  k' <> k -> dict_get k (dict_set k' v d) = dict_get k d.
Proof.
  intros Hk. induction d as [|[k0 v0] d IH]; cbn.
  - destruct (String.eqb_spec k' k); [contradiction | reflexivity].
  - destruct (String.eqb_spec k0 k'); cbn.
    + subst k0. destruct (String.eqb_spec k' k); [contradiction | reflexivity].
    + destruct (String.eqb_spec k0 k); [reflexivity | exact IH].
Qed.

Lemma filter_keys_differ (group a b : string) :
  a <> b ->
  ("filters[" ++ group ++ "][0][" ++ a)%string
  <> ("filters[" ++ group ++ "][0][" ++ b)%string.
Proof.
  intros Hab E. apply (append_inj_l "filters[") in E.
  apply append_inj_l in E. apply (append_inj_l "][0][") in E. auto.
Qed.

(** X18.  A request with an operator and a value other than [None] carries
    the four filter entries of its group: the field, the group, the operator
    and the value as given (also a value such as [0] or the empty string),
    whatever the names of the group and of the field. *)
Theorem filter_request_payload (group field : string)
  (filter_operator filter_value : pyval) :
  truthy filter_operator = true ->
  filter_value <> PNone ->
  let payload := report_payload group field filter_operator filter_value in
  dict_get ("filters[" ++ group ++ "][0][field]") payload = Some (PStr field)
  /\ dict_get ("filters[" ++ group ++ "][0][group]") payload
     = Some (PStr group)
  /\ dict_get ("filters[" ++ group ++ "][0][operator]") payload
     = Some filter_operator
  /\ dict_get ("filters[" ++ group ++ "][0][value]") payload
     = Some filter_value.
Proof.
  intros Hop Hv. cbv zeta. unfold report_payload. rewrite Hop.
  assert (Hn : match filter_value with PNone => false | _ => true end = true)
    by (destruct filter_value; auto; contradiction).
  rewrite Hn. cbn [andb].
  match goal with
  | |- context [dict_update (dict_update [] ?l) _] =>
      generalize (dict_update [] l); intros base
  end.
  unfold dict_update. cbn [fold_left fst snd].
  assert (K : forall a b : string, a <> b ->
            ("filters[" ++ group ++ "][0][" ++ a)%string
            <> ("filters[" ++ group ++ "][0][" ++ b)%string)
    by (intros a b; apply filter_keys_differ).
  repeat split.
  - rewrite dict_get_set_other
      by (apply (K "value]" "field]"); discriminate).
    rewrite dict_get_set_other
      by (apply (K "operator]" "field]"); discriminate).
    rewrite dict_get_set_other
      by (apply (K "group]" "field]"); discriminate).
    apply dict_get_set_same.
  - rewrite dict_get_set_other
      by (apply (K "value]" "group]"); discriminate).
    rewrite dict_get_set_other
      by (apply (K "operator]" "group]"); discriminate).
    apply dict_get_set_same.
  - rewrite dict_get_set_other
      by (apply (K "value]" "operator]"); discriminate).
    apply dict_get_set_same.
  - apply dict_get_set_same.
Qed.

Lemma filter_request_payload_witness :
  let payload := report_payload "payment" "amount" (PStr "greater") (PInt 0) in
  dict_get "filters[payment][0][field]" payload = Some (PStr "amount")
  /\ dict_get "filters[payment][0][group]" payload = Some (PStr "payment")
  /\ dict_get "filters[payment][0][operator]" payload = Some (PStr "greater")
  /\ dict_get "filters[payment][0][value]" payload = Some (PInt 0).
Proof.
  apply (filter_request_payload "payment" "amount" (PStr "greater") (PInt 0));
    [reflexivity | discriminate].
Defined.

Lemma filter_value_of_not_none (filter_op : string)
  (sample_value comparison_value : pyval) :
  sample_value <> PNone ->
  filter_value_of filter_op sample_value comparison_value <> PNone.
Proof.
  intros Hs. unfold filter_value_of.
  destruct (existsb _ _); cbn [andb]; [|exact Hs].
  destruct comparison_value; auto; discriminate.
Qed.

Lemma emits_only_extract_sample_value (P : Event -> Prop)
  (list_sort : list fobj -> list fobj) (response_data : pyval)
  (group field : string) (for_comparison : bool) :
  (forall fmt, P (ELog "WARNING" fmt)) ->
  emits_only P
    (extract_sample_value list_sort response_data group field for_comparison).
Proof.
  intros HP. unfold extract_sample_value.
  destruct (extract_sample_value_try _ _ _ _ _).
  - apply emits_only_ret.
  - apply emits_only_bind; [apply emits_only_emit, HP|].
    intros _. apply emits_only_ret.
Qed.

Lemma fetch_event_field_event (tm : TokenManager)
  (output_dir group field : string) (filter_operator filter_value : pyval)
  (e : Event) :
  raw_or_filtered group field
    (report_payload group field filter_operator filter_value) ->
  fetch_event tm group field filter_operator filter_value 30 e ->
  field_event tm output_dir group field e.
Proof.
  intros Hb [->|[(tok & _ & ->)|[(level & fmt & ->)| ->]]]; cbn; auto.
Qed.

Lemma emits_only_apply_filters (tm : TokenManager)
  (output_dir group field : string)
  (delay sample_value comparison_value : pyval) :
  sample_value <> PNone ->
  forall filters,
    incl filters FILTERS ->
    emits_only (field_event tm output_dir group field)
      (apply_filters tm group field
         (path_join (path_join output_dir group) field) delay sample_value
         comparison_value filters).
Proof.
  intros Hs. induction filters as [|op rest IH]; intros Hin;
    cbn [apply_filters]; [apply emits_only_ret|].
  cbv zeta. fold (filter_value_of op sample_value comparison_value).
  apply emits_only_bind; [apply emits_only_emit; exact I|]. intros _.
  apply emits_only_bind.
  { apply (emits_only_weaken
             (fetch_event tm group field (PStr op)
                (filter_value_of op sample_value comparison_value) 30));
      [|apply emits_only_fetch_field_data].
    intros e He.
    apply (fetch_event_field_event tm output_dir group field (PStr op)
             (filter_value_of op sample_value comparison_value) e);
      [|exact He].
    right. exists op, (filter_value_of op sample_value comparison_value).
    split; [apply Hin; now left|].
    split; [now apply filter_value_of_not_none | reflexivity]. }
  intros res. apply emits_only_bind.
  { destruct res; apply emits_only_emit; cbn; eexists; reflexivity. }
  intros _. apply IH. intros x Hx. apply Hin. now right.
Qed.

(** [process_field] after [ensure_dir(field_dir)]. *)
Lemma process_field_events (list_sort : list fobj -> list fobj)
  (tm : TokenManager) (group field output_dir : string) (delay : pyval)
  (w : World) :
  exists t,
    trace (snd (process_field list_sort tm group field output_dir delay w))
    = (trace w
       ++ EMakedirs (path_join (path_join output_dir group) field) :: t)%list
    /\ Forall (field_event tm output_dir group field) t.
Proof.
  unfold process_field. cbv zeta.
  unfold bind at 1. unfold ensure_dir at 1, emit at 1.
  match goal with
  | |- context [bind (sleep delay) ?k ?w1] =>
      assert (H : emits_only (field_event tm output_dir group field)
                    (bind (sleep delay) k)); [|destruct (H w1) as (t & Ht & HP)]
  end.
  2:{ exists t. split; [|exact HP]. rewrite Ht. cbn [trace].
      now rewrite <- app_assoc. }
  apply emits_only_bind; [apply emits_only_emit; exact I|]. intros _.
  apply emits_only_bind.
  { apply (emits_only_weaken (fetch_event tm group field PNone PNone 30));
      [|apply emits_only_fetch_field_data].
    intros e He.
    apply (fetch_event_field_event tm output_dir group field PNone PNone e);
      [now left | exact He]. }
  intros [r|]; [|apply emits_only_emit; cbn; eexists; reflexivity].
  apply emits_only_bind;
    [apply emits_only_emit; cbn; eexists; reflexivity|]. intros _.
  apply emits_only_bind;
    [apply emits_only_extract_sample_value; intros; exact I|].
  intros sample_value.
  apply emits_only_bind;
    [apply emits_only_extract_sample_value; intros; exact I|].
  intros comparison_value.
  destruct sample_value;
    try (apply emits_only_apply_filters;
         [discriminate | intros op; apply applicable_filters_incl]).
  apply emits_only_emit. exact I.
Qed.

(** X19.  [process_field] makes the directory of its field first and once.
    After that every request it posts is the login request or a report
    request for its own group and field, either the raw request or a request
    with one of the six filters and a value that is not [None], so that the
    filter entries are never left out; and every file it writes is in the
    directory of the field. *)
Theorem process_field_requests (list_sort : list fobj -> list fobj)
  (tm : TokenManager) (group field output_dir : string) (delay : pyval)
  (w : World) :
  exists t,
    trace (snd (process_field list_sort tm group field output_dir delay w))
    = (trace w
       ++ EMakedirs (path_join (path_join output_dir group) field) :: t)%list
    /\ Forall (field_event tm output_dir group field) t.
Proof. apply process_field_events. Qed.

(** X20.  When the token is cached and both attempts of the raw request fail
    on the network, [process_field] returns without raising: it has written
    the failure record as the raw file and nothing else, posted the raw
    request twice and no filter request, and slept the delay and the one
    second between the attempts. *)
Theorem process_field_records_network_failure
  (list_sort : list fobj -> list fobj) (tm : TokenManager)
  (group field output_dir : string) (delay : pyval) (w : World)
  (m1 m2 : string) :
  truthy (token w) = true ->
  net w (posts w) = Fails m1 ->
  net w (S (posts w)) = Fails m2 ->
  exists t,
    process_field list_sort tm group field output_dir delay w
    = (Ok tt, {| net := net w; posts := S (S (posts w)); token := token w;
                 trace := trace w ++ t |})
    /\ written t
       = [(raw_file_of output_dir group field, raw_sentinel group field)]
    /\ posts_to REPORT_URL t
       = [(report_headers (token w), report_payload group field PNone PNone);
          (report_headers (token w), report_payload group field PNone PNone)]
    /\ all_posts t = [REPORT_URL; REPORT_URL]
    /\ sleeps t = [delay; PInt 1].
Proof.
  intros Htok H1 H2.
  rewrite process_field_after_fetch.
  rewrite (fetch_two_failures tm group field PNone PNone 30
             (prologue output_dir group field delay w) m1 m2 Htok H1 H2).
  unfold prologue. run. cbn [snd net posts token trace].
  eexists. split; [rewrite <- !app_assoc; cbn [app]; reflexivity|].
  cbn [written posts_to all_posts sleeps]. rewrite !String.eqb_refl.
  repeat split.
Qed.

Lemma process_field_records_network_failure_witness :
  exists t,
    process_field stable_sort the_manager "payment" "amount" "results"
      two_seconds
      (world_of [Fails "timed out"; Fails "connection reset"] (PStr "old"))
    = (Ok tt, {| net := net (world_of [Fails "timed out";
                                       Fails "connection reset"] (PStr "old"));
                 posts := 2; token := PStr "old"; trace := [] ++ t |})
    /\ written t
       = [(raw_file_of "results" "payment" "amount",
           raw_sentinel "payment" "amount")]
    /\ posts_to REPORT_URL t
       = [(report_headers (PStr "old"),
           report_payload "payment" "amount" PNone PNone);
          (report_headers (PStr "old"),
           report_payload "payment" "amount" PNone PNone)]
    /\ all_posts t = [REPORT_URL; REPORT_URL]
    /\ sleeps t = [two_seconds; PInt 1].
Proof.
  apply (process_field_records_network_failure stable_sort the_manager
           "payment" "amount" "results" two_seconds
           (world_of [Fails "timed out"; Fails "connection reset"] (PStr "old"))
           "timed out" "connection reset"); reflexivity.
Defined.

(* ================================================================== *)
(** * [run] *)

Lemma or_default_nonempty (a : option string) (d : string) :
  (d =? EmptyString)%string = false ->
  (or_default a d =? EmptyString)%string = false.
Proof.
  intros Hd. unfold or_default. destruct a as [s|]; [|exact Hd].
  destruct (s =? EmptyString)%string eqn:E; [exact Hd | exact E].
Qed.

(** The groups [run] iterates over come from the catalog and are named by
    [--groups] when that is given. *)
Lemma selected_groups_spec (args : Args) (group : string)
  (fields : list string) :
  In (group, fields) (selected_groups args) ->
  In (group, fields) GROUPS
  /\ (given (arg_groups args) = true ->
      In group (wanted_groups (or_default (arg_groups args) EmptyString))).
Proof.
  unfold selected_groups. destruct (given (arg_groups args)).
  - unfold restrict_groups. intros H. apply filter_In in H.
    destruct H as (HG & Hw). split; [exact HG|]. intros _.
    apply existsb_exists in Hw. destruct Hw as (x & Hx & E).
    apply String.eqb_eq in E. cbn [fst] in E. now subst x.
  - intros H. split; [exact H | discriminate].
Qed.

Lemma field_wanted_selected (args : Args) (field : string) :
  field_wanted args field = true -> field_selected args field.
Proof.
  unfold field_wanted, field_selected, given, or_default.
  destruct (arg_field args) as [s|]; [|now left].
  destruct (s =? EmptyString)%string; cbn; [now left|].
  destruct (String.eqb_spec s field); [subst; now right | discriminate].
Qed.

(** [run] from its login on. *)
Lemma run_after_login (list_sort : list fobj -> list fobj) (args : Args)
  (w : World) :
  run list_sort args w
  = match login (manager_of args) 10 (run_start args w) with
    | (Ok tok, w1) =>
        if negb (truthy tok) then log_error "Login failed — aborting" w1
        else if given (arg_groups args)
                && match selected_groups args with [] => true | _ => false end
        then log_error "No matching groups for %s" w1
        else run_groups list_sort (manager_of args) args
               (selected_groups args) w1
    | (Raise e, w1) => (Raise e, w1)
    end.
Proof.
  unfold run, run_start, selected_groups, setup_logging, get. cbv zeta.
  rewrite !or_default_nonempty by reflexivity. cbn [orb].
  fold (manager_of args). run. cbn [snd truthy negb].
  destruct (login (manager_of args) 10 _) as [[tok|e] w3]; [|reflexivity].
  destruct (negb (truthy tok)); [reflexivity|].
  destruct (given (arg_groups args)); cbn [andb]; [|reflexivity].
  destruct (restrict_groups _ GROUPS); reflexivity.
Qed.

Lemma run_fields_returns (list_sort : list fobj -> list fobj)
  (tm : TokenManager) (args : Args) (group : string) :
  forall (fields : list string) (w : World),
    fst (run_fields list_sort tm args group fields w) = Ok tt.
Proof.
  induction fields as [|field rest IH]; intros w; cbn [run_fields];
    [reflexivity|].
  unfold bind at 1.
  destruct (given (arg_field args) && _); [apply IH|].
  unfold try_except.
  destruct (process_field list_sort tm group field _ _ w) as [[[]|e] w1];
    [apply IH|].
  cbn [bind log_error emit]. unfold bind. cbn. apply IH.
Qed.

Lemma run_groups_returns (list_sort : list fobj -> list fobj)
  (tm : TokenManager) (args : Args) :
  forall (groups : list (string * list string)) (w : World),
    fst (run_groups list_sort tm args groups w) = Ok tt.
Proof.
  induction groups as [|[group fields] rest IH]; intros w; cbn [run_groups];
    [reflexivity|].
  unfold bind at 1.
  pose proof (run_fields_returns list_sort tm args group fields w) as H.
  destruct (run_fields list_sort tm args group fields w) as [[[]|e] w1];
    [apply IH | discriminate H].
Qed.

(** X21.  [run] raises exactly when its first login raises, and then that
    exception: once the login has returned, with or without a token, [run]
    returns normally whatever happens to the requests and the fields (the
    file system is taken not to fail). *)
Theorem run_raises_only_at_login (list_sort : list fobj -> list fobj)
  (args : Args) (w : World) :
  match fst (login (manager_of args) 10 (run_start args w)) with
  | Ok _ => fst (run list_sort args w) = Ok tt
  | Raise e => fst (run list_sort args w) = Raise e
  end.
Proof.
  rewrite run_after_login.
  destruct (login (manager_of args) 10 (run_start args w)) as [[tok|e] w1];
    cbn [fst]; [|reflexivity].
  destruct (negb (truthy tok)); [reflexivity|].
  destruct (given (arg_groups args) && _); [reflexivity|].
  apply run_groups_returns.
Qed.

Lemma logged_app (t1 t2 : list Event) :
  logged (t1 ++ t2) = (logged t1 ++ logged t2)%list.
Proof.
  induction t1 as [|e t1 IH]; simpl; [reflexivity|].
  destruct e; auto. now rewrite IH.
Qed.

Lemma made_dirs_app (t1 t2 : list Event) :
  made_dirs (t1 ++ t2) = (made_dirs t1 ++ made_dirs t2)%list.
Proof.
  induction t1 as [|e t1 IH]; simpl; [reflexivity|].
  destruct e; auto. now rewrite IH.
Qed.

Lemma run_start_trace (args : Args) (w : World) :
  exists logdir,
    trace (run_start args w)
    = (trace w ++ [EMakedirs (arg_output args); EMakedirs logdir])%list.
Proof.
  unfold run_start, setup_logging. run. cbn [snd trace].
  eexists. rewrite <- app_assoc. reflexivity.
Qed.

(** X22.  A first login that yields no token aborts the run before any field:
    [run] logs the error and returns; its only request is the login attempt,
    and it writes no file. *)
Theorem run_aborts_without_token (list_sort : list fobj -> list fobj)
  (args : Args) (w w1 : World) (tok : pyval) :
  login (manager_of args) 10 (run_start args w) = (Ok tok, w1) ->
  truthy tok = false ->
  exists t,
    fst (run list_sort args w) = Ok tt
    /\ trace (snd (run list_sort args w)) = (trace w ++ t)%list
    /\ all_posts t = [LOGIN_URL]
    /\ written_files t = []
    /\ last (logged t) (EmptyString, EmptyString)
       = ("ERROR", "Login failed — aborting").
Proof.
  intros Hlogin Htok.
  destruct (login_posts_once (manager_of args) 10 (run_start args w))
    as (tl & Htl & Hall & _ & Hfiles & _).
  destruct (run_start_trace args w) as (logdir & Hstart).
  rewrite Hlogin in Htl. cbn [snd] in Htl. rewrite Hstart in Htl.
  rewrite run_after_login, Hlogin, Htok. cbn [negb log_error emit fst snd trace].
  exists ([EMakedirs (arg_output args); EMakedirs logdir] ++ tl
          ++ [ELog "ERROR" "Login failed — aborting"])%list.
  split; [reflexivity|].
  split; [rewrite Htl, <- !app_assoc; reflexivity|].
  rewrite !all_posts_app, !written_files_app, !logged_app, Hall, Hfiles.
  repeat split. cbn [logged app]. apply last_last.
Qed.

Lemma run_aborts_without_token_witness :
  exists t,
    fst (run stable_sort payor_args (world_of [Arrives server_error] PNone))
    = Ok tt
    /\ trace (snd (run stable_sort payor_args
                     (world_of [Arrives server_error] PNone)))
       = (trace (world_of [Arrives server_error] PNone) ++ t)%list
    /\ all_posts t = [LOGIN_URL]
    /\ written_files t = []
    /\ last (logged t) (EmptyString, EmptyString)
       = ("ERROR", "Login failed — aborting").
Proof.
  apply (run_aborts_without_token stable_sort payor_args
           (world_of [Arrives server_error] PNone)
           (snd (login (manager_of payor_args) 10
                   (run_start payor_args
                      (world_of [Arrives server_error] PNone))))
           PNone); reflexivity.
Defined.

Lemma process_field_run_event (list_sort : list fobj -> list fobj)
  (args : Args) (group field : string) :
  selected args group field ->
  emits_only (run_event args)
    (process_field list_sort (manager_of args) group field (arg_output args)
       (arg_delay args)).
Proof.
  intros Hsel w.
  destruct (process_field_events list_sort (manager_of args) group field
              (arg_output args) (arg_delay args) w) as (t & Ht & HP).
  eexists. split; [exact Ht|].
  constructor; [exact I|].
  revert HP. apply Forall_impl. intros e.
  destruct e; cbn; auto.
  - intros [H|(Hu & Hb)]; [now left | right].
    split; [exact Hu|]. now exists group, field.
  - intros (name & ->). now exists group, field, name.
Qed.

Lemma emits_only_run_fields (list_sort : list fobj -> list fobj)
  (args : Args) (group : string) (all_fields : list string) :
  In (group, all_fields) GROUPS ->
  (given (arg_groups args) = true ->
   In group (wanted_groups (or_default (arg_groups args) EmptyString))) ->
  forall fields,
    incl fields all_fields ->
    emits_only (run_event args)
      (run_fields list_sort (manager_of args) args group fields).
Proof.
  intros HG Hw. induction fields as [|field rest IH]; intros Hin;
    cbn [run_fields]; [apply emits_only_ret|].
  apply emits_only_bind.
  2:{ intros _. apply IH. intros x Hx. apply Hin. now right. }
  fold (field_wanted args field).
  destruct (given (arg_field args) && _) eqn:E; [apply emits_only_ret|].
  apply emits_only_try_except.
  - apply process_field_run_event. exists all_fields.
    split; [exact HG|]. split; [apply Hin; now left|]. split; [exact Hw|].
    apply field_wanted_selected. unfold field_wanted. now rewrite E.
  - intros _. apply emits_only_bind; [apply emits_only_emit; exact I|].
    intros _. apply emits_only_emit. exact I.
Qed.

Lemma emits_only_run_groups (list_sort : list fobj -> list fobj)
  (args : Args) :
  forall groups,
    incl groups (selected_groups args) ->
    emits_only (run_event args)
      (run_groups list_sort (manager_of args) args groups).
Proof.
  induction groups as [|[group fields] rest IH]; intros Hin;
    cbn [run_groups]; [apply emits_only_ret|].
  apply emits_only_bind.
  - destruct (selected_groups_spec args group fields (Hin _ (or_introl eq_refl)))
      as (HG & Hw).
    apply (emits_only_run_fields list_sort args group fields HG Hw).
    apply incl_refl.
  - intros _. apply IH. intros x Hx. apply Hin. now right.
Qed.

(** X23.  [--groups] and [--field] bound everything [run] does on the report
    side: every report request it posts is a raw or a filtered request for a
    group and a field of the catalog that are selected (the group named by
    [--groups] when given, the field equal to [--field] when given), every
    file it writes is in the directory of such a field under the output
    directory, and the only other request is the login with the credentials
    of the command line or the defaults. *)
Theorem run_stays_in_selection (list_sort : list fobj -> list fobj)
  (args : Args) (w : World) :
  exists t,
    trace (snd (run list_sort args w)) = (trace w ++ t)%list
    /\ Forall (run_event args) t.
Proof.
  revert w. change (emits_only (run_event args) (run list_sort args)).
  unfold run. cbv zeta. fold (manager_of args).
  apply emits_only_bind; [apply emits_only_emit; exact I|]. intros _.
  apply emits_only_bind; [apply emits_only_emit; exact I|]. intros _.
  destruct (_ || _); [apply emits_only_emit; exact I|].
  apply emits_only_bind; [apply emits_only_set_token|]. intros _.
  apply emits_only_bind.
  { apply (emits_only_weaken (login_event (manager_of args) 10));
      [|apply emits_only_get].
    intros e [->|(fmt & ->)]; cbn; auto. }
  intros tok. destruct (negb (truthy tok)); [apply emits_only_emit; exact I|].
  pose proof (emits_only_run_groups list_sort args (selected_groups args)
                (incl_refl _)) as H.
  unfold selected_groups in H.
  destruct (given (arg_groups args)); [|exact H].
  destruct (restrict_groups _ GROUPS); [apply emits_only_emit; exact I|].
  exact H.
Qed.

Lemma made_dirs_none (P : Event -> Prop) (t : list Event) :
  (forall p, ~ P (EMakedirs p)) -> Forall P t -> made_dirs t = [].
Proof.
  intros HP. induction 1 as [|e t He _ IH]; [reflexivity|].
  destruct e; cbn; auto. now apply HP in He.
Qed.

(** One round of the loop over the fields: the field is entered, and the
    loop goes on whether [process_field] returns or raises. *)
Lemma visit_field (list_sort : list fobj -> list fobj) (tm : TokenManager)
  (group field output_dir : string) (delay : pyval) (w : World) :
  exists t w',
    try_except (process_field list_sort tm group field output_dir delay)
      (fun _ =>
         log_error "Error processing %s.%s: %s" ;;
         log_error "Traceback: %s") w = (Ok tt, w')
    /\ trace w' = (trace w ++ t)%list
    /\ made_dirs t = [path_join (path_join output_dir group) field].
Proof.
  destruct (process_field_events list_sort tm group field output_dir delay w)
    as (t & Ht & HP).
  assert (Hd : made_dirs t = []).
  { apply (made_dirs_none (field_event tm output_dir group field));
      [intros p H; exact H | exact HP]. }
  unfold try_except.
  destruct (process_field list_sort tm group field output_dir delay w)
    as [[[]|e] w1]; cbn [snd] in Ht.
  - do 2 eexists. split; [reflexivity|]. split; [exact Ht|].
    cbn. now rewrite Hd.
  - run. do 2 eexists. split; [reflexivity|]. cbn [trace].
    split; [rewrite Ht, <- !app_assoc; reflexivity|].
    cbn [made_dirs app]. rewrite made_dirs_app, Hd. reflexivity.
Qed.

Lemma run_fields_visits (list_sort : list fobj -> list fobj)
  (tm : TokenManager) (args : Args) (group : string) :
  forall (fields : list string) (w : World),
  exists t,
    trace (snd (run_fields list_sort tm args group fields w))
    = (trace w ++ t)%list
    /\ made_dirs t
       = map (fun field => path_join (path_join (arg_output args) group) field)
           (filter (field_wanted args) fields).
Proof.
  induction fields as [|field rest IH]; intros w; cbn [run_fields].
  - exists []. cbn. now rewrite app_nil_r.
  - cbn [filter]. unfold field_wanted at 1. unfold bind at 1.
    destruct (given (arg_field args) && _); cbn [negb].
    + apply IH.
    + destruct (visit_field list_sort tm group field (arg_output args)
                  (arg_delay args) w) as (t1 & w1 & -> & H1 & D1).
      destruct (IH w1) as (t2 & H2 & D2).
      exists (t1 ++ t2)%list. rewrite H2, H1, made_dirs_app, D1, D2.
      now rewrite <- app_assoc.
Qed.

Lemma run_groups_visits (list_sort : list fobj -> list fobj)
  (tm : TokenManager) (args : Args) :
  forall (groups : list (string * list string)) (w : World),
  exists t,
    trace (snd (run_groups list_sort tm args groups w)) = (trace w ++ t)%list
    /\ made_dirs t = visited args groups.
Proof.
  induction groups as [|[group fields] rest IH]; intros w; cbn [run_groups].
  - exists []. cbn. now rewrite app_nil_r.
  - unfold bind at 1.
    destruct (run_fields_visits list_sort tm args group fields w)
      as (t1 & H1 & D1).
    pose proof (run_fields_returns list_sort tm args group fields w) as Hok.
    destruct (run_fields list_sort tm args group fields w) as [[[]|e] w1];
      [|discriminate Hok].
    cbn [snd] in H1. destruct (IH w1) as (t2 & H2 & D2).
    exists (t1 ++ t2)%list. rewrite H2, H1, made_dirs_app, D1, D2.
    cbn [visited flat_map fst snd]. now rewrite <- app_assoc.
Qed.

(** X24.  Once the login has yielded a token, [run] enters every selected
    field of every selected group, in the order of the catalog and each
    once, whatever happens while it processes them: a field whose processing
    fails or raises does not stop the fields after it.  The directories made
    are the output directory, the one of the log file and the one of each
    selected field. *)
Theorem run_visits_every_selected_field (list_sort : list fobj -> list fobj)
  (args : Args) (w w1 : World) (tok : pyval) :
  login (manager_of args) 10 (run_start args w) = (Ok tok, w1) ->
  truthy tok = true ->
  exists t logdir,
    trace (snd (run list_sort args w)) = (trace w ++ t)%list
    /\ made_dirs t
       = arg_output args :: logdir :: visited args (selected_groups args).
Proof.
  intros Hlogin Htok.
  destruct (emits_only_login (manager_of args) 10 (run_start args w))
    as (tl & Htl & HPl).
  assert (Hdl : made_dirs tl = []).
  { apply (made_dirs_none (login_event (manager_of args) 10)); [|exact HPl].
    intros p [H|(fmt & H)]; discriminate H. }
  destruct (run_start_trace args w) as (logdir & Hstart).
  rewrite Hlogin in Htl. cbn [snd] in Htl. rewrite Hstart in Htl.
  rewrite run_after_login, Hlogin, Htok. cbn [negb].
  destruct (given (arg_groups args) && _) eqn:E.
  - apply andb_prop in E. destruct E as (_ & E).
    destruct (selected_groups args); [|discriminate E].
    exists ([EMakedirs (arg_output args); EMakedirs logdir] ++ tl
            ++ [ELog "ERROR" "No matching groups for %s"])%list, logdir.
    cbn [log_error emit snd trace].
    split; [rewrite Htl, <- !app_assoc; reflexivity|].
    rewrite !made_dirs_app, Hdl. reflexivity.
  - destruct (run_groups_visits list_sort (manager_of args) args
                (selected_groups args) w1) as (t & Ht & Hd).
    exists ([EMakedirs (arg_output args); EMakedirs logdir] ++ tl ++ t)%list,
      logdir.
    split; [rewrite Ht, Htl, <- !app_assoc; reflexivity|].
    rewrite !made_dirs_app, Hdl, Hd. reflexivity.
Qed.

Lemma run_visits_every_selected_field_witness :
  exists t logdir,
    trace (snd (run stable_sort payor_args offline_world))
    = (trace offline_world ++ t)%list
    /\ made_dirs t
       = arg_output payor_args :: logdir
         :: visited payor_args (selected_groups payor_args).
Proof.
  apply (run_visits_every_selected_field stable_sort payor_args offline_world
           (snd (login (manager_of payor_args) 10
                   (run_start payor_args offline_world)))
           (PStr "abc")); reflexivity.
Defined.

(* ================================================================== *)
(** * The operators applied to a field *)






